(** * graphql-google-pubsub: the engine (GooglePubSub) and its AsyncIterator

    A shallow embedding of [src/google-pubsub.ts] (class [GooglePubSub]) and of
    the [AsyncIterator] class that follows it in the same file.

    JavaScript is single threaded: a function runs without interruption until
    it returns or reaches an [await] / a [.then].  Every such uninterrupted
    segment is one Rocq function on an explicit state; the points where the
    source suspends are frames kept in the state and resumed by a later event.
    Calls made to the broker client and to user callbacks are appended to an
    effect trace, oldest first. *)

From stdpp Require Import gmap strings list fin_maps.

(** ** Values exchanged with the outside *)

Inductive Error :=
  | NoSubscriptionOfIdError (subId : nat)
  | TypeError (what : string)
  | BrokerError (code : nat)
  | UserError (code : nat).

(** The settled state of a promise. *)
Inductive Result (A : Type) :=
  | Fulfilled (a : A)
  | Rejected (e : Error).
Arguments Fulfilled {A} a.
Arguments Rejected {A} e.

(** Incoming message shape: [{ data, attributes, ack() }]; [msgId] names the
    object so that its [ack()] calls can be told apart in the trace. *)
Record Message := {
  msgId : nat;
  data : string;
  attributes : list (string * string)
}.

(** What [commonMessageHandler] returns: the message itself (the default
    transform is the identity) or anything else. *)
Inductive Value :=
  | VMessage (m : Message)
  | VOther (payload : string).

(** The [options] argument of [subscribe]: an open string-keyed object. *)
Definition Options := list (string * string).

(** A delivery callback [onMessage]: a function of the caller, which is
    called with the transformed value and returns or throws, or the
    [this.pushValue.bind(this)] of an [AsyncIterator] (named by a number),
    which only chains a [.then] and returns.  Callbacks do not call back into
    the engine synchronously. *)
Inductive Callback :=
  | UserCallback (tag : nat) (run : Value -> option Error)
  | PushValueOf (iterator : nat).

(** What calling the callback throws, if anything. *)
Definition cbRun (onMessage : Callback) (res : Value) : option Error :=
  match onMessage with
  | UserCallback _ run => run res
  | PushValueOf _ => None
  end.

(** The object returned by [pubSubClient.subscription(subName)], or the one
    [createSubscription] answers with. *)
Inductive Subscription :=
  | ClientSub (subName : string)
  | NewSub (serial : nat).

(** The event names ['message'] and ['error']. *)
Inductive EventKind := MessageEvent | ErrorEvent.

(** Closures attached to a [Subscription].  Each one is allocated by one
    activation of [subscribe], which is named by the client id it allocated:
    [HandleMessage subName id] is the [handleMessage.bind(this)] built by
    [getMessageHandler(subName)], [ErrorHandler id] the
    [error => console.error(error)] of the same activation. *)
Inductive Listener :=
  | HandleMessage (subName : string) (activation : nat)
  | ErrorHandler (activation : nat).

Inductive Effect :=
  | On (sub : Subscription) (ev : EventKind) (h : Listener)
  | RemoveListener (sub : Subscription) (ev : EventKind) (h : option Listener)
  | Ack (m : Message)
  | Transform (m : Message)
  | Deliver (id : nat) (onMessage : Callback) (res : Value)
  | ConsoleError (e : Error).

(** What the broker answers to [getSubscription]: [sub.exists()] says yes, or
    says no and [createSubscription] answers, or one of the two rejects. *)
Inductive BrokerReply :=
  | ExistsYes
  | ExistsNoCreated (newSub : Subscription)
  | ExistsRejects (e : Error)
  | CreateRejects (e : Error).

(** ** The engine state *)

(** [type GoogleSubAndClientIds]: every field is optional. *)
Record GoogleSubAndClientIds := {
  sub : option Subscription;
  messageHandler : option Listener;
  errorHandler : option Listener;
  ids : option (list nat)
}.

(** The object literal [{}]. *)
Definition emptyObject : GoogleSubAndClientIds :=
  {| sub := None; messageHandler := None; errorHandler := None; ids := None |}.

(** The fields of [GooglePubSub].  The two objects used as maps are keyed by
    client id and by subscription name; names are assumed not to collide with
    the members of [Object.prototype].  [currentClientId] is a JavaScript
    number that only ever grows by one from zero; it is a [nat] here. *)
Record GooglePubSub := {
  clientId2GoogleSubNameAndClientCallback : gmap nat (string * Callback);
  googleSubName2GoogleSubAndClientIds : gmap string GoogleSubAndClientIds;
  currentClientId : nat;
  topic2SubName : string -> option Options -> string;
  commonMessageHandler : Message -> Result Value
}.

(** An activation of [subscribe] suspended at [await this.getSubscription]. *)
Record SubscribeFrame := {
  sfTopicName : string;
  sfSubName : string;
  sfId : nat
}.

(** An activation of [handleMessage] suspended at
    [await engine.commonMessageHandler(message)], with what the awaited
    expression settles to. *)
Record HandleFrame := {
  hfSubName : string;
  hfAwaited : Result Value
}.

Record World := {
  engine : GooglePubSub;
  awaiting : list SubscribeFrame;
  handling : list HandleFrame;
  effects : list Effect;
  (** settled promises of [subscribe] calls, oldest first, each named by the
      client id of its call *)
  subscribed : list (nat * Result nat);
  (** promises of [handleMessage] calls that rejected; nobody holds them *)
  unhandled : list Error
}.

Definition with_engine (g : GooglePubSub) (w : World) : World :=
  {| engine := g; awaiting := awaiting w; handling := handling w;
     effects := effects w; subscribed := subscribed w; unhandled := unhandled w |}.

Definition with_awaiting (a : list SubscribeFrame) (w : World) : World :=
  {| engine := engine w; awaiting := a; handling := handling w;
     effects := effects w; subscribed := subscribed w; unhandled := unhandled w |}.

Definition with_handling (h : list HandleFrame) (w : World) : World :=
  {| engine := engine w; awaiting := awaiting w; handling := h;
     effects := effects w; subscribed := subscribed w; unhandled := unhandled w |}.

Definition emit (es : list Effect) (w : World) : World :=
  {| engine := engine w; awaiting := awaiting w; handling := handling w;
     effects := effects w ++ es; subscribed := subscribed w; unhandled := unhandled w |}.

Definition settle (id : nat) (r : Result nat) (w : World) : World :=
  {| engine := engine w; awaiting := awaiting w; handling := handling w;
     effects := effects w; subscribed := subscribed w ++ [(id, r)];
     unhandled := unhandled w |}.

Definition unhandledRejection (e : Error) (w : World) : World :=
  {| engine := engine w; awaiting := awaiting w; handling := handling w;
     effects := effects w; subscribed := subscribed w;
     unhandled := unhandled w ++ [e] |}.

Definition set_clients (c : gmap nat (string * Callback)) (g : GooglePubSub) : GooglePubSub :=
  {| clientId2GoogleSubNameAndClientCallback := c;
     googleSubName2GoogleSubAndClientIds := googleSubName2GoogleSubAndClientIds g;
     currentClientId := currentClientId g;
     topic2SubName := topic2SubName g;
     commonMessageHandler := commonMessageHandler g |}.

Definition set_subs (s : gmap string GoogleSubAndClientIds) (g : GooglePubSub) : GooglePubSub :=
  {| clientId2GoogleSubNameAndClientCallback := clientId2GoogleSubNameAndClientCallback g;
     googleSubName2GoogleSubAndClientIds := s;
     currentClientId := currentClientId g;
     topic2SubName := topic2SubName g;
     commonMessageHandler := commonMessageHandler g |}.

Definition set_counter (n : nat) (g : GooglePubSub) : GooglePubSub :=
  {| clientId2GoogleSubNameAndClientCallback := clientId2GoogleSubNameAndClientCallback g;
     googleSubName2GoogleSubAndClientIds := googleSubName2GoogleSubAndClientIds g;
     currentClientId := n;
     topic2SubName := topic2SubName g;
     commonMessageHandler := commonMessageHandler g |}.

(** [new GooglePubSub(config, topic2SubName, commonMessageHandler, client)] *)
Definition newGooglePubSub (t2s : string -> option Options -> string)
    (cmh : Message -> Result Value) : GooglePubSub :=
  {| clientId2GoogleSubNameAndClientCallback := ∅;
     googleSubName2GoogleSubAndClientIds := ∅;
     currentClientId := 0;
     topic2SubName := t2s;
     commonMessageHandler := cmh |}.

(** The default arguments of the constructor. *)
Definition defaultTopic2SubName (topicName : string) (_ : option Options) : string :=
  topicName +:+ "-subscription".

Definition defaultCommonMessageHandler (m : Message) : Result Value :=
  Fulfilled (VMessage m).

Definition newWorld (g : GooglePubSub) : World :=
  {| engine := g; awaiting := []; handling := []; effects := [];
     subscribed := []; unhandled := [] |}.

(** ** [GooglePubSub.subscribe] *)

(** The entry read by [this.googleSubName2GoogleSubAndClientIds[subName] || {}]. *)
Definition entryOrEmpty (g : GooglePubSub) (subName : string) : GoogleSubAndClientIds :=
  default emptyObject (googleSubName2GoogleSubAndClientIds g !! subName).

(** [subscribe] up to its first suspension.  The promise it returns is named
    by the allocated id, which is what the function answers here. *)
Definition subscribe (topicName : string) (onMessage : Callback)
    (options : option Options) (w : World) : World * nat :=
  let g := engine w in
  let subName := topic2SubName g topicName options in
  let id := currentClientId g in
  let g := set_counter (S id) g in
  let g := set_clients
             (<[id := (subName, onMessage)]> (clientId2GoogleSubNameAndClientCallback g)) g in
  let rest := entryOrEmpty g subName in
  let oldIds := default [] (ids rest) in
  let g := set_subs
             (<[subName := {| sub := sub rest; messageHandler := messageHandler rest;
                              errorHandler := errorHandler rest;
                              ids := Some (oldIds ++ [id]) |}]>
                (googleSubName2GoogleSubAndClientIds g)) g in
  if 0 <? length oldIds
  then (settle id (Fulfilled id) (with_engine g w), id)
  else (with_awaiting
          (awaiting w ++ [{| sfTopicName := topicName; sfSubName := subName; sfId := id |}])
          (with_engine g w), id).

(** [getSubscription], given what the broker answers. *)
Definition getSubscription (topicName subName : string) (reply : BrokerReply)
    : Result Subscription :=
  match reply with
  | ExistsYes => Fulfilled (ClientSub subName)
  | ExistsNoCreated newSub => Fulfilled newSub
  | ExistsRejects e => Rejected e
  | CreateRejects e => Rejected e
  end.

(** The rest of [subscribe], from [await this.getSubscription] on.  Reading
    [.length] of the missing [ids] of [{}] throws, which rejects the promise
    of the async function. *)
Definition subscribeResume (f : SubscribeFrame) (reply : BrokerReply) (w : World) : World :=
  let subName := sfSubName f in
  let id := sfId f in
  match getSubscription (sfTopicName f) subName reply with
  | Rejected e => settle id (Rejected e) w
  | Fulfilled s =>
      let googleSubAndClientIds := entryOrEmpty (engine w) subName in
      match ids googleSubAndClientIds with
      | None => settle id (Rejected (TypeError "Cannot read property 'length' of undefined")) w
      | Some l =>
          if length l =? 0 then settle id (Fulfilled id) w
          else
            let mh := HandleMessage subName id in
            let eh := ErrorHandler id in
            let w := emit [On s MessageEvent mh; On s ErrorEvent eh] w in
            let g := set_subs
                       (<[subName := {| sub := Some s; messageHandler := Some mh;
                                        errorHandler := Some eh;
                                        ids := ids googleSubAndClientIds |}]>
                          (googleSubName2GoogleSubAndClientIds (engine w))) (engine w) in
            settle id (Fulfilled id) (with_engine g w)
      end
  end.

(** ** [GooglePubSub.unsubscribe] *)

(** [ids.indexOf(subId)]; [None] stands for [-1]. *)
Fixpoint indexOf (subId : nat) (l : list nat) : option nat :=
  match l with
  | [] => None
  | x :: l' => if x =? subId then Some 0 else S <$> indexOf subId l'
  end.

(** [unsubscribe] is synchronous: it returns ([None]) or throws ([Some e]). *)
Definition unsubscribe (subId : nat) (w : World) : World * option Error :=
  let g := engine w in
  match fst <$> clientId2GoogleSubNameAndClientCallback g !! subId with
  | None => (w, Some (NoSubscriptionOfIdError subId))
  | Some subName =>
      if String.eqb subName "" then (w, Some (NoSubscriptionOfIdError subId))
      else
        let googleSubAndClientIds := entryOrEmpty g subName in
        match ids googleSubAndClientIds with
        | None => (w, Some (NoSubscriptionOfIdError subId))
        | Some l =>
            let w :=
              if length l =? 1 then
                let w :=
                  match sub googleSubAndClientIds with
                  | Some s =>
                      emit [RemoveListener s MessageEvent (messageHandler googleSubAndClientIds);
                            RemoveListener s ErrorEvent (errorHandler googleSubAndClientIds)] w
                  | None => w
                  end in
                with_engine
                  (set_subs (delete subName (googleSubName2GoogleSubAndClientIds (engine w)))
                     (engine w)) w
              else
                let l' := match indexOf subId l with
                          | None => l
                          | Some index => take index l ++ drop (index + 1) l
                          end in
                with_engine
                  (set_subs
                     (<[subName := {| sub := sub googleSubAndClientIds;
                                      messageHandler := messageHandler googleSubAndClientIds;
                                      errorHandler := errorHandler googleSubAndClientIds;
                                      ids := Some l' |}]>
                        (googleSubName2GoogleSubAndClientIds (engine w))) (engine w)) w in
            (with_engine
               (set_clients (delete subId (clientId2GoogleSubNameAndClientCallback (engine w)))
                  (engine w)) w, None)
        end
  end.

(** ** [GooglePubSub.getMessageHandler] *)

(** [handleMessage] up to its [await]: the message is acknowledged, then the
    transform is called. *)
Definition handleMessage (subName : string) (m : Message) (w : World) : World :=
  let w := emit [Ack m] w in
  let w := emit [Transform m] w in
  let awaited := commonMessageHandler (engine w) m in
  with_handling (handling w ++ [{| hfSubName := subName; hfAwaited := awaited |}]) w.

(** [ids.forEach(id => { const [, onMessage] = ...[id]; onMessage(res) })].
    Destructuring a missing record throws, and so may [onMessage]; either
    ends the loop. *)
Fixpoint forEachId (res : Value) (l : list nat) (w : World) : World * option Error :=
  match l with
  | [] => (w, None)
  | id :: l' =>
      match clientId2GoogleSubNameAndClientCallback (engine w) !! id with
      | None => (w, Some (TypeError "undefined is not iterable"))
      | Some (_, onMessage) =>
          let w := emit [Deliver id onMessage res] w in
          match cbRun onMessage res with
          | Some e => (w, Some e)
          | None => forEachId res l' w
          end
      end
  end.

(** The rest of [handleMessage].  Nothing catches what the [await] or the loop
    throws: the promise of the async function rejects, and nobody holds it. *)
Definition handleMessageResume (f : HandleFrame) (w : World) : World :=
  match hfAwaited f with
  | Rejected e => unhandledRejection e w
  | Fulfilled res =>
      let l := default [] (ids (entryOrEmpty (engine w) (hfSubName f))) in
      match forEachId res l w with
      | (w, Some e) => unhandledRejection e w
      | (w, None) => w
      end
  end.

(** ** The event loop around one engine *)

Inductive Event :=
  | ESubscribe (topicName : string) (onMessage : Callback) (options : option Options)
  | EUnsubscribe (subId : nat)
  (** the broker answers the [getSubscription] of the activation of
      [subscribe] that allocated [id] *)
  | ERoundTrip (id : nat) (reply : BrokerReply)
  (** a subscription emits ['message'] to a [HandleMessage subName _] *)
  | EMessage (subName : string) (m : Message)
  (** the [k]-th suspended [handleMessage] resumes *)
  | ETransformSettles (k : nat).

(** The first frame of activation [id], and the other frames. *)
Fixpoint takeFrame (id : nat) (l : list SubscribeFrame)
    : option (SubscribeFrame * list SubscribeFrame) :=
  match l with
  | [] => None
  | f :: l' =>
      if sfId f =? id then Some (f, l')
      else match takeFrame id l' with
           | Some (f', r) => Some (f', f :: r)
           | None => None
           end
  end.

Definition step (e : Event) (w : World) : World :=
  match e with
  | ESubscribe topicName onMessage options => fst (subscribe topicName onMessage options w)
  | EUnsubscribe subId => fst (unsubscribe subId w)
  | ERoundTrip id reply =>
      match takeFrame id (awaiting w) with
      | Some (f, r) => subscribeResume f reply (with_awaiting r w)
      | None => w
      end
  | EMessage subName m => handleMessage subName m w
  | ETransformSettles k =>
      match handling w !! k with
      | Some f => handleMessageResume f (with_handling (delete k (handling w)) w)
      | None => w
      end
  end.

Definition run (evs : list Event) (w : World) : World :=
  foldl (fun w e => step e w) w evs.

(** ** Observations on a world *)

(** The ids registered under a subscription name. *)
Definition listenerIds (subName : string) (w : World) : list nat :=
  default [] (ids (entryOrEmpty (engine w) subName)).

Definition listeners (subName : string) (w : World) : nat :=
  length (listenerIds subName w).

(** Whether the entry of a name holds a [sub], i.e. handlers were attached. *)
Definition attached (subName : string) (w : World) : bool :=
  match sub (entryOrEmpty (engine w) subName) with
  | Some _ => true
  | None => false
  end.

Definition isAttach (subName : string) (e : Effect) : bool :=
  match e with
  | On _ MessageEvent (HandleMessage n _) => String.eqb n subName
  | _ => false
  end.

Definition isDetach (subName : string) (e : Effect) : bool :=
  match e with
  | RemoveListener _ MessageEvent (Some (HandleMessage n _)) => String.eqb n subName
  | _ => false
  end.

Definition countIf {A} (p : A -> bool) (l : list A) : nat :=
  length (List.filter p l).

(** Calls [sub.on('message', h)] / [sub.removeListener('message', h)] made so
    far with a message handler of the given name. *)
Definition attachCalls (subName : string) (w : World) : nat :=
  countIf (isAttach subName) (effects w).

Definition detachCalls (subName : string) (w : World) : nat :=
  countIf (isDetach subName) (effects w).

(** Suspended [subscribe] activations of a name. *)
Definition pendingRoundTrips (subName : string) (w : World) : nat :=
  countIf (fun f => String.eqb (sfSubName f) subName) (awaiting w).

(** Sum of a per-step indicator along an execution. *)
Fixpoint along (ind : Event -> World -> bool) (evs : list Event) (w : World) : nat :=
  match evs with
  | [] => 0
  | e :: evs' => (if ind e w then 1 else 0) + along ind evs' (step e w)
  end.

(** Whether a property of (event, world before) holds at every step. *)
Fixpoint always (ok : Event -> World -> bool) (evs : list Event) (w : World) : bool :=
  match evs with
  | [] => true
  | e :: evs' => ok e w && always ok evs' (step e w)
  end.

(** The step takes the listeners of the name from zero to one / one to zero. *)
Definition zeroToOne (subName : string) (e : Event) (w : World) : bool :=
  (listeners subName w =? 0) && (listeners subName (step e w) =? 1).

Definition oneToZero (subName : string) (e : Event) (w : World) : bool :=
  (listeners subName w =? 1) && (listeners subName (step e w) =? 0).

(** The step resumes a [subscribe] activation of the name that attaches
    nothing: the broker rejected, or no listener is left. *)
Definition resumesWithoutAttach (subName : string) (e : Event) (w : World) : bool :=
  match e with
  | ERoundTrip id reply =>
      match takeFrame id (awaiting w) with
      | Some (f, _) =>
          String.eqb (sfSubName f) subName &&
          match getSubscription (sfTopicName f) (sfSubName f) reply with
          | Rejected _ => true
          | Fulfilled _ => listeners subName w =? 0
          end
      | None => false
      end
  | _ => false
  end.

(** The step takes the listeners of the name from one to zero while no
    handler was attached. *)
Definition oneToZeroUnattached (subName : string) (e : Event) (w : World) : bool :=
  oneToZero subName e w && negb (attached subName w).

(** A [subscribe] for the name is issued while no listener is registered
    under it and a round trip started for an earlier entry is still pending. *)
Definition resubscribesWhileOrphaned (subName : string) (e : Event) (w : World) : bool :=
  match e with
  | ESubscribe topicName _ options =>
      String.eqb (topic2SubName (engine w) topicName options) subName &&
      (listeners subName w =? 0) && (0 <? pendingRoundTrips subName w)
  | _ => false
  end.

Definition noOrphanResubscribe (subName : string) (evs : list Event) (w : World) : bool :=
  always (fun e w => negb (resubscribesWhileOrphaned subName e w)) evs w.

(** ** Examples on the mocked client of the tests *)

Definition cb (tag : nat) : Callback := UserCallback tag (fun _ => None).

Definition engine0 : GooglePubSub :=
  newGooglePubSub defaultTopic2SubName defaultCommonMessageHandler.

Definition world0 : World := newWorld engine0.

Definition posts : string := "Posts-subscription".

(** ** Closed forms of what the segments store, and invariants *)

(** ** What each segment changes *)
(** The entry [subscribe] stores under the derived name. *)
Definition subscribedEntry (subName : string) (id : nat) (w : World) : GoogleSubAndClientIds :=
  {| sub := sub (entryOrEmpty (engine w) subName);
     messageHandler := messageHandler (entryOrEmpty (engine w) subName);
     errorHandler := errorHandler (entryOrEmpty (engine w) subName);
     ids := Some (listenerIds subName w ++ [id]) |}.

(** The list [unsubscribe] stores when other ids remain. *)
Definition withoutId (subId : nat) (l : list nat) : list nat :=
  match indexOf subId l with
  | None => l
  | Some index => take index l ++ drop (index + 1) l
  end.

Definition shrunkEntry (subName : string) (subId : nat) (l : list nat) (w : World)
    : GoogleSubAndClientIds :=
  {| sub := sub (entryOrEmpty (engine w) subName);
     messageHandler := messageHandler (entryOrEmpty (engine w) subName);
     errorHandler := errorHandler (entryOrEmpty (engine w) subName);
     ids := Some (withoutId subId l) |}.

Definition detachEffects (e : GoogleSubAndClientIds) : list Effect :=
  match sub e with
  | Some s => [RemoveListener s MessageEvent (messageHandler e);
               RemoveListener s ErrorEvent (errorHandler e)]
  | None => []
  end.

Inductive unsubscribeCase (subId : nat) (w : World) : World * option Error -> Prop :=
  | unsubscribe_throws :
      (forall m c, clientId2GoogleSubNameAndClientCallback (engine w) !! subId = Some (m, c) ->
                   m = ""%string \/ ids (entryOrEmpty (engine w) m) = None) ->
      unsubscribeCase subId w (w, Some (NoSubscriptionOfIdError subId))
  | unsubscribe_returns m c l w' :
      clientId2GoogleSubNameAndClientCallback (engine w) !! subId = Some (m, c) ->
      m <> ""%string ->
      ids (entryOrEmpty (engine w) m) = Some l ->
      clientId2GoogleSubNameAndClientCallback (engine w') =
        delete subId (clientId2GoogleSubNameAndClientCallback (engine w)) ->
      googleSubName2GoogleSubAndClientIds (engine w') =
        (if length l =? 1 then delete m (googleSubName2GoogleSubAndClientIds (engine w))
         else <[m := shrunkEntry m subId l w]> (googleSubName2GoogleSubAndClientIds (engine w))) ->
      effects w' =
        (if length l =? 1 then effects w ++ detachEffects (entryOrEmpty (engine w) m)
         else effects w) ->
      currentClientId (engine w') = currentClientId (engine w) ->
      topic2SubName (engine w') = topic2SubName (engine w) ->
      commonMessageHandler (engine w') = commonMessageHandler (engine w) ->
      awaiting w' = awaiting w -> handling w' = handling w ->
      subscribed w' = subscribed w -> unhandled w' = unhandled w ->
      unsubscribeCase subId w (w', None).

(** The entry a resumed [subscribe] stores after attaching. *)
Definition attachedEntry (f : SubscribeFrame) (s : Subscription) (w : World)
    : GoogleSubAndClientIds :=
  {| sub := Some s;
     messageHandler := Some (HandleMessage (sfSubName f) (sfId f));
     errorHandler := Some (ErrorHandler (sfId f));
     ids := ids (entryOrEmpty (engine w) (sfSubName f)) |}.

(** Whether a resumed [subscribe] reaches the two [sub.on] calls. *)
Definition attaches (f : SubscribeFrame) (reply : BrokerReply) (w : World)
    : option Subscription :=
  match getSubscription (sfTopicName f) (sfSubName f) reply with
  | Rejected _ => None
  | Fulfilled s => if 0 <? listeners (sfSubName f) w then Some s else None
  end.

(** ** Attach and detach calls of one subscription name *)
(** What holds of a name as long as no [subscribe] for it is issued while an
    orphaned round trip is pending. *)
Record balanced (n : string) (w : World) : Prop := {
  bal_ids : forall e, googleSubName2GoogleSubAndClientIds (engine w) !! n = Some e ->
            exists l, ids e = Some l /\ l <> [];
  bal_pending : pendingRoundTrips n w <= 1;
  bal_excl : attached n w = true -> pendingRoundTrips n w = 0;
  bal_count : attachCalls n w = detachCalls n w + (if attached n w then 1 else 0)
}.

(** An entry that holds a [sub] holds the message handler that
    [getMessageHandler] built for the name it is stored under. *)
Definition handlersNamed (w : World) : Prop :=
  forall m e s, googleSubName2GoogleSubAndClientIds (engine w) !! m = Some e ->
                sub e = Some s -> exists a, messageHandler e = Some (HandleMessage m a).

(** The reading of "attach exactly once per zero-to-one transition, detach
    exactly once per one-to-zero transition, as many attach as detach calls"
    on an execution. *)
Definition oncePerTransition (n : string) (evs : list Event) (w0 : World) : Prop :=
  let w := run evs w0 in
  attachCalls n w = along (zeroToOne n) evs w0 /\
  detachCalls n w = along (oneToZero n) evs w0 /\
  (listeners n w = 0 -> attachCalls n w = detachCalls n w).

(** Subscribe, unsubscribe before the broker answers, then the answer. *)
Definition leftBeforeAnswer : list Event :=
  [ESubscribe "Posts" (cb 0) None; EUnsubscribe 0; ERoundTrip 0 ExistsYes].

(** The same, with a second subscribe issued before the first answer. *)
Definition resubscribedBeforeAnswer : list Event :=
  [ESubscribe "Posts" (cb 0) None; EUnsubscribe 0; ESubscribe "Posts" (cb 1) None;
   ERoundTrip 0 ExistsYes; ERoundTrip 1 ExistsYes; EUnsubscribe 1].

(** Two listeners share the subscription; a message is published in between. *)
Definition twoListeners : list Event :=
  [ESubscribe "Posts" (cb 0) None; ESubscribe "Posts" (cb 1) None;
   ERoundTrip 0 ExistsYes; EUnsubscribe 0;
   EMessage posts {| msgId := 7; data := "test"; attributes := [] |};
   ETransformSettles 0; EUnsubscribe 1].

(** ** Well-formed engines *)

(** The two maps agree, and ids at or above [currentClientId] are unused. *)
Record wellFormed (w : World) : Prop := {
  wf_fresh : forall id, currentClientId (engine w) <= id ->
             clientId2GoogleSubNameAndClientCallback (engine w) !! id = None;
  wf_client : forall id m c,
             clientId2GoogleSubNameAndClientCallback (engine w) !! id = Some (m, c) ->
             exists e l, googleSubName2GoogleSubAndClientIds (engine w) !! m = Some e /\
                         ids e = Some l /\ id ∈ l;
  wf_entry : forall m e,
             googleSubName2GoogleSubAndClientIds (engine w) !! m = Some e ->
             exists l, ids e = Some l /\ l <> [] /\ NoDup l /\
                       forall id, id ∈ l ->
                         exists c, clientId2GoogleSubNameAndClientCallback (engine w) !! id
                                   = Some (m, c)
}.

(** The id was issued and its record is deleted. *)
Definition gone (id : nat) (w : World) : Prop :=
  clientId2GoogleSubNameAndClientCallback (engine w) !! id = None /\
  id < currentClientId (engine w).

(** After the events, the id is unknown to the engine: it was never issued,
    or an earlier [unsubscribe] of it returned. *)
Definition unknownAfter (evs : list Event) (w0 : World) (id : nat) : Prop :=
  currentClientId (engine (run evs w0)) <= id \/
  exists evs1 evs2, evs = evs1 ++ EUnsubscribe id :: evs2 /\
                    snd (unsubscribe id (run evs1 w0)) = None.

(** ** Dispatch of one message *)

Definition isAck (e : Effect) : bool :=
  match e with Ack _ => true | _ => false end.

Definition isDeliver (e : Effect) : bool :=
  match e with Deliver _ _ _ => true | _ => false end.

Definition isConsoleError (e : Effect) : bool :=
  match e with ConsoleError _ => true | _ => false end.

Definition deliveredTo (e : Effect) : option nat :=
  match e with Deliver id _ _ => Some id | _ => None end.

(** The reading of "the error is caught and logged" on the dispatch of a
    message whose transform failed with [e]: [console.error] was called with
    it and no promise rejected unobserved. *)
Definition caughtAndLogged (e : Error) (before after : World) : Prop :=
  ConsoleError e ∈ effects after /\ unhandled after = unhandled before.

(** An engine whose transform rejects every message. *)
Definition rejectingEngine : GooglePubSub :=
  newGooglePubSub defaultTopic2SubName (fun _ => Rejected (UserError 1)).

Definition testMessage : Message := {| msgId := 7; data := "test"; attributes := [] |}.

(** One attached listener, then a message and the end of its transform. *)
Definition oneListenerOneMessage : list Event :=
  [ESubscribe "Posts" (cb 0) None; ERoundTrip 0 ExistsYes;
   EMessage posts testMessage; ETransformSettles 0].

(** Two listeners on one attached subscription, as in 'will subscribe to
    topic only once'. *)
Definition twoAttached : World :=
  run [ESubscribe "Posts" (cb 0) None; ESubscribe "Posts" (cb 1) None;
       ERoundTrip 0 ExistsYes] world0.

(** * The AsyncIterator *)

(** What [next], [return] and [throw] resolve with: [{ value, done }], where
    [None] stands for [undefined]. *)
Record IteratorResult := {
  value : option Value;
  done : bool
}.

(** The constructor's [subNames]: one string or an array of strings. *)
Inductive SubNames :=
  | OneName (subName : string)
  | ManyNames (subNames : list string).

(** The fields of [AsyncIterator].  A [resolve] function of [pullQueue] is
    named by the promise it resolves.  [allSubscribed] is the [Promise.all]
    of the promises returned by [subscribe], each named by the client id of
    its call. *)
Record AsyncIterator := {
  pullQueue : list nat;
  pushQueue : list Value;
  listening : bool;
  eventsArray : list string;
  allSubscribed : list nat;
  options : option Options
}.

(** A callback chained on [allSubscribed] by one of the methods and not run
    yet, with the promise that [.then] returned. *)
Inductive Reaction :=
  (** [() => this.listening ? this.pullValue() : this.return()] *)
  | ThenNext (p : nat)
  (** [subs => { this.emptyQueue(subs); return { value: undefined, done: true } }] *)
  | ThenReturn (p : nat)
  (** [subs => { this.emptyQueue(subs); return Promise.reject(error) }] *)
  | ThenThrow (p : nat) (error : Error)
  (** the callback of [pushValue(event)]; nobody holds its promise *)
  | ThenPushValue (event : Value).

(** One iterator with the engine it was given.  The callbacks chained on
    [allSubscribed] run one by one in the order they were chained, whether
    the promise was settled before or after the call that chained them;
    [reactions] holds those that have not run, oldest first. *)
Record Session := {
  pubsub : World;
  self : nat;
  iterator : AsyncIterator;
  reactions : list Reaction;
  (** promises handed out by [next], [return] and [throw] so far *)
  promises : nat;
  (** the settled ones, oldest first *)
  settled : list (nat * Result IteratorResult);
  (** rejections of the promises of [pushValue] *)
  unobserved : list Error
}.

Definition set_pullQueue (q : list nat) (it : AsyncIterator) : AsyncIterator :=
  {| pullQueue := q; pushQueue := pushQueue it; listening := listening it;
     eventsArray := eventsArray it; allSubscribed := allSubscribed it;
     options := options it |}.

Definition set_pushQueue (q : list Value) (it : AsyncIterator) : AsyncIterator :=
  {| pullQueue := pullQueue it; pushQueue := q; listening := listening it;
     eventsArray := eventsArray it; allSubscribed := allSubscribed it;
     options := options it |}.

Definition set_listening (b : bool) (it : AsyncIterator) : AsyncIterator :=
  {| pullQueue := pullQueue it; pushQueue := pushQueue it; listening := b;
     eventsArray := eventsArray it; allSubscribed := allSubscribed it;
     options := options it |}.

(** ** [Promise.all] over the promises of [subscribe] *)

Definition isRejectionOf (ps : list nat) (x : nat * Result nat) : bool :=
  match x with
  | (p, Rejected _) => bool_decide (p ∈ ps)
  | (_, Fulfilled _) => false
  end.

(** What the promise named [p] was fulfilled with, if it was. *)
Fixpoint fulfilledWith (p : nat) (log : list (nat * Result nat)) : option nat :=
  match log with
  | [] => None
  | (q, Fulfilled v) :: log' => if q =? p then Some v else fulfilledWith p log'
  | (_, Rejected _) :: log' => fulfilledWith p log'
  end.

(** [Promise.all(ps)], given the promises settled so far in the order they
    settled: rejected with the first rejection, fulfilled with every value
    once all are fulfilled, pending ([None]) otherwise. *)
Definition promiseAll (log : list (nat * Result nat)) (ps : list nat)
    : option (Result (list nat)) :=
  match List.find (isRejectionOf ps) log with
  | Some (_, Rejected e) => Some (Rejected e)
  | _ => Fulfilled <$> mapM (fun p => fulfilledWith p log) ps
  end.

(** ** The methods *)

(** [subscribeAll]: one [subscribe] per event name.  The constructor calls it
    before it assigns [this.options], so [subscribe] gets [undefined]. *)
Fixpoint subscribeAll (self : nat) (eventsArray : list string) (w : World)
    : World * list nat :=
  match eventsArray with
  | [] => (w, [])
  | eventName :: rest =>
      let '(w, p) := subscribe eventName (PushValueOf self) None w in
      let '(w, ps) := subscribeAll self rest w in
      (w, p :: ps)
  end.

(** [new AsyncIterator(pubSubEngine, subNames, options)] *)
Definition newAsyncIterator (self : nat) (pubSubEngine : World) (subNames : SubNames)
    (options : option Options) : Session :=
  let eventsArray := match subNames with
                     | OneName s => [s]
                     | ManyNames l => l
                     end in
  let '(w, ps) := subscribeAll self eventsArray pubSubEngine in
  {| pubsub := w; self := self;
     iterator := {| pullQueue := []; pushQueue := []; listening := true;
                    eventsArray := eventsArray; allSubscribed := ps;
                    options := options |};
     reactions := []; promises := 0; settled := []; unobserved := [] |}.

(** The body of [pullValue], for the promise [p] it creates. *)
Definition pullValue (p : nat) (it : AsyncIterator)
    : AsyncIterator * list (nat * Result IteratorResult) :=
  match pushQueue it with
  | res :: rest =>
      (set_pushQueue rest it, [(p, Fulfilled {| value := Some res; done := false |})])
  | [] => (set_pullQueue (pullQueue it ++ [p]) it, [])
  end.

(** The callback of [pushValue(event)]. *)
Definition pushValueThen (event : Value) (it : AsyncIterator)
    : AsyncIterator * list (nat * Result IteratorResult) :=
  match pullQueue it with
  | resolve :: rest =>
      (set_pullQueue rest it, [(resolve, Fulfilled {| value := Some event; done := false |})])
  | [] => (set_pushQueue (pushQueue it ++ [event]) it, [])
  end.

(** [unsubscribeAll]: the loop stops at the first [unsubscribe] that throws. *)
Fixpoint unsubscribeAll (subscriptionIds : list nat) (w : World) : World * option Error :=
  match subscriptionIds with
  | [] => (w, None)
  | subscriptionId :: rest =>
      match unsubscribe subscriptionId w with
      | (w, Some e) => (w, Some e)
      | (w, None) => unsubscribeAll rest w
      end
  end.

(** [emptyQueue(subscriptionIds)]: the world and iterator after, the promises
    it resolved, and what it threw. *)
Definition emptyQueue (subscriptionIds : list nat) (w : World) (it : AsyncIterator)
    : World * AsyncIterator * list (nat * Result IteratorResult) * option Error :=
  if listening it then
    let it := set_listening false it in
    match unsubscribeAll subscriptionIds w with
    | (w, Some e) => (w, it, [], Some e)
    | (w, None) =>
        (w, set_pushQueue [] (set_pullQueue [] it),
         (fun resolve => (resolve, Fulfilled {| value := None; done := true |}))
           <$> pullQueue it,
         None)
    end
  else (w, it, [], None).

(** ** The event loop around one iterator *)

Inductive SessionEvent :=
  (** something happens on the engine side *)
  | SEngine (e : Event)
  (** the methods are called; [pushValue] by anyone, besides the calls the
      engine makes when it delivers to the callback of this iterator *)
  | SNext
  | SReturn
  | SThrow (error : Error)
  | SPushValue (event : Value)
  (** the oldest chained callback has its turn *)
  | SReact.

(** The calls of [pushValue] made by the deliveries among new effects. *)
Definition pushesOf (self : nat) (es : list Effect) : list Reaction :=
  omap (fun e => match e with
                 | Deliver _ (PushValueOf i) res =>
                     if i =? self then Some (ThenPushValue res) else None
                 | _ => None
                 end) es.

Definition chain (r : Reaction) (s : Session) : Session :=
  {| pubsub := pubsub s; self := self s; iterator := iterator s;
     reactions := reactions s ++ [r]; promises := promises s;
     settled := settled s; unobserved := unobserved s |}.

(** A method that returns [this.allSubscribed.then(...)]: the callback is
    chained and a new promise handed out. *)
Definition chainNew (r : nat -> Reaction) (s : Session) : Session :=
  {| pubsub := pubsub s; self := self s; iterator := iterator s;
     reactions := reactions s ++ [r (promises s)]; promises := S (promises s);
     settled := settled s; unobserved := unobserved s |}.

(** The turn of reaction [r], with [rest] the reactions after it. *)
Definition react (r : Reaction) (rest : list Reaction) (s : Session) : Session :=
  match promiseAll (subscribed (pubsub s)) (allSubscribed (iterator s)) with
  | None => s
  | Some (Rejected e) =>
      (* [.then(f)] of a rejected promise: [f] is not called *)
      match r with
      | ThenNext p | ThenReturn p | ThenThrow p _ =>
          {| pubsub := pubsub s; self := self s; iterator := iterator s;
             reactions := rest; promises := promises s;
             settled := settled s ++ [(p, Rejected e)]; unobserved := unobserved s |}
      | ThenPushValue _ =>
          {| pubsub := pubsub s; self := self s; iterator := iterator s;
             reactions := rest; promises := promises s;
             settled := settled s; unobserved := unobserved s ++ [e] |}
      end
  | Some (Fulfilled subs) =>
      match r with
      | ThenNext p =>
          if listening (iterator s) then
            let '(it, res) := pullValue p (iterator s) in
            {| pubsub := pubsub s; self := self s; iterator := it;
               reactions := rest; promises := promises s;
               settled := settled s ++ res; unobserved := unobserved s |}
          else
            (* [this.return()] chains a callback; [p] follows its promise *)
            {| pubsub := pubsub s; self := self s; iterator := iterator s;
               reactions := rest ++ [ThenReturn p]; promises := promises s;
               settled := settled s; unobserved := unobserved s |}
      | ThenReturn p =>
          let '(w, it, res, thrown) := emptyQueue subs (pubsub s) (iterator s) in
          {| pubsub := w; self := self s; iterator := it;
             reactions := rest; promises := promises s;
             settled := settled s ++ res ++
                        [(p, match thrown with
                             | Some e => Rejected e
                             | None => Fulfilled {| value := None; done := true |}
                             end)];
             unobserved := unobserved s |}
      | ThenThrow p error =>
          let '(w, it, res, thrown) := emptyQueue subs (pubsub s) (iterator s) in
          {| pubsub := w; self := self s; iterator := it;
             reactions := rest; promises := promises s;
             settled := settled s ++ res ++
                        [(p, Rejected match thrown with
                                      | Some e => e
                                      | None => error
                                      end)];
             unobserved := unobserved s |}
      | ThenPushValue event =>
          let '(it, res) := pushValueThen event (iterator s) in
          {| pubsub := pubsub s; self := self s; iterator := it;
             reactions := rest; promises := promises s;
             settled := settled s ++ res; unobserved := unobserved s |}
      end
  end.

Definition sessionStep (ev : SessionEvent) (s : Session) : Session :=
  match ev with
  | SEngine e =>
      let w := step e (pubsub s) in
      {| pubsub := w; self := self s; iterator := iterator s;
         reactions := reactions s ++
                      pushesOf (self s) (drop (length (effects (pubsub s))) (effects w));
         promises := promises s; settled := settled s; unobserved := unobserved s |}
  | SNext => chainNew ThenNext s
  | SReturn => chainNew ThenReturn s
  | SThrow error => chainNew (fun p => ThenThrow p error) s
  | SPushValue event => chain (ThenPushValue event) s
  | SReact =>
      match reactions s with
      | [] => s
      | r :: rest => react r rest s
      end
  end.

Definition sessionRun (evs : list SessionEvent) (s : Session) : Session :=
  foldl (fun s ev => sessionStep ev s) s evs.

(** ** Observations on a session *)



(** The id has a record under a name that [unsubscribe] accepts. *)
Definition registered (w : World) (id : nat) : Prop :=
  exists m c, clientId2GoogleSubNameAndClientCallback (engine w) !! id = Some (m, c) /\
              m <> ""%string.

(** The terminal result [{ value: undefined, done: true }]. *)
Definition doneResult : IteratorResult := {| value := None; done := true |}.


(** The engine-side events among session events. *)
Definition engineEvents (evs : list SessionEvent) : list Event :=
  omap (fun ev => match ev with SEngine e => Some e | _ => None end) evs.

(** Every chained callback present gets its turn. *)
Definition drain (s : Session) : Session :=
  sessionRun (replicate (length (reactions s)) SReact) s.


(** ** Example sessions *)

(** An iterator over "Posts" whose registration completed. *)
Definition openSession : Session :=
  sessionRun [SEngine (ERoundTrip 0 ExistsYes)]
    (newAsyncIterator 9 world0 (OneName "Posts") None).


(** An iterator over two topics; the broker rejects the first registration. *)
Definition rejectedSession : Session :=
  sessionRun [SEngine (ERoundTrip 0 (ExistsRejects (BrokerError 3)));
              SEngine (ERoundTrip 1 ExistsYes)]
    (newAsyncIterator 9 world0 (ManyNames ["t1"; "t2"]) None).

(** The registration of the session is rejected with [e]. *)
Definition registrationRejected (s : Session) (e : Error) : Prop :=
  promiseAll (subscribed (pubsub s)) (allSubscribed (iterator s)) = Some (Rejected e).

(** What the chained callbacks settle to when the registration is rejected
    with [e]: every promise handed out is rejected with [e]. *)
Definition rejections (e : Error) (rs : list Reaction)
    : list (nat * Result IteratorResult) :=
  omap (fun r => match r with
                 | ThenNext p | ThenReturn p | ThenThrow p _ => Some (p, Rejected e)
                 | ThenPushValue _ => None
                 end) rs.

(** ** The scenarios of the test suite, on the mocked client *)

(** One subscriber that leaves, as in 'can unsubscribe from specific topic'. *)
Definition subscribedThenLeft : World :=
  run [ESubscribe "Posts" (cb 0) None; ERoundTrip 0 ExistsYes; EUnsubscribe 0] world0.

(** * Further properties of the engine and of the iterator *)

Definition isSubscribeEvent (e : Event) : bool :=
  match e with ESubscribe _ _ _ => true | _ => false end.

(** An entry that holds a [sub] holds the two handlers of one activation of
    [subscribe], and both [sub.on] calls of that activation were made on
    that very [sub]. *)
Definition handlersAttached (w : World) : Prop :=
  forall m e s,
    googleSubName2GoogleSubAndClientIds (engine w) !! m = Some e ->
    sub e = Some s ->
    exists a, messageHandler e = Some (HandleMessage m a) /\
              errorHandler e = Some (ErrorHandler a) /\
              On s MessageEvent (HandleMessage m a) ∈ effects w /\
              On s ErrorEvent (ErrorHandler a) ∈ effects w.

(** The name has listeners, no [sub], and no round trip pending for it: what
    a rejected [getSubscription] leaves behind. *)
Definition unattachedAndIdle (subName : string) (w : World) : bool :=
  (0 <? listeners subName w) && negb (attached subName w) &&
  (pendingRoundTrips subName w =? 0).

(** The step leaves at least one listener under the name. *)
Definition keepsListener (subName : string) (e : Event) (w : World) : bool :=
  0 <? listeners subName (step e w).

(** A listener of "Posts" whose registration the broker rejected. *)
Definition rejectedFirstListener : World :=
  run [ESubscribe "Posts" (cb 0) None; ERoundTrip 0 (ExistsRejects (BrokerError 3))] world0.

(** The subscription name an event is about, if any. *)
Definition nameOf (e : Event) (w : World) : option string :=
  match e with
  | ESubscribe topicName _ options => Some (topic2SubName (engine w) topicName options)
  | EUnsubscribe subId => fst <$> clientId2GoogleSubNameAndClientCallback (engine w) !! subId
  | ERoundTrip id _ => (fun x => sfSubName (fst x)) <$> takeFrame id (awaiting w)
  | EMessage _ _ | ETransformSettles _ => None
  end.

(** A callback that throws on every value. *)
Definition throwingCallback (tag : nat) (e : Error) : Callback :=
  UserCallback tag (fun _ => Some e).

(** Three listeners of "Posts"; the callback of the second one throws. *)
Definition secondThrows : World :=
  run [ESubscribe "Posts" (cb 0) None;
       ESubscribe "Posts" (throwingCallback 1 (UserError 2)) None;
       ESubscribe "Posts" (cb 2) None; ERoundTrip 0 ExistsYes] world0.

(** Every suspended [subscribe] was started by a call made so far. *)
Definition framesIssued (w : World) : Prop :=
  Forall (fun f => sfId f < currentClientId (engine w)) (awaiting w).

(** The event names of the constructor's [subNames]. *)
Definition namesOf (subNames : SubNames) : list string :=
  match subNames with
  | OneName s => [s]
  | ManyNames l => l
  end.

(** An open session with a pending [next()] whose listener was unsubscribed
    behind its back. *)
Definition orphanedSession : Session :=
  sessionRun [SNext; SReact; SEngine (EUnsubscribe 0)] openSession.

(** ** Pulls and pushes on an open session *)

(** A consumer's [next()] or a delivery's [pushValue(v)], each followed by
    the turn of its callback. *)
Inductive Op :=
  | Pull
  | Push (v : Value).

Definition opEvents (ops : list Op) : list SessionEvent :=
  flat_map (fun op => [match op with Pull => SNext | Push v => SPushValue v end; SReact]) ops.

Definition isPull (op : Op) : bool :=
  match op with Pull => true | Push _ => false end.

(** The number of pulls, and the values pushed, in order. *)
Definition pulls (ops : list Op) : nat := countIf isPull ops.

Definition pushed (ops : list Op) : list Value :=
  omap (fun op => match op with Push v => Some v | Pull => None end) ops.

(** The k-th pull paired with the k-th pushed value, for as many as both
    exist; [p0] is the promise of the first pull. *)
Definition yields (p0 : nat) (ops : list Op) : list (nat * Result IteratorResult) :=
  zip_with (fun p v => (p, Fulfilled {| value := Some v; done := false |}))
    (seq p0 (pulls ops)) (pushed ops).

(** A consumer waits on an iterator over one topic; the broker answers the
    registration, then delivers a message, whose transform completes. *)
Definition deliveryScenario (subName : string) (reply : BrokerReply) (m : Message)
    : list SessionEvent :=
  [SEngine (ERoundTrip 0 reply); SNext; SReact;
   SEngine (EMessage subName m); SEngine (ETransformSettles 0); SReact].

(** ** Readings of the claims on dispatch and on [return()] *)

(** The ids whose callback was called since [before], in call order. *)
Definition deliveredSince (before after : World) : list nat :=
  omap deliveredTo (drop (length (effects before)) (effects after)).

(** The reading of "each of the N delivery callbacks registered in the entry
    at the time the transform completes is invoked exactly once, in
    registration order": the ids called since [before], the world in which
    the transform completes, are the listener list of the name. *)
Definition reachesEveryListener (n : string) (before after : World) : Prop :=
  deliveredSince before after = listenerIds n before.

(** The three listeners of [secondThrows], a message received, its transform
    not yet complete. *)
Definition secondThrowsAwaiting : World :=
  step (EMessage posts testMessage) secondThrows.

(** An open session with one pending [next()]. *)
Definition waitingSession : Session :=
  sessionRun [SNext; SReact] openSession.

(** An open session with one pending [next()], on an engine whose naming
    function answers the empty name. *)
Definition emptyNameSession : Session :=
  sessionRun [SEngine (ERoundTrip 0 ExistsYes); SNext; SReact]
    (newAsyncIterator 9
       (newWorld (newGooglePubSub (fun _ _ => ""%string) defaultCommonMessageHandler))
       (OneName "Posts") None).

(** The reading of "the first [return()] marks the session closed,
    deregisters every Listener Id the session holds, resolves every
    still-pending pull with [{ value: undefined, done: true }], and empties
    both queues", for the ids [subs] of the session. *)
Definition returnCloses (subs : list nat) (before after : Session) : Prop :=
  listening (iterator after) = false /\
  (forall id, id ∈ subs ->
     clientId2GoogleSubNameAndClientCallback (engine (pubsub after)) !! id = None) /\
  (forall p, p ∈ pullQueue (iterator before) ->
     (p, Fulfilled doneResult) ∈ settled after) /\
  pullQueue (iterator after) = [] /\ pushQueue (iterator after) = [].

(** ** Calls made while the registration is pending *)

(** The callbacks that the method calls among [evs] chain on
    [allSubscribed], in call order; [p] is the next promise to hand out. *)
Fixpoint queuedBy (p : nat) (evs : list SessionEvent) : list Reaction :=
  match evs with
  | [] => []
  | SNext :: evs => ThenNext p :: queuedBy (S p) evs
  | SReturn :: evs => ThenReturn p :: queuedBy (S p) evs
  | SThrow error :: evs => ThenThrow p error :: queuedBy (S p) evs
  | SPushValue event :: evs => ThenPushValue event :: queuedBy p evs
  | SEngine _ :: evs | SReact :: evs => queuedBy p evs
  end.

(** The derived names of the constructor's [subscribe] calls. *)
Definition derivedNames (w : World) (subNames : SubNames) : list string :=
  (fun t => topic2SubName (engine w) t None) <$> namesOf subNames.
(** * Proofs *)
Section Counting.
Context {A : Type} (p : A -> bool).

Lemma countIf_app (l l' : list A) : countIf p (l ++ l') = countIf p l + countIf p l'.
Proof. unfold countIf. by rewrite List.filter_app, length_app. Qed.

Lemma countIf_nil : countIf p [] = 0.
Proof. done. Qed.

Lemma countIf_cons (x : A) (l : list A) :
    countIf p (x :: l) = (if p x then 1 else 0) + countIf p l.
Proof. unfold countIf. simpl. by destruct (p x). Qed.

Lemma countIf_none (l : list A) : Forall (fun x => p x = false) l -> countIf p l = 0.
Proof.
  unfold countIf. induction 1 as [|x l Hx _ IH]; simpl; [done|]. by rewrite Hx.
Qed.
End Counting.

Lemma takeFrame_count (n : string) (id : nat) (l r : list SubscribeFrame) (f : SubscribeFrame) :
  takeFrame id l = Some (f, r) ->
  countIf (fun f => String.eqb (sfSubName f) n) l =
  (if String.eqb (sfSubName f) n then 1 else 0) + countIf (fun f => String.eqb (sfSubName f) n) r.
Proof.
  revert r. induction l as [|x l IH]; intros r H; simpl in H; [done|].
  destruct (sfId x =? id).
  - inversion H; subst. unfold countIf. simpl. by destruct (String.eqb (sfSubName f) n).
  - destruct (takeFrame id l) as [[f' r']|]; [|done]. inversion H; subst.
    specialize (IH r' eq_refl). unfold countIf in *. simpl.
    destruct (String.eqb (sfSubName x) n); simpl; lia.
Qed.

Lemma takeFrame_id (id : nat) (l r : list SubscribeFrame) (f : SubscribeFrame) :
  takeFrame id l = Some (f, r) -> sfId f = id.
Proof.
  revert r. induction l as [|x l IH]; intros r H; simpl in H; [done|].
  destruct (sfId x =? id) eqn:E.
  - inversion H; subst. by apply Nat.eqb_eq.
  - destruct (takeFrame id l) as [[f' r']|]; [|done]. inversion H; subst. eauto.
Qed.

(** [forEachId] only delivers. *)
Lemma forEachId_frame (res : Value) (l : list nat) (w : World) :
  let w' := fst (forEachId res l w) in
  engine w' = engine w /\ awaiting w' = awaiting w /\ handling w' = handling w /\
  subscribed w' = subscribed w /\ unhandled w' = unhandled w /\
  exists es, effects w' = effects w ++ es /\
             Forall (fun e => exists id c, e = Deliver id c res) es.
Proof.
  revert w. induction l as [|id l IH]; intros w; simpl.
  - repeat split; try done. exists []. by rewrite app_nil_r.
  - destruct (clientId2GoogleSubNameAndClientCallback (engine w) !! id) as [[n c]|] eqn:E.
    + destruct (cbRun c res).
      * simpl. repeat split; try done. exists [Deliver id c res]. split; [done|].
        constructor; eauto.
      * specialize (IH (emit [Deliver id c res] w)). simpl in IH.
        destruct IH as (He & Ha & Hh & Hs & Hu & es & Hes & HF).
        repeat split; try done. exists (Deliver id c res :: es).
        split; [by rewrite Hes, <- app_assoc|]. constructor; eauto.
    + simpl. repeat split; try done. exists []. by rewrite app_nil_r.
Qed.

Lemma subscribe_spec (t : string) (c : Callback) (o : option Options) (w : World) :
  let m := topic2SubName (engine w) t o in
  let id := currentClientId (engine w) in
  let w' := fst (subscribe t c o w) in
  snd (subscribe t c o w) = id /\
  googleSubName2GoogleSubAndClientIds (engine w') =
    <[m := subscribedEntry m id w]> (googleSubName2GoogleSubAndClientIds (engine w)) /\
  clientId2GoogleSubNameAndClientCallback (engine w') =
    <[id := (m, c)]> (clientId2GoogleSubNameAndClientCallback (engine w)) /\
  currentClientId (engine w') = S id /\
  topic2SubName (engine w') = topic2SubName (engine w) /\
  commonMessageHandler (engine w') = commonMessageHandler (engine w) /\
  effects w' = effects w /\ handling w' = handling w /\ unhandled w' = unhandled w /\
  awaiting w' = (if 0 <? listeners m w then awaiting w
                 else awaiting w ++ [{| sfTopicName := t; sfSubName := m; sfId := id |}]) /\
  subscribed w' = (if 0 <? listeners m w then subscribed w ++ [(id, Fulfilled id)]
                   else subscribed w).
Proof.
  unfold subscribe, listeners, listenerIds, subscribedEntry, entryOrEmpty. simpl.
  destruct (0 <? _); simpl; done.
Qed.

Lemma unsubscribe_spec (subId : nat) (w : World) : unsubscribeCase subId w (unsubscribe subId w).
Proof.
  unfold unsubscribe.
  destruct (clientId2GoogleSubNameAndClientCallback (engine w) !! subId) as [[m c]|] eqn:E; simpl.
  - destruct (String.eqb m "") eqn:Em.
    { apply String.eqb_eq in Em. constructor. intros ? ? ?; simplify_eq. by left. }
    apply String.eqb_neq in Em.
    destruct (ids (entryOrEmpty (engine w) m)) as [l|] eqn:El.
    + eapply (unsubscribe_returns _ _ m c l); try done;
        unfold detachEffects, shrunkEntry, withoutId;
        destruct (length l =? 1); simpl; try done;
        destruct (sub (entryOrEmpty (engine w) m)); simpl; rewrite ?app_nil_r; done.
    + constructor. intros ? ? ?; simplify_eq. by right.
  - constructor. intros ? ? ?. congruence.
Qed.

Lemma subscribeResume_spec (f : SubscribeFrame) (reply : BrokerReply) (w : World) :
  let w' := subscribeResume f reply w in
  googleSubName2GoogleSubAndClientIds (engine w') =
    match attaches f reply w with
    | Some s => <[sfSubName f := attachedEntry f s w]> (googleSubName2GoogleSubAndClientIds (engine w))
    | None => googleSubName2GoogleSubAndClientIds (engine w)
    end /\
  effects w' =
    match attaches f reply w with
    | Some s => effects w ++ [On s MessageEvent (HandleMessage (sfSubName f) (sfId f));
                              On s ErrorEvent (ErrorHandler (sfId f))]
    | None => effects w
    end /\
  clientId2GoogleSubNameAndClientCallback (engine w') =
    clientId2GoogleSubNameAndClientCallback (engine w) /\
  currentClientId (engine w') = currentClientId (engine w) /\
  topic2SubName (engine w') = topic2SubName (engine w) /\
  commonMessageHandler (engine w') = commonMessageHandler (engine w) /\
  awaiting w' = awaiting w /\ handling w' = handling w /\ unhandled w' = unhandled w /\
  exists r, subscribed w' = subscribed w ++ [(sfId f, r)].
Proof.
  unfold subscribeResume, attaches, listeners, listenerIds, attachedEntry.
  destruct (getSubscription _ _ _) as [s|e]; simpl; [|repeat split; eauto].
  destruct (ids (entryOrEmpty (engine w) (sfSubName f))) as [l|] eqn:El; simpl;
    [|repeat split; eauto].
  destruct l; simpl; repeat split; eauto.
Qed.

Lemma handleMessage_spec (n : string) (m : Message) (w : World) :
  let w' := handleMessage n m w in
  engine w' = engine w /\ awaiting w' = awaiting w /\
  effects w' = effects w ++ [Ack m; Transform m] /\
  handling w' = handling w ++ [{| hfSubName := n; hfAwaited := commonMessageHandler (engine w) m |}] /\
  subscribed w' = subscribed w /\ unhandled w' = unhandled w.
Proof. unfold handleMessage. simpl. by rewrite <- app_assoc. Qed.

Lemma handleMessageResume_frame (f : HandleFrame) (w : World) :
  let w' := handleMessageResume f w in
  engine w' = engine w /\ awaiting w' = awaiting w /\ handling w' = handling w /\
  subscribed w' = subscribed w /\
  exists es, effects w' = effects w ++ es /\
             Forall (fun e => exists id c res, e = Deliver id c res) es.
Proof.
  unfold handleMessageResume. destruct (hfAwaited f) as [res|e]; simpl.
  - pose proof (forEachId_frame res
      (default [] (ids (entryOrEmpty (engine w) (hfSubName f)))) w) as H.
    destruct (forEachId _ _ _) as [w' [e|]]; simpl in *;
      destruct H as (He & Ha & Hh & Hs & Hu & es & Hes & HF);
      repeat split; try done; exists es; (split; [done|]);
      (eapply Forall_impl; [exact HF|]); intros ? (? & ? & ->); eauto.
  - repeat split; try done. exists []. by rewrite app_nil_r.
Qed.

Ltac unfold_obs :=
  unfold attached, attachCalls, detachCalls, pendingRoundTrips, listeners, listenerIds,
    entryOrEmpty in *.

Lemma balanced_new (n : string) (g : GooglePubSub) :
  googleSubName2GoogleSubAndClientIds g = ∅ -> balanced n (newWorld g).
Proof.
  intros Hg. split; unfold_obs; simpl; rewrite ?Hg; try done.
  unfold countIf. simpl. lia.
Qed.

Lemma subscribe_balanced (n t : string) (c : Callback) (o : option Options) (w : World) :
  balanced n w -> resubscribesWhileOrphaned n (ESubscribe t c o) w = false ->
  balanced n (fst (subscribe t c o w)).
Proof.
  intros [Hids Hp Hx Hc] Hok. simpl in Hok.
  destruct (subscribe_spec t c o w)
    as (_ & Hs & _ & _ & _ & _ & He & _ & _ & Ha & _).
  set (m := topic2SubName (engine w) t o) in *.
  set (w' := fst (subscribe t c o w)) in *. clearbody w'.
  unfold subscribedEntry in Hs. unfold_obs.
  destruct (decide (m = n)) as [->|Hne].
  - rewrite String.eqb_refl in Hok. simpl in Hok.
    destruct (googleSubName2GoogleSubAndClientIds (engine w) !! n) as [e|] eqn:E; simpl in *.
    + destruct (Hids e eq_refl) as (l & Hl & Hnil). rewrite Hl in *. simpl in *.
      destruct l as [|x l]; [done|]. simpl in *.
      split; unfold_obs; rewrite ?Hs, ?He, ?Ha, ?lookup_insert_eq; simpl; try done.
      intros e' [= <-]. simpl. eexists; split; done.
    + destruct (0 <? countIf (fun f => String.eqb (sfSubName f) n) (awaiting w)) eqn:E0;
        [done|]. apply Nat.ltb_ge in E0.
      split; unfold_obs; rewrite ?Hs, ?He, ?Ha, ?lookup_insert_eq; simpl; try done.
      * intros e' [= <-]. simpl. eexists; split; done.
      * rewrite countIf_app. rewrite !countIf_cons, !countIf_nil. simpl. rewrite String.eqb_refl. simpl. lia.
  - clear Hok.
    assert (countIf (fun f => String.eqb (sfSubName f) n) (awaiting w')
            = countIf (fun f => String.eqb (sfSubName f) n) (awaiting w)) as Hcnt.
    { rewrite Ha. destruct (0 <? _); [done|]. rewrite countIf_app. rewrite !countIf_cons, !countIf_nil. simpl.
      apply String.eqb_neq in Hne. rewrite Hne. simpl. lia. }
    split; unfold_obs; rewrite ?Hcnt, ?Hs, ?He, ?lookup_insert_ne by done; done.
Qed.

Lemma indexOf_lt (subId : nat) (l : list nat) (i : nat) :
  indexOf subId l = Some i -> i < length l.
Proof.
  revert i. induction l as [|x l IH]; intros i H; simpl in *; [done|].
  destruct (x =? subId); [inversion H; lia|].
  destruct (indexOf subId l) as [j|]; [|done]. inversion H. specialize (IH j eq_refl). lia.
Qed.

Lemma length_withoutId (subId : nat) (l : list nat) :
  length l - 1 <= length (withoutId subId l).
Proof.
  unfold withoutId. destruct (indexOf subId l) as [i|] eqn:E; [|lia].
  apply indexOf_lt in E. rewrite length_app, length_take, length_drop. lia.
Qed.

Lemma step_handlersNamed (e : Event) (w : World) : handlersNamed w -> handlersNamed (step e w).
Proof.
  unfold handlersNamed. intros H. destruct e as [t c o|subId|id reply|n msg|k]; simpl.
  - destruct (subscribe_spec t c o w) as (_ & Hs & _).
    intros m e s. rewrite Hs. unfold subscribedEntry, entryOrEmpty.
    destruct (decide (topic2SubName (engine w) t o = m)) as [<-|Hne].
    + rewrite lookup_insert_eq. intros [= <-]. simpl.
      destruct (googleSubName2GoogleSubAndClientIds (engine w) !! _) eqn:E; [|done].
      simpl. by apply H.
    + rewrite lookup_insert_ne by done. apply H.
  - destruct (unsubscribe_spec subId w) as [|m0 c l w' _ _ _ _ Hs]; [done|]. simpl.
    intros m e s. rewrite Hs. unfold shrunkEntry, entryOrEmpty.
    destruct (length l =? 1).
    + destruct (decide (m0 = m)) as [<-|Hne];
        [by rewrite lookup_delete_eq|rewrite lookup_delete_ne by done; apply H].
    + destruct (decide (m0 = m)) as [<-|Hne].
      * rewrite lookup_insert_eq. intros [= <-]. simpl.
        destruct (googleSubName2GoogleSubAndClientIds (engine w) !! _) eqn:E; [|done].
        simpl. by apply H.
      * rewrite lookup_insert_ne by done. apply H.
  - destruct (takeFrame id (awaiting w)) as [[f r]|]; [|done].
    destruct (subscribeResume_spec f reply (with_awaiting r w)) as (Hs & _).
    intros m e s. rewrite Hs. destruct (attaches _ _ _); [|apply H].
    destruct (decide (sfSubName f = m)) as [<-|Hne].
    + rewrite lookup_insert_eq. intros [= <-]. simpl. eauto.
    + rewrite lookup_insert_ne by done. apply H.
  - exact H.
  - destruct (handling w !! k) as [f|]; [|done].
    destruct (handleMessageResume_frame f (with_handling (delete k (handling w)) w))
      as (Hg & _).
    intros m e s. rewrite Hg. apply H.
Qed.

Lemma unsubscribe_balanced (n : string) (subId : nat) (w : World) :
  handlersNamed w -> balanced n w -> balanced n (fst (unsubscribe subId w)).
Proof.
  intros HN [Hids Hp Hx Hc].
  destruct (unsubscribe_spec subId w) as [|m c l w' _ _ Hl _ Hs He _ _ _ Ha _ _ _];
    [by split|]. simpl.
  unfold shrunkEntry, detachEffects in *. unfold_obs.
  destruct (decide (m = n)) as [->|Hne].
  - destruct (googleSubName2GoogleSubAndClientIds (engine w) !! n) as [e|] eqn:E;
      simpl in *; [|done].
    destruct (Hids e eq_refl) as (l' & Hl' & Hnil). rewrite Hl in Hl'. simplify_eq.
    destruct (length l' =? 1) eqn:E1.
    + split; unfold_obs; rewrite ?Hs, ?He, ?Ha, ?lookup_delete_eq; simpl; try done.
      destruct (sub e) as [s|] eqn:Es.
      * destruct (HN _ e s E Es) as (a & ->).
        rewrite !countIf_app. rewrite !countIf_cons, !countIf_nil. simpl.
        rewrite String.eqb_refl. simpl. lia.
      * rewrite app_nil_r. lia.
    + apply Nat.eqb_neq in E1.
      split; unfold_obs; rewrite ?Hs, ?He, ?Ha, ?lookup_insert_eq; simpl; try done.
      intros e' [= <-]. simpl. eexists; split; [done|].
      pose proof (length_withoutId subId l') as HL.
      destruct l' as [|x [|y l']]; simpl in *; try done; try lia.
      intros Hw. rewrite Hw in HL. simpl in HL. lia.
  - assert (googleSubName2GoogleSubAndClientIds (engine w') !! n =
            googleSubName2GoogleSubAndClientIds (engine w) !! n) as Hsame.
    { rewrite Hs. destruct (length l =? 1);
        [by rewrite lookup_delete_ne|by rewrite lookup_insert_ne]. }
    assert (countIf (isAttach n) (effects w') = countIf (isAttach n) (effects w) /\
            countIf (isDetach n) (effects w') = countIf (isDetach n) (effects w)) as [HA HD].
    { rewrite He. destruct (length l =? 1); [|done].
      destruct (googleSubName2GoogleSubAndClientIds (engine w) !! m) as [e|] eqn:E;
        simpl; [|by rewrite app_nil_r].
      destruct (sub e) as [s|] eqn:Es; [|by rewrite app_nil_r].
      destruct (HN m e s E Es) as (a & ->).
      rewrite !countIf_app. rewrite !countIf_cons, !countIf_nil. simpl.
      apply String.eqb_neq in Hne. rewrite Hne. simpl. lia. }
    split; unfold_obs; rewrite ?Hsame, ?HA, ?HD, ?Ha; done.
Qed.

Lemma roundTrip_balanced (n : string) (id : nat) (reply : BrokerReply) (w : World) :
  balanced n w -> balanced n (step (ERoundTrip id reply) w).
Proof.
  intros [Hids Hp Hx Hc]. simpl.
  destruct (takeFrame id (awaiting w)) as [[f r]|] eqn:Ef; [|by split].
  pose proof (takeFrame_count n _ _ _ _ Ef) as Hcnt.
  destruct (subscribeResume_spec f reply (with_awaiting r w))
    as (Hs & He & _ & _ & _ & _ & Ha & _).
  set (w' := subscribeResume f reply (with_awaiting r w)) in *. clearbody w'.
  unfold attaches, attachedEntry in *. simpl in *. unfold_obs. simpl in *.
  destruct (decide (sfSubName f = n)) as [<-|Hne].
  - rewrite String.eqb_refl in Hcnt.
    assert (countIf (fun f0 => String.eqb (sfSubName f0) (sfSubName f)) r = 0) as Hr by lia.
    destruct (googleSubName2GoogleSubAndClientIds (engine w) !! sfSubName f) as [e|] eqn:E;
      simpl in *.
    + destruct (Hids e eq_refl) as (l & Hl & Hnil). rewrite Hl in *. simpl in *.
      destruct (sub e) as [s0|] eqn:Es0; [specialize (Hx eq_refl); lia|].
      destruct l as [|x l]; [done|]. simpl in *.
      destruct (getSubscription _ _ _) as [s|err].
      * split; unfold_obs; rewrite ?Hs, ?He, ?Ha, ?lookup_insert_eq; simpl; try done.
        -- intros e' [= <-]. simpl. eauto.
        -- lia.
        -- rewrite !countIf_app. rewrite !countIf_cons, !countIf_nil. simpl.
           rewrite String.eqb_refl. simpl. lia.
      * split; unfold_obs; rewrite ?Hs, ?He, ?Ha, ?E; simpl; rewrite ?Es0; try done. lia.
    + assert (match getSubscription (sfTopicName f) (sfSubName f) reply with
              | Fulfilled s => @None Subscription
              | Rejected _ => None
              end = None) as Hnone by (by destruct (getSubscription _ _ _)).
      rewrite Hnone in *.
      split; unfold_obs; rewrite ?Hs, ?He, ?Ha, ?E; simpl; try done. lia.
  - apply String.eqb_neq in Hne as Hne'. rewrite Hne' in Hcnt. simpl in Hcnt.
    assert (googleSubName2GoogleSubAndClientIds (engine w') !! n =
            googleSubName2GoogleSubAndClientIds (engine w) !! n) as Hsame.
    { rewrite Hs. by destruct (match getSubscription _ _ _ with Fulfilled _ => _ | Rejected _ => _ end);
        [rewrite lookup_insert_ne|]. }
    assert (countIf (isAttach n) (effects w') = countIf (isAttach n) (effects w) /\
            countIf (isDetach n) (effects w') = countIf (isDetach n) (effects w)) as [HA HD].
    { rewrite He. destruct (match getSubscription _ _ _ with Fulfilled _ => _ | Rejected _ => _ end);
        [|done].
      rewrite !countIf_app. rewrite !countIf_cons, !countIf_nil. simpl. rewrite Hne'. simpl. lia. }
    split; unfold_obs; rewrite ?Hsame, ?HA, ?HD, ?Ha, <- ?Hcnt; done.
Qed.

Lemma countIf_delivers (p : Effect -> bool) (es : list Effect) :
  (forall id c res, p (Deliver id c res) = false) ->
  Forall (fun e => exists id c res, e = Deliver id c res) es -> countIf p es = 0.
Proof.
  intros Hp HF. apply countIf_none. eapply Forall_impl; [exact HF|].
  intros ? (? & ? & ? & ->). apply Hp.
Qed.

Lemma step_balanced (n : string) (e : Event) (w : World) :
  handlersNamed w -> balanced n w -> resubscribesWhileOrphaned n e w = false ->
  balanced n (step e w).
Proof.
  intros HN HB Hok. destruct e as [t c o|subId|id reply|m msg|k].
  - by apply subscribe_balanced.
  - by apply unsubscribe_balanced.
  - by apply roundTrip_balanced.
  - simpl. destruct (handleMessage_spec m msg w) as (Hg & Ha & He & _).
    destruct HB as [Hids Hp Hx Hc].
    split; unfold_obs; rewrite ?Hg, ?Ha, ?He, ?countIf_app; try done.
    rewrite !countIf_cons, !countIf_nil. simpl. lia.
  - simpl. destruct (handling w !! k) as [f|]; [|done].
    destruct (handleMessageResume_frame f (with_handling (delete k (handling w)) w))
      as (Hg & Ha & _ & _ & es & He & HF).
    destruct HB as [Hids Hp Hx Hc]. simpl in *.
    split; unfold_obs; rewrite ?Hg, ?Ha, ?He, ?countIf_app; try done.
    rewrite !(countIf_delivers _ es) by done. lia.
Qed.


(** ** Transitions of the listener count against attach and detach calls *)

Lemma withoutId_nil (subId : nat) : withoutId subId [] = [].
Proof. done. Qed.

(** Every zero-to-one transition starts one round trip; every resumed round
    trip attaches once or not at all. *)
Lemma step_attach_account (n : string) (e : Event) (w : World) :
  (if zeroToOne n e w then 1 else 0) + attachCalls n w + pendingRoundTrips n w =
  attachCalls n (step e w) + (if resumesWithoutAttach n e w then 1 else 0) +
  pendingRoundTrips n (step e w).
Proof.
  unfold zeroToOne. destruct e as [t c o|subId|id reply|m msg|k]; simpl.
  - destruct (subscribe_spec t c o w)
      as (_ & Hs & _ & _ & _ & _ & He & _ & _ & Ha & _).
    set (m := topic2SubName (engine w) t o) in *.
    set (w' := fst (subscribe t c o w)) in *. clearbody w'.
    unfold subscribedEntry in Hs. unfold_obs. rewrite Hs, He, Ha.
    destruct (decide (m = n)) as [->|Hne].
    + rewrite lookup_insert_eq. simpl. rewrite length_app. simpl.
      destruct (default [] (ids (default emptyObject
                 (googleSubName2GoogleSubAndClientIds (engine w) !! n)))) as [|x l]; simpl.
      * rewrite countIf_app, countIf_cons, countIf_nil. simpl.
        rewrite String.eqb_refl. lia.
      * replace (length l + 1 =? 0) with false by (symmetry; apply Nat.eqb_neq; lia). lia.
    + rewrite lookup_insert_ne by done.
      destruct (length _ =? 0) eqn:E0; simpl.
      * apply Nat.eqb_eq in E0. rewrite E0. simpl.
        destruct (0 <? _); [lia|]. rewrite countIf_app, countIf_cons, countIf_nil. simpl.
        apply String.eqb_neq in Hne. rewrite Hne. lia.
      * destruct (0 <? _); [lia|]. rewrite countIf_app, countIf_cons, countIf_nil. simpl.
        apply String.eqb_neq in Hne. rewrite Hne. lia.
  - destruct (unsubscribe_spec subId w) as [|m c l w' _ _ Hl _ Hs He _ _ _ Ha _ _ _]; simpl.
    { destruct (listeners n w =? 0) eqn:E0; simpl; [|lia].
      apply Nat.eqb_eq in E0. rewrite E0. simpl. lia. }
    assert (countIf (isAttach n) (effects w') = countIf (isAttach n) (effects w)) as HA.
    { rewrite He. destruct (length l =? 1); [|done]. unfold detachEffects.
      destruct (sub _); [|by rewrite app_nil_r].
      rewrite countIf_app, !countIf_cons, countIf_nil. simpl. lia. }
    unfold_obs. rewrite HA, Ha.
    assert ((length (default [] (ids (default emptyObject
               (googleSubName2GoogleSubAndClientIds (engine w) !! n)))) =? 0) &&
            (length (default [] (ids (default emptyObject
               (googleSubName2GoogleSubAndClientIds (engine w') !! n)))) =? 1) = false) as ->;
      [|lia].
    apply andb_false_iff. rewrite Hs.
    destruct (decide (m = n)) as [->|Hne].
    + rewrite Hl. simpl. destruct l as [|x l]; simpl; [|by left]. right.
      rewrite lookup_insert_eq. done.
    + destruct (length l =? 1);
        [rewrite lookup_delete_ne by done|rewrite lookup_insert_ne by done];
        destruct (length _); simpl; auto.
  - destruct (takeFrame id (awaiting w)) as [[f r]|] eqn:Ef.
    2:{ destruct (listeners n w) as [|[|?]]; simpl; lia. }
    pose proof (takeFrame_count n _ _ _ _ Ef) as Hcnt.
    destruct (subscribeResume_spec f reply (with_awaiting r w))
      as (Hs & He & _ & _ & _ & _ & Ha & _).
    set (w' := subscribeResume f reply (with_awaiting r w)) in *. clearbody w'.
    unfold attaches, attachedEntry in *. simpl in *. unfold_obs. simpl in *.
    rewrite Hs, He, Ha, Hcnt.
    destruct (decide (sfSubName f = n)) as [<-|Hne].
    + rewrite String.eqb_refl. simpl.
      destruct (getSubscription _ _ _) as [s|err].
      * destruct (default [] (ids (default emptyObject
                  (googleSubName2GoogleSubAndClientIds (engine w) !! sfSubName f))))
          as [|x l] eqn:El; simpl.
        -- rewrite El. simpl. lia.
        -- rewrite ?lookup_insert_eq; simpl; rewrite ?El; simpl.
           rewrite countIf_app, !countIf_cons, countIf_nil. simpl.
           rewrite String.eqb_refl. lia.
      * destruct (length _) as [|[|?]]; simpl; lia.
    + apply String.eqb_neq in Hne as Hne'. rewrite Hne'. simpl.
      destruct (match getSubscription _ _ _ with Fulfilled _ => _ | Rejected _ => _ end).
      * rewrite lookup_insert_ne by done.
        rewrite countIf_app, !countIf_cons, countIf_nil. simpl. rewrite Hne'.
        destruct (length _) as [|[|?]]; simpl; lia.
      * destruct (length _) as [|[|?]]; simpl; lia.
  - destruct (handleMessage_spec m msg w) as (Hg & Ha & He & _).
    unfold_obs. rewrite Hg, Ha, He, countIf_app, !countIf_cons, countIf_nil. simpl.
    destruct (length _) as [|[|?]]; simpl; lia.
  - destruct (handling w !! k) as [f|].
    2:{ destruct (listeners n w) as [|[|?]]; simpl; lia. }
    destruct (handleMessageResume_frame f (with_handling (delete k (handling w)) w))
      as (Hg & Ha & _ & _ & es & He & HF). simpl in *.
    unfold_obs. rewrite Hg, Ha, He, countIf_app, (countIf_delivers _ es) by done.
    destruct (length _) as [|[|?]]; simpl; lia.
Qed.

(** Every one-to-zero transition detaches once when handlers were attached,
    and not at all otherwise; nothing else detaches. *)
Lemma step_detach_account (n : string) (e : Event) (w : World) :
  handlersNamed w ->
  (if oneToZero n e w then 1 else 0) + detachCalls n w =
  detachCalls n (step e w) + (if oneToZeroUnattached n e w then 1 else 0).
Proof.
  intros HN. unfold oneToZeroUnattached, oneToZero.
  destruct e as [t c o|subId|id reply|m msg|k]; simpl.
  - destruct (subscribe_spec t c o w)
      as (_ & Hs & _ & _ & _ & _ & He & _).
    set (m := topic2SubName (engine w) t o) in *.
    set (w' := fst (subscribe t c o w)) in *. clearbody w'.
    unfold subscribedEntry in Hs. unfold_obs. rewrite Hs, He.
    destruct (decide (m = n)) as [->|Hne].
    + rewrite lookup_insert_eq. simpl. rewrite length_app. simpl.
      replace (length _ + 1 =? 0) with false by (symmetry; apply Nat.eqb_neq; lia).
      rewrite andb_false_r. simpl. lia.
    + rewrite lookup_insert_ne by done.
      destruct (length _) as [|[|?]]; simpl; lia.
  - destruct (unsubscribe_spec subId w) as [|m c l w' _ _ Hl _ Hs He _ _ _ Ha _ _ _]; simpl.
    { destruct (listeners n w) as [|[|?]]; simpl; lia. }
    unfold detachEffects in He. unfold_obs. rewrite Hs, He.
    destruct (decide (m = n)) as [->|Hne].
    + rewrite Hl in *. simpl.
      destruct (length l =? 1) eqn:E1; simpl.
      * rewrite lookup_delete_eq. simpl.
        destruct (googleSubName2GoogleSubAndClientIds (engine w) !! n) as [e|] eqn:E;
          simpl in *; [|done].
        destruct (sub e) as [s|] eqn:Es; simpl.
        -- destruct (HN _ e s E Es) as (a & ->).
           rewrite countIf_app, !countIf_cons, countIf_nil. simpl.
           rewrite String.eqb_refl. lia.
        -- rewrite app_nil_r. lia.
      * lia.
    + assert (countIf (isDetach n)
                (if length l =? 1
                 then effects w ++
                      match sub (default emptyObject
                                   (googleSubName2GoogleSubAndClientIds (engine w) !! m)) with
                      | Some s => [RemoveListener s MessageEvent
                                     (messageHandler (default emptyObject
                                        (googleSubName2GoogleSubAndClientIds (engine w) !! m)));
                                   RemoveListener s ErrorEvent
                                     (errorHandler (default emptyObject
                                        (googleSubName2GoogleSubAndClientIds (engine w) !! m)))]
                      | None => []
                      end
                 else effects w) = countIf (isDetach n) (effects w)) as ->.
      { destruct (length l =? 1); [|done].
        destruct (googleSubName2GoogleSubAndClientIds (engine w) !! m) as [e|] eqn:E;
          simpl; [|by rewrite app_nil_r].
        destruct (sub e) as [s|] eqn:Es; [|by rewrite app_nil_r].
        destruct (HN m e s E Es) as (a & ->).
        rewrite countIf_app, !countIf_cons, countIf_nil. simpl.
        apply String.eqb_neq in Hne. rewrite Hne. lia. }
      destruct (length l =? 1);
        [rewrite lookup_delete_ne by done|rewrite lookup_insert_ne by done];
        destruct (length _) as [|[|?]]; simpl; lia.
  - destruct (takeFrame id (awaiting w)) as [[f r]|] eqn:Ef.
    2:{ destruct (listeners n w) as [|[|?]]; simpl; lia. }
    destruct (subscribeResume_spec f reply (with_awaiting r w))
      as (Hs & He & _).
    set (w' := subscribeResume f reply (with_awaiting r w)) in *. clearbody w'.
    unfold attachedEntry in *. simpl in *. unfold_obs. simpl in *.
    rewrite Hs, He.
    destruct (attaches f reply (with_awaiting r w)) as [s|].
    + rewrite countIf_app, !countIf_cons, countIf_nil. simpl.
      destruct (decide (sfSubName f = n)) as [<-|Hne].
      * rewrite lookup_insert_eq. simpl.
        destruct (length _) as [|[|?]]; simpl; lia.
      * rewrite lookup_insert_ne by done.
        destruct (length _) as [|[|?]]; simpl; lia.
    + destruct (length _) as [|[|?]]; simpl; lia.
  - destruct (handleMessage_spec m msg w) as (Hg & Ha & He & _).
    unfold_obs. rewrite Hg, He, countIf_app, !countIf_cons, countIf_nil. simpl.
    destruct (length _) as [|[|?]]; simpl; lia.
  - destruct (handling w !! k) as [f|].
    2:{ destruct (listeners n w) as [|[|?]]; simpl; lia. }
    destruct (handleMessageResume_frame f (with_handling (delete k (handling w)) w))
      as (Hg & Ha & _ & _ & es & He & HF). simpl in *.
    unfold_obs. rewrite Hg, He, countIf_app, (countIf_delivers _ es) by done.
    destruct (length _) as [|[|?]]; simpl; lia.
Qed.

Lemma run_cons (e : Event) (evs : list Event) (w : World) :
  run (e :: evs) w = run evs (step e w).
Proof. done. Qed.

Lemma run_app (evs evs' : list Event) (w : World) :
  run (evs ++ evs') w = run evs' (run evs w).
Proof. unfold run. by rewrite foldl_app. Qed.

Lemma run_balanced (n : string) (evs : list Event) (w : World) :
  handlersNamed w -> balanced n w -> noOrphanResubscribe n evs w = true ->
  handlersNamed (run evs w) /\ balanced n (run evs w) /\
  along (zeroToOne n) evs w + attachCalls n w + pendingRoundTrips n w =
    attachCalls n (run evs w) + along (resumesWithoutAttach n) evs w +
    pendingRoundTrips n (run evs w) /\
  along (oneToZero n) evs w + detachCalls n w =
    detachCalls n (run evs w) + along (oneToZeroUnattached n) evs w.
Proof.
  revert w. induction evs as [|e evs IH]; intros w HN HB Hok.
  - unfold run. simpl. split; [done|]. split; [done|]. split; lia.
  - unfold noOrphanResubscribe in Hok. simpl in Hok.
    apply andb_true_iff in Hok as [Hok1 Hok]. apply negb_true_iff in Hok1.
    destruct (IH (step e w)) as (HN' & HB' & Hup & Hdown);
      [by apply step_handlersNamed|by apply step_balanced|done|].
    rewrite run_cons. split; [done|]. split; [done|]. split; simpl.
    + pose proof (step_attach_account n e w). lia.
    + pose proof (step_detach_account n e w HN). lia.
Qed.

Lemma handlersNamed_new (g : GooglePubSub) :
  googleSubName2GoogleSubAndClientIds g = ∅ -> handlersNamed (newWorld g).
Proof. intros Hg m e s. simpl. by rewrite Hg, lookup_empty. Qed.

Lemma balanced_listeners (n : string) (w : World) :
  balanced n w -> listeners n w = 0 -> attached n w = false.
Proof.
  intros [Hids _ _ _]. unfold_obs.
  destruct (googleSubName2GoogleSubAndClientIds (engine w) !! n) as [e|]; [|done].
  destruct (Hids e eq_refl) as (l & Hl & Hnil). simpl. rewrite Hl. simpl.
  by destruct l.
Qed.

(** C1, as amended.  On one engine, along every sequence of subscribe and
    unsubscribe calls, broker answers and messages in which no subscribe for
    the name is issued while the name has no listener and an earlier round
    trip for it is still pending: the attach calls of the name's message
    handler are the detach calls plus one while the entry holds an attached
    subscription and exactly the detach calls otherwise, so the two are equal
    whenever no listener is registered; every zero-to-one transition is
    accounted for by one attach call, by one round trip resumed without
    attaching (the broker rejected, or every listener had left), or by one
    round trip still pending; every one-to-zero transition is accounted for by
    one detach call or by the teardown of an entry that never was attached. *)
Theorem attach_detach_balance (t2s : string -> option Options -> string)
    (cmh : Message -> Result Value) (n : string) (evs : list Event) :
  let w0 := newWorld (newGooglePubSub t2s cmh) in
  let w := run evs w0 in
  noOrphanResubscribe n evs w0 = true ->
  attachCalls n w = detachCalls n w + (if attached n w then 1 else 0) /\
  (listeners n w = 0 -> attachCalls n w = detachCalls n w) /\
  along (zeroToOne n) evs w0 =
    attachCalls n w + along (resumesWithoutAttach n) evs w0 + pendingRoundTrips n w /\
  along (oneToZero n) evs w0 = detachCalls n w + along (oneToZeroUnattached n) evs w0.
Proof.
  intros w0 w Hok.
  destruct (run_balanced n evs w0) as (_ & HB & Hup & Hdown);
    [by apply handlersNamed_new|by apply balanced_new|done|].
  fold w in HB, Hup, Hdown.
  assert (attachCalls n w0 = 0 /\ detachCalls n w0 = 0 /\ pendingRoundTrips n w0 = 0)
    as (Ha0 & Hd0 & Hp0) by done.
  split; [|split; [|split]].
  - apply HB.
  - intros H0. pose proof (bal_count _ _ HB) as Hc.
    rewrite (balanced_listeners n w HB H0) in Hc. lia.
  - lia.
  - lia.
Qed.

Lemma attach_detach_balance_witness :
  noOrphanResubscribe posts twoListeners world0 = true /\
  (attachCalls posts (run twoListeners world0) =
     detachCalls posts (run twoListeners world0) +
     (if attached posts (run twoListeners world0) then 1 else 0) /\
   (listeners posts (run twoListeners world0) = 0 ->
    attachCalls posts (run twoListeners world0) =
    detachCalls posts (run twoListeners world0)) /\
   along (zeroToOne posts) twoListeners world0 =
     attachCalls posts (run twoListeners world0) +
     along (resumesWithoutAttach posts) twoListeners world0 +
     pendingRoundTrips posts (run twoListeners world0) /\
   along (oneToZero posts) twoListeners world0 =
     detachCalls posts (run twoListeners world0) +
     along (oneToZeroUnattached posts) twoListeners world0).
Proof.
  split; [reflexivity|].
  apply (attach_detach_balance defaultTopic2SubName defaultCommonMessageHandler
           posts twoListeners).
  reflexivity.
Defined.

(** C1, as stated, fails by design when the only listener leaves before the
    broker answers: one zero-to-one transition, no attach call. *)
Lemma leftBeforeAnswer_not_oncePerTransition :
  along (zeroToOne posts) leftBeforeAnswer world0 = 1 /\
  attachCalls posts (run leftBeforeAnswer world0) = 0 /\
  ~ oncePerTransition posts leftBeforeAnswer world0.
Proof.
  split; [reflexivity|]. split; [reflexivity|].
  intros (H & _). vm_compute in H. discriminate H.
Qed.

(** A second subscribe issued while the round trip of a torn-down entry is
    pending makes both activations attach; only the last handler is ever
    detached. *)
Lemma resubscribedBeforeAnswer_attaches_twice :
  noOrphanResubscribe posts resubscribedBeforeAnswer world0 = false /\
  listeners posts (run resubscribedBeforeAnswer world0) = 0 /\
  attachCalls posts (run resubscribedBeforeAnswer world0) = 2 /\
  detachCalls posts (run resubscribedBeforeAnswer world0) = 1.
Proof. repeat split; reflexivity. Qed.

(** ** Well-formedness is kept by every step *)

Lemma withoutId_cons (subId x : nat) (l : list nat) :
  withoutId subId (x :: l) = if x =? subId then l else x :: withoutId subId l.
Proof.
  unfold withoutId. simpl. destruct (x =? subId); [done|].
  destruct (indexOf subId l) as [i|]; simpl; done.
Qed.

Lemma elem_of_withoutId (subId x : nat) (l : list nat) :
  x ∈ withoutId subId l -> x ∈ l.
Proof.
  induction l as [|y l IH]; [done|]. rewrite withoutId_cons.
  destruct (y =? subId); rewrite ?elem_of_cons; intuition.
Qed.

Lemma elem_of_withoutId_ne (subId x : nat) (l : list nat) :
  x ∈ l -> x <> subId -> x ∈ withoutId subId l.
Proof.
  induction l as [|y l IH]; [done|]. rewrite withoutId_cons.
  destruct (y =? subId) eqn:E; rewrite ?elem_of_cons.
  - apply Nat.eqb_eq in E. intros [->|?] ?; [congruence|done].
  - intuition.
Qed.

Lemma NoDup_withoutId (subId : nat) (l : list nat) :
  NoDup l -> NoDup (withoutId subId l) /\ subId ∉ withoutId subId l.
Proof.
  induction l as [|y l IH]; intros HND.
  - split; [constructor|]. unfold withoutId. simpl. apply not_elem_of_nil.
  - apply NoDup_cons in HND as [Hy HND]. rewrite withoutId_cons.
    destruct (y =? subId) eqn:E.
    + apply Nat.eqb_eq in E. subst. done.
    + apply Nat.eqb_neq in E. destruct (IH HND) as [IH1 IH2]. split.
      * apply NoDup_cons. split; [|done]. intros H. by apply Hy, (elem_of_withoutId subId).
      * rewrite elem_of_cons. intros [?|?]; [congruence|done].
Qed.

Lemma wellFormed_new (g : GooglePubSub) :
  clientId2GoogleSubNameAndClientCallback g = ∅ ->
  googleSubName2GoogleSubAndClientIds g = ∅ -> wellFormed (newWorld g).
Proof.
  intros Hc Hs. split; simpl; intros *; rewrite ?Hc, ?Hs, ?lookup_empty; done.
Qed.

Lemma subscribe_wellFormed (t : string) (c : Callback) (o : option Options) (w : World) :
  wellFormed w -> wellFormed (fst (subscribe t c o w)).
Proof.
  intros [Hf Hc He].
  destruct (subscribe_spec t c o w) as (_ & Hs & Hcl & Hn & _).
  set (m := topic2SubName (engine w) t o) in *.
  set (w' := fst (subscribe t c o w)) in *. clearbody w'.
  unfold subscribedEntry, listenerIds, entryOrEmpty in Hs.
  assert (forall x, x ∈ default [] (ids (default emptyObject
            (googleSubName2GoogleSubAndClientIds (engine w) !! m))) ->
          exists c', clientId2GoogleSubNameAndClientCallback (engine w) !! x = Some (m, c'))
    as Hold.
  { intros x. destruct (googleSubName2GoogleSubAndClientIds (engine w) !! m) as [e|] eqn:E;
      simpl; [|by intros ?%elem_of_nil].
    destruct (He m e E) as (l & -> & _ & _ & Hl). simpl. apply Hl. }
  assert (forall x m' c', clientId2GoogleSubNameAndClientCallback (engine w) !! x = Some (m', c') ->
                          x <> currentClientId (engine w)) as Hlt.
  { intros x m' c' Hx ->. rewrite Hf in Hx; [done|lia]. }
  split; rewrite ?Hs, ?Hcl, ?Hn.
  - intros id Hid. rewrite lookup_insert_ne by lia. apply Hf. lia.
  - intros id m' c'. destruct (decide (currentClientId (engine w) = id)) as [<-|Hne].
    + rewrite lookup_insert_eq. intros [= <- <-]. rewrite lookup_insert_eq.
      eexists _, _. split; [done|]. split; [done|]. apply elem_of_app. right.
      apply list_elem_of_singleton. done.
    + rewrite lookup_insert_ne by done. intros Hid.
      destruct (Hc id m' c' Hid) as (e & l & Hm' & Hl & Hin).
      destruct (decide (m = m')) as [<-|Hm].
      * rewrite lookup_insert_eq. eexists _, _. split; [done|]. split; [done|].
        rewrite Hm'. simpl. rewrite Hl. simpl. apply elem_of_app. by left.
      * rewrite lookup_insert_ne by done. eauto.
  - intros m' e. destruct (decide (m = m')) as [<-|Hm].
    + rewrite lookup_insert_eq. intros [= <-]. simpl. eexists. split; [done|].
      split; [by destruct (default [] _)|]. split.
      * apply NoDup_app. split; [|split; [|apply NoDup_singleton]].
        -- destruct (googleSubName2GoogleSubAndClientIds (engine w) !! m) as [e|] eqn:E;
             simpl; [|constructor].
           destruct (He m e E) as (l & -> & _ & HND & _). done.
        -- intros x Hx ->%list_elem_of_singleton.
           destruct (Hold _ Hx) as (c' & Hc'). by eapply Hlt.
      * intros id [Hid| ->%list_elem_of_singleton]%elem_of_app.
        -- destruct (Hold _ Hid) as (c' & Hc'). exists c'.
           rewrite lookup_insert_ne; [done|]. intros <-. by eapply Hlt.
        -- rewrite lookup_insert_eq. eauto.
    + rewrite lookup_insert_ne by done. intros E.
      destruct (He m' e E) as (l & Hl & Hnil & HND & Hmem).
      exists l. repeat split; try done. intros id Hid.
      destruct (Hmem id Hid) as (c' & Hc'). exists c'.
      rewrite lookup_insert_ne; [done|]. intros <-. by eapply Hlt.
Qed.

Lemma unsubscribe_wellFormed (subId : nat) (w : World) :
  wellFormed w -> wellFormed (fst (unsubscribe subId w)).
Proof.
  intros [Hf Hc He].
  destruct (unsubscribe_spec subId w) as [|m c l w' Hid _ Hl Hcl Hs _ Hn _ _ _ _ _ _];
    [by split|]. simpl.
  destruct (Hc subId m c Hid) as (e & l0 & Em & Hl0 & Hin).
  unfold entryOrEmpty in Hl, Hs. unfold shrunkEntry, entryOrEmpty in Hs.
  rewrite Em in Hl, Hs. simpl in Hl, Hs.
  rewrite Hl0 in Hl. simplify_eq.
  destruct (He m e Em) as (l' & Hl' & Hnil & HND & Hmem). rewrite Hl0 in Hl'. simplify_eq.
  split; rewrite ?Hs, ?Hcl, ?Hn.
  - intros id Hge. destruct (decide (subId = id)) as [<-|Hne];
      [by rewrite lookup_delete_eq|rewrite lookup_delete_ne by done; by apply Hf].
  - intros id m' c'. destruct (decide (subId = id)) as [<-|Hne];
      [by rewrite lookup_delete_eq|rewrite lookup_delete_ne by done].
    intros Hid'. destruct (Hc id m' c' Hid') as (e' & l'' & Em' & Hl'' & Hin').
    destruct (decide (m = m')) as [<-|Hm].
    + rewrite Em in Em'. simplify_eq.
      destruct (length l' =? 1) eqn:E1.
      * apply Nat.eqb_eq in E1. destruct l' as [|x [|y l']]; simpl in E1; try done.
        apply list_elem_of_singleton in Hin, Hin'. congruence.
      * rewrite lookup_insert_eq. eexists _, _. split; [done|]. split; [done|].
        by apply elem_of_withoutId_ne.
    + destruct (length l' =? 1);
        [rewrite lookup_delete_ne by done|rewrite lookup_insert_ne by done]; eauto.
  - intros m' e'. destruct (decide (m = m')) as [<-|Hm].
    + destruct (length l' =? 1) eqn:E1; [by rewrite lookup_delete_eq|].
      apply Nat.eqb_neq in E1.
      rewrite lookup_insert_eq. intros [= <-]. simpl. eexists. split; [done|].
      destruct (NoDup_withoutId subId l' HND) as [HND' Hnot].
      split; [|split; [done|]].
      * pose proof (length_withoutId subId l') as HL.
        destruct l' as [|x [|y l']]; simpl in *; try done.
        intros Hw. rewrite Hw in HL. simpl in HL. lia.
      * intros id Hid'. destruct (Hmem id (elem_of_withoutId _ _ _ Hid')) as (c' & Hc').
        exists c'. rewrite lookup_delete_ne; [done|]. intros <-. done.
    + intros Em'.
      assert (googleSubName2GoogleSubAndClientIds (engine w) !! m' = Some e') as Em''.
      { destruct (length l' =? 1);
          [by rewrite lookup_delete_ne in Em'|by rewrite lookup_insert_ne in Em']. }
      destruct (He m' e' Em'') as (l'' & Hl'' & Hnil' & HND' & Hmem').
      exists l''. repeat split; try done. intros id Hid'.
      destruct (Hmem' id Hid') as (c' & Hc'). exists c'.
      rewrite lookup_delete_ne; [done|]. intros <-. congruence.
Qed.

Lemma subscribeResume_wellFormed (f : SubscribeFrame) (reply : BrokerReply) (w : World) :
  wellFormed w -> wellFormed (subscribeResume f reply w).
Proof.
  intros [Hf Hc He].
  destruct (subscribeResume_spec f reply w) as (Hs & _ & Hcl & Hn & _).
  set (w' := subscribeResume f reply w) in *. clearbody w'.
  unfold attaches, attachedEntry, listeners, listenerIds, entryOrEmpty in Hs.
  destruct (getSubscription _ _ _) as [s|err]; [|split; rewrite ?Hs, ?Hcl, ?Hn; done].
  destruct (googleSubName2GoogleSubAndClientIds (engine w) !! sfSubName f) as [e|] eqn:E;
    simpl in Hs; [|split; rewrite ?Hs, ?Hcl, ?Hn; done].
  destruct (0 <? _); [|split; rewrite ?Hs, ?Hcl, ?Hn; done].
  split; rewrite ?Hs, ?Hcl, ?Hn; [done| |].
  - intros id m c Hid. destruct (Hc id m c Hid) as (e' & l & Em & Hl & Hin).
    destruct (decide (sfSubName f = m)) as [<-|Hm].
    + rewrite lookup_insert_eq. rewrite E in Em. simplify_eq. eexists _, _.
      split; [done|]. simpl. done.
    + rewrite lookup_insert_ne by done. eauto.
  - intros m e'. destruct (decide (sfSubName f = m)) as [<-|Hm].
    + rewrite lookup_insert_eq. intros [= <-]. simpl. by apply He.
    + rewrite lookup_insert_ne by done. apply He.
Qed.

Lemma step_wellFormed (e : Event) (w : World) : wellFormed w -> wellFormed (step e w).
Proof.
  intros H. destruct e as [t c o|subId|id reply|m msg|k]; simpl.
  - by apply subscribe_wellFormed.
  - by apply unsubscribe_wellFormed.
  - destruct (takeFrame id (awaiting w)) as [[f r]|]; [|done].
    apply subscribeResume_wellFormed. by destruct H.
  - by destruct H.
  - destruct (handling w !! k) as [f|]; [|done].
    destruct (handleMessageResume_frame f (with_handling (delete k (handling w)) w))
      as (Hg & _).
    destruct H as [Hf Hc He]. split; rewrite Hg; done.
Qed.

Lemma run_wellFormed (evs : list Event) (w : World) : wellFormed w -> wellFormed (run evs w).
Proof.
  revert w. induction evs as [|e evs IH]; intros w H; [done|].
  rewrite run_cons. by apply IH, step_wellFormed.
Qed.

(** ** Unknown ids *)

Lemma unsubscribe_absent (subId : nat) (w : World) :
  clientId2GoogleSubNameAndClientCallback (engine w) !! subId = None ->
  unsubscribe subId w = (w, Some (NoSubscriptionOfIdError subId)).
Proof. intros H. unfold unsubscribe. by rewrite H. Qed.

Lemma step_gone (id : nat) (e : Event) (w : World) : gone id w -> gone id (step e w).
Proof.
  intros [Hnone Hlt]. unfold gone. destruct e as [t c o|subId|id' reply|m msg|k]; simpl.
  - destruct (subscribe_spec t c o w) as (_ & _ & Hcl & Hn & _).
    rewrite Hcl, Hn. split; [|lia]. rewrite lookup_insert_ne by lia. done.
  - destruct (unsubscribe_spec subId w) as [|m c l w' _ _ _ Hcl _ _ Hn _ _ _ _ _ _];
      [done|]. simpl. rewrite Hcl, Hn. split; [|done].
    destruct (decide (subId = id)) as [<-|Hne];
      [by rewrite lookup_delete_eq|by rewrite lookup_delete_ne].
  - destruct (takeFrame id' (awaiting w)) as [[f r]|]; [|done].
    destruct (subscribeResume_spec f reply (with_awaiting r w)) as (_ & _ & Hcl & Hn & _).
    rewrite Hcl, Hn. done.
  - done.
  - destruct (handling w !! k) as [f|]; [|done].
    destruct (handleMessageResume_frame f (with_handling (delete k (handling w)) w))
      as (Hg & _). rewrite Hg. done.
Qed.

Lemma run_gone (id : nat) (evs : list Event) (w : World) : gone id w -> gone id (run evs w).
Proof.
  revert w. induction evs as [|e evs IH]; intros w H; [done|].
  rewrite run_cons. by apply IH, step_gone.
Qed.

(** C8.  On an engine that started empty and went through any events, an id
    that was never issued, or whose [unsubscribe] already returned once, makes
    [unsubscribe] throw [NoSubscriptionOfIdError] for that id, synchronously
    and with the whole state (records, entries, broker calls) left as it
    was. *)
Theorem unsubscribe_unknown_throws (t2s : string -> option Options -> string)
    (cmh : Message -> Result Value) (evs : list Event) (id : nat) :
  let w0 := newWorld (newGooglePubSub t2s cmh) in
  let w := run evs w0 in
  unknownAfter evs w0 id ->
  unsubscribe id w = (w, Some (NoSubscriptionOfIdError id)).
Proof.
  intros w0 w Hun. apply unsubscribe_absent.
  assert (wellFormed w0) as Hwf0 by (by apply wellFormed_new).
  destruct Hun as [Hge|(evs1 & evs2 & -> & Hret)].
  - apply (wf_fresh w); [|done]. by apply run_wellFormed.
  - subst w. rewrite run_app, run_cons.
    apply run_gone. simpl.
    pose proof (run_wellFormed evs1 w0 Hwf0) as Hwf1.
    destruct (unsubscribe_spec id (run evs1 w0))
      as [|m c l w' Hid _ _ Hcl _ _ Hn _ _ _ _ _ _]; [done|]. simpl.
    split.
    + rewrite Hcl. apply lookup_delete_eq.
    + rewrite Hn. destruct (decide (id < currentClientId (engine (run evs1 w0)))); [done|].
      rewrite (wf_fresh _ Hwf1) in Hid; [done|lia].
Qed.

Lemma unsubscribe_unknown_throws_witness :
  unknownAfter [ESubscribe "Posts" (cb 0) None; ERoundTrip 0 ExistsYes; EUnsubscribe 0]
    world0 0 /\
  unsubscribe 0
    (run [ESubscribe "Posts" (cb 0) None; ERoundTrip 0 ExistsYes; EUnsubscribe 0] world0) =
  (run [ESubscribe "Posts" (cb 0) None; ERoundTrip 0 ExistsYes; EUnsubscribe 0] world0,
   Some (NoSubscriptionOfIdError 0)).
Proof.
  assert (unknownAfter
            [ESubscribe "Posts" (cb 0) None; ERoundTrip 0 ExistsYes; EUnsubscribe 0]
            world0 0) as H.
  { right. exists [ESubscribe "Posts" (cb 0) None; ERoundTrip 0 ExistsYes], [].
    split; reflexivity. }
  split; [exact H|].
  exact (unsubscribe_unknown_throws defaultTopic2SubName defaultCommonMessageHandler
           [ESubscribe "Posts" (cb 0) None; ERoundTrip 0 ExistsYes; EUnsubscribe 0] 0 H).
Defined.

(** ** Dispatch *)

Lemma forEachId_delivers (n : string) (res : Value) (l : list nat) (w : World) :
  (forall id, id ∈ l ->
     exists c, clientId2GoogleSubNameAndClientCallback (engine w) !! id = Some (n, c) /\
               cbRun c res = None) ->
  exists cbs,
    Forall2 (fun id c => clientId2GoogleSubNameAndClientCallback (engine w) !! id
                         = Some (n, c)) l cbs /\
    forEachId res l w = (emit (zip_with (fun id c => Deliver id c res) l cbs) w, None).
Proof.
  revert w. induction l as [|id l IH]; intros w H.
  - exists []. split; [constructor|]. simpl. unfold emit. rewrite app_nil_r. by destruct w.
  - destruct (H id) as (c & Hc & Hrun); [by left|].
    destruct (IH (emit [Deliver id c res] w)) as (cbs & HF & Heq).
    { intros id' Hid'. apply H. by right. }
    exists (c :: cbs). split; [by constructor|].
    simpl. rewrite Hc, Hrun, Heq. unfold emit. simpl. by rewrite <- app_assoc.
Qed.

(** C3, amended.  A message handler of name [n] that received [m] in world
    [w]: the transform is called once, on [m].  When it completes with
    [res], in a well-formed world [w2] where [n] has at least one listener
    and where every callback registered under [n] returns on [res] (it does
    not throw; a [Callback] cannot call back into the engine), the rest of
    the handler, one uninterrupted segment, calls the callback of every id
    the entry holds then with [res], once each, in the order of the list,
    and does nothing else. *)
Theorem dispatch_reaches_every_listener (w w2 : World) (n : string) (m : Message)
    (res : Value) :
  commonMessageHandler (engine w) m = Fulfilled res ->
  wellFormed w2 ->
  1 <= listeners n w2 ->
  (forall id k c, id ∈ listenerIds n w2 ->
     clientId2GoogleSubNameAndClientCallback (engine w2) !! id = Some (k, c) ->
     cbRun c res = None) ->
  effects (handleMessage n m w) = effects w ++ [Ack m; Transform m] /\
  handling (handleMessage n m w) =
    handling w ++ [{| hfSubName := n; hfAwaited := commonMessageHandler (engine w) m |}] /\
  exists cbs,
    Forall2 (fun id c => clientId2GoogleSubNameAndClientCallback (engine w2) !! id
                         = Some (n, c)) (listenerIds n w2) cbs /\
    handleMessageResume
      {| hfSubName := n; hfAwaited := commonMessageHandler (engine w) m |} w2 =
      emit (zip_with (fun id c => Deliver id c res) (listenerIds n w2) cbs) w2.
Proof.
  intros Hres Hwf HN Hret.
  destruct (handleMessage_spec n m w) as (_ & _ & He & Hh & _).
  split; [done|]. split; [done|].
  destruct (forEachId_delivers n res (listenerIds n w2) w2) as (cbs & HF & Heq).
  { intros id Hid. unfold listenerIds, entryOrEmpty in Hid.
    destruct (googleSubName2GoogleSubAndClientIds (engine w2) !! n) as [e|] eqn:E;
      simpl in Hid; [|by apply elem_of_nil in Hid].
    destruct (wf_entry _ Hwf n e E) as (l & Hl & _ & _ & Hmem).
    rewrite Hl in Hid. simpl in Hid.
    destruct (Hmem id Hid) as (c & Hc). exists c. split; [done|].
    eapply Hret; [|exact Hc]. unfold listenerIds, entryOrEmpty. rewrite E. simpl.
    by rewrite Hl. }
  exists cbs. split; [done|].
  unfold handleMessageResume. simpl. rewrite Hres. fold (listenerIds n w2).
  by rewrite Heq.
Qed.

Lemma dispatch_reaches_every_listener_witness :
  listenerIds posts twoAttached = [0; 1] /\
  exists cbs,
    Forall2 (fun id c => clientId2GoogleSubNameAndClientCallback (engine twoAttached) !! id
                         = Some (posts, c)) (listenerIds posts twoAttached) cbs /\
    handleMessageResume
      {| hfSubName := posts;
         hfAwaited := commonMessageHandler (engine world0) testMessage |} twoAttached =
    emit (zip_with (fun id c => Deliver id c (VMessage testMessage))
            (listenerIds posts twoAttached) cbs) twoAttached.
Proof.
  split; [reflexivity|].
  apply (dispatch_reaches_every_listener world0 twoAttached posts testMessage
           (VMessage testMessage)).
  - reflexivity.
  - apply run_wellFormed. by apply wellFormed_new.
  - vm_compute. lia.
  - intros id k c Hid Hc.
    change (listenerIds posts twoAttached) with [0; 1] in Hid.
    apply elem_of_cons in Hid as [->|Hid].
    + vm_compute in Hc. by inversion Hc.
    + apply list_elem_of_singleton in Hid as ->. vm_compute in Hc. by inversion Hc.
Defined.

(** C3, as stated, fails: of three listeners of one name the callback of
    the second throws.  On the dispatch of one message the first two are
    called and the third is not, although it is in the entry when the
    transform completes; the promise of the handler rejects, unobserved. *)
Lemma throwing_listener_starves_later_ones :
  listenerIds posts secondThrowsAwaiting = [0; 1; 2] /\
  deliveredSince secondThrowsAwaiting (step (ETransformSettles 0) secondThrowsAwaiting)
    = [0; 1] /\
  unhandled (step (ETransformSettles 0) secondThrowsAwaiting) = [UserError 2] /\
  ~ reachesEveryListener posts secondThrowsAwaiting
      (step (ETransformSettles 0) secondThrowsAwaiting).
Proof.
  split; [reflexivity|]. split; [reflexivity|]. split; [reflexivity|].
  unfold reachesEveryListener. intros H. vm_compute in H. discriminate H.
Qed.

(** C2, on the code.  Subscribe to "Posts" as the first listener (id 0),
    unsubscribe id 0, then let the broker answer: no handler was attached and
    the entry is absent, but the promise of the [subscribe] call is rejected
    with the [TypeError] thrown by [googleSubAndClientIds.ids.length] on
    [{}], instead of being fulfilled with 0. *)
Theorem leftBeforeAnswer_rejects_subscribe :
  subscribed (run leftBeforeAnswer world0) =
    [(0, Rejected (TypeError "Cannot read property 'length' of undefined"))] /\
  effects (run leftBeforeAnswer world0) = [] /\
  googleSubName2GoogleSubAndClientIds (engine (run leftBeforeAnswer world0)) !! posts = None /\
  clientId2GoogleSubNameAndClientCallback (engine (run leftBeforeAnswer world0)) !! 0 = None.
Proof. repeat split; reflexivity. Qed.

(** The same at every world: a resumed [subscribe] that finds no entry under
    its name rejects its promise and changes nothing else. *)
Lemma subscribeResume_without_entry (f : SubscribeFrame) (reply : BrokerReply)
    (s : Subscription) (w : World) :
  getSubscription (sfTopicName f) (sfSubName f) reply = Fulfilled s ->
  googleSubName2GoogleSubAndClientIds (engine w) !! sfSubName f = None ->
  subscribeResume f reply w =
  settle (sfId f) (Rejected (TypeError "Cannot read property 'length' of undefined")) w.
Proof.
  intros Hs Hn. unfold subscribeResume, entryOrEmpty. by rewrite Hs, Hn.
Qed.

(** C5, as amended.  When the transform throws or rejects with [e] for a
    message, the handler that received it has acknowledged the message and
    called the transform; once the failure reaches it, in whatever world, no
    delivery callback is called and nothing is logged: the only change is the
    rejected promise of the handler, which nobody observes. *)
Theorem transform_failure_drops_message (w w2 : World) (n : string) (m : Message)
    (e : Error) :
  commonMessageHandler (engine w) m = Rejected e ->
  effects (handleMessage n m w) = effects w ++ [Ack m; Transform m] /\
  handling (handleMessage n m w) =
    handling w ++ [{| hfSubName := n; hfAwaited := commonMessageHandler (engine w) m |}] /\
  handleMessageResume
    {| hfSubName := n; hfAwaited := commonMessageHandler (engine w) m |} w2 =
  unhandledRejection e w2.
Proof.
  intros He. destruct (handleMessage_spec n m w) as (_ & _ & Hef & Hh & _).
  split; [done|]. split; [done|].
  unfold handleMessageResume. simpl. by rewrite He.
Qed.

Lemma transform_failure_drops_message_witness :
  handleMessageResume
    {| hfSubName := posts;
       hfAwaited := commonMessageHandler (engine (newWorld rejectingEngine)) testMessage |}
    (newWorld rejectingEngine) =
  unhandledRejection (UserError 1) (newWorld rejectingEngine).
Proof.
  apply (transform_failure_drops_message (newWorld rejectingEngine)
           (newWorld rejectingEngine) posts testMessage (UserError 1)).
  reflexivity.
Defined.

(** C5, as stated, fails: with one attached listener and a transform that
    rejects, the dispatch of a message leaves an unobserved rejection and
    never calls [console.error]. *)
Lemma rejecting_transform_not_caughtAndLogged :
  unhandled (run oneListenerOneMessage (newWorld rejectingEngine)) = [UserError 1] /\
  countIf isConsoleError (effects (run oneListenerOneMessage (newWorld rejectingEngine))) = 0 /\
  countIf isDeliver (effects (run oneListenerOneMessage (newWorld rejectingEngine))) = 0 /\
  ~ caughtAndLogged (UserError 1) (newWorld rejectingEngine)
      (run oneListenerOneMessage (newWorld rejectingEngine)).
Proof.
  split; [reflexivity|]. split; [reflexivity|]. split; [reflexivity|].
  intros [_ H]. vm_compute in H. discriminate H.
Qed.

(** C9.  A message handler that receives [m] calls [m.ack()] first, then the
    transform, and suspends; when it resumes, in whatever world and whatever
    the transform settled to, it only calls delivery callbacks.  So [m] is
    acknowledged exactly once, before the transform and before any delivery,
    whether or not a listener remains and whether or not the transform
    fails. *)
Theorem message_acked_once_first (w w2 : World) (n : string) (m : Message) :
  effects (handleMessage n m w) = effects w ++ [Ack m; Transform m] /\
  handling (handleMessage n m w) =
    handling w ++ [{| hfSubName := n; hfAwaited := commonMessageHandler (engine w) m |}] /\
  exists es,
    effects (handleMessageResume
               {| hfSubName := n; hfAwaited := commonMessageHandler (engine w) m |} w2)
    = effects w2 ++ es /\
    countIf isAck es = 0 /\ countIf isDeliver es = length es.
Proof.
  destruct (handleMessage_spec n m w) as (_ & _ & Hef & Hh & _).
  split; [done|]. split; [done|].
  destruct (handleMessageResume_frame
              {| hfSubName := n; hfAwaited := commonMessageHandler (engine w) m |} w2)
    as (_ & _ & _ & _ & es & He & HF).
  exists es. split; [done|]. split.
  - by apply countIf_delivers.
  - clear He. induction HF as [|x es (id & c & res & ->) _ IH]; [done|].
    rewrite countIf_cons. simpl. rewrite IH. done.
Qed.

(** ** The order of the listener list *)

Lemma subscribe_appends (t : string) (c : Callback) (o : option Options) (w : World) :
  listenerIds (topic2SubName (engine w) t o) (fst (subscribe t c o w)) =
  listenerIds (topic2SubName (engine w) t o) w ++ [currentClientId (engine w)].
Proof.
  destruct (subscribe_spec t c o w) as (_ & Hs & _).
  unfold listenerIds at 1. unfold entryOrEmpty. rewrite Hs, lookup_insert_eq. done.
Qed.

Lemma withoutId_sublist (subId : nat) (l : list nat) : sublist (withoutId subId l) l.
Proof.
  induction l as [|x l IH]; [done|]. rewrite withoutId_cons.
  destruct (x =? subId); [by apply sublist_cons|by apply sublist_skip].
Qed.

(** ** The test suite *)

(** 'will subscribe to topic only once': both ids are issued, and the only
    [on] calls are for ['message'] and ['error']. *)
Example subscribes_only_once :
  subscribed twoAttached = [(1, Fulfilled 1); (0, Fulfilled 0)] /\
  effects twoAttached =
    [On (ClientSub posts) MessageEvent (HandleMessage posts 0);
     On (ClientSub posts) ErrorEvent (ErrorHandler 0)].
Proof. split; reflexivity. Qed.

(** 'can unsubscribe from specific topic': [removeListener] is called twice,
    for ['message'] then ['error']. *)
Example unsubscribe_removes_both_listeners :
  drop 2 (effects subscribedThenLeft) =
    [RemoveListener (ClientSub posts) MessageEvent (Some (HandleMessage posts 0));
     RemoveListener (ClientSub posts) ErrorEvent (Some (ErrorHandler 0))].
Proof. reflexivity. Qed.

(** 'will not unsubscribe from the topic if there is another subscriber':
    no [removeListener] call when the first of two ids leaves. *)
Example unsubscribe_keeps_shared_subscription :
  countIf (isDetach posts) (effects (step (EUnsubscribe 0) twoAttached)) = 0 /\
  listenerIds posts (step (EUnsubscribe 0) twoAttached) = [1].
Proof. split; reflexivity. Qed.

(** 'throws if you try to unsubscribe with an unknown id' *)
Example unsubscribe_123_throws :
  snd (unsubscribe 123 world0) = Some (NoSubscriptionOfIdError 123).
Proof. reflexivity. Qed.

(** * Proofs about the AsyncIterator *)

Lemma sessionRun_cons (ev : SessionEvent) (evs : list SessionEvent) (s : Session) :
  sessionRun (ev :: evs) s = sessionRun evs (sessionStep ev s).
Proof. done. Qed.

Lemma sessionRun_app (evs evs' : list SessionEvent) (s : Session) :
  sessionRun (evs ++ evs') s = sessionRun evs' (sessionRun evs s).
Proof. unfold sessionRun. by rewrite foldl_app. Qed.

(** ** The two queues *)









(** ** After close *)




Lemma engineEvents_cons_run (ev : SessionEvent) (evs : list SessionEvent) (w : World) :
  run (engineEvents (ev :: evs)) w = run (engineEvents evs) (run (engineEvents [ev]) w).
Proof. by destruct ev. Qed.





(** ** [return()] *)

Lemma unsubscribe_registered (id : nat) (w : World) :
  wellFormed w -> registered w id ->
  exists w', unsubscribe id w = (w', None) /\ wellFormed w' /\
             clientId2GoogleSubNameAndClientCallback (engine w') =
               delete id (clientId2GoogleSubNameAndClientCallback (engine w)) /\
             subscribed w' = subscribed w.
Proof.
  intros Hwf (m & c & Hid & Hm).
  pose proof (unsubscribe_wellFormed id w Hwf) as Hwf'.
  destruct (unsubscribe_spec id w) as [Hthrow|m' c' l w' _ _ _ Hcl _ _ _ _ _ _ _ Hsub _].
  - destruct (Hthrow m c Hid) as [->|Hnone]; [done|].
    destruct (wf_client _ Hwf id m c Hid) as (e & l & Em & Hl & _).
    unfold entryOrEmpty in Hnone. rewrite Em in Hnone. simpl in Hnone. congruence.
  - exists w'. done.
Qed.

Lemma unsubscribeAll_registered (subs : list nat) (w : World) :
  wellFormed w -> NoDup subs -> Forall (registered w) subs ->
  exists w', unsubscribeAll subs w = (w', None) /\ wellFormed w' /\
             (forall x, clientId2GoogleSubNameAndClientCallback (engine w') !! x =
                        if bool_decide (x ∈ subs) then None
                        else clientId2GoogleSubNameAndClientCallback (engine w) !! x) /\
             subscribed w' = subscribed w.
Proof.
  revert w. induction subs as [|id rest IH]; intros w Hwf HND HF.
  - exists w. split; [done|]. split; [done|]. split; done.
  - apply NoDup_cons in HND as [Hid HND]. apply Forall_cons in HF as [Hreg HF].
    destruct (unsubscribe_registered id w Hwf Hreg) as (w1 & Hu & Hwf1 & Hcl & Hsub).
    destruct (IH w1 Hwf1 HND) as (w' & Hu' & Hwf' & Hcl' & Hsub').
    { apply Forall_forall. intros x Hx.
      rewrite Forall_forall in HF. destruct (HF x Hx) as (m & c & Hxc & Hm).
      exists m, c. split; [|done]. rewrite Hcl, lookup_delete_ne; [done|].
      intros <-. done. }
    exists w'. simpl. rewrite Hu. split; [done|]. split; [done|]. split; [|congruence].
    intros x. rewrite Hcl', Hcl.
    destruct (decide (x = id)) as [->|Hne].
    + rewrite bool_decide_eq_false_2 by done. rewrite lookup_delete_eq.
      rewrite bool_decide_eq_true_2; [done|]. by left.
    + rewrite lookup_delete_ne by done.
      destruct (decide (x ∈ rest)) as [Hin|Hnin].
      * rewrite !bool_decide_eq_true_2; [done| |done]. by right.
      * rewrite !bool_decide_eq_false_2; [done| |done].
        intros [?|?]%elem_of_cons; done.
Qed.


Lemma unsubscribeAll_wellFormed (subs : list nat) (w : World) :
  wellFormed w -> wellFormed (fst (unsubscribeAll subs w)).
Proof.
  revert w. induction subs as [|id rest IH]; intros w Hwf; [done|]. simpl.
  pose proof (unsubscribe_wellFormed id w Hwf) as H.
  destruct (unsubscribe id w) as [w' [e|]]; [done|]. by apply IH.
Qed.

Lemma react_wellFormed (r : Reaction) (rest : list Reaction) (s : Session) :
  wellFormed (pubsub s) -> wellFormed (pubsub (react r rest s)).
Proof.
  intros H. unfold react.
  destruct (promiseAll _ _) as [[subs|e]|]; [|destruct r; exact H|exact H].
  assert (wellFormed (fst (fst (fst (emptyQueue subs (pubsub s) (iterator s)))))) as HE.
  { unfold emptyQueue. destruct (listening (iterator s)); [|exact H].
    pose proof (unsubscribeAll_wellFormed subs (pubsub s) H) as HU.
    by destruct (unsubscribeAll subs (pubsub s)) as [w' [e|]]. }
  destruct r as [p|p|p err|event].
  - destruct (listening (iterator s)); [|exact H]. by destruct (pullValue p (iterator s)).
  - by destruct (emptyQueue subs (pubsub s) (iterator s)) as [[[w it] res] thrown].
  - by destruct (emptyQueue subs (pubsub s) (iterator s)) as [[[w it] res] thrown].
  - by destruct (pushValueThen event (iterator s)).
Qed.

Lemma sessionRun_wellFormed (evs : list SessionEvent) (s : Session) :
  wellFormed (pubsub s) -> wellFormed (pubsub (sessionRun evs s)).
Proof.
  revert s. induction evs as [|ev evs IH]; intros s H; [done|].
  rewrite sessionRun_cons. apply IH. destruct ev; simpl; try exact H.
  - by apply step_wellFormed.
  - destruct (reactions s) as [|r rest]; [exact H|]. by apply react_wellFormed.
Qed.

Lemma subscribeAll_wellFormed (i : nat) (l : list string) (w : World) :
  wellFormed w -> wellFormed (fst (subscribeAll i l w)).
Proof.
  revert w. induction l as [|t l IH]; intros w Hwf; [done|]. simpl.
  pose proof (subscribe_wellFormed t (PushValueOf i) None w Hwf) as H.
  destruct (subscribe t (PushValueOf i) None w) as [w1 p]. simpl in H.
  specialize (IH w1 H). by destruct (subscribeAll i l w1).
Qed.

Lemma newAsyncIterator_wellFormed (i : nat) (w : World) (subNames : SubNames)
    (o : option Options) :
  wellFormed w -> wellFormed (pubsub (newAsyncIterator i w subNames o)).
Proof.
  intros Hwf. unfold newAsyncIterator.
  pose proof (subscribeAll_wellFormed i
                match subNames with OneName s => [s] | ManyNames l => l end w Hwf) as H.
  by destruct (subscribeAll _ _ _).
Qed.

(** C7, amended.  On a listening session whose registration completed with
    [subs], none of whose callbacks waits for its turn, and whose ids are all
    still registered, under non-empty names, in a well-formed engine: the
    first [return()] stops listening, calls [unsubscribe] for every id of
    [subs], after which none of them is known to the engine, resolves every
    pending pull and its own promise with [{ value: undefined, done: true }]
    and empties both queues; a second [return()] leaves the engine and the
    iterator as they are and resolves with
    [{ value: undefined, done: true }].  The settlements are stated as a
    collection, in no order. *)
Theorem return_idempotent (s : Session) (subs : list nat) :
  wellFormed (pubsub s) ->
  reactions s = [] ->
  listening (iterator s) = true ->
  promiseAll (subscribed (pubsub s)) (allSubscribed (iterator s)) = Some (Fulfilled subs) ->
  NoDup subs ->
  Forall (registered (pubsub s)) subs ->
  let s1 := sessionRun [SReturn; SReact] s in
  let s2 := sessionRun [SReturn; SReact] s1 in
  (listening (iterator s1) = false /\
   pullQueue (iterator s1) = [] /\ pushQueue (iterator s1) = [] /\
   pubsub s1 = fst (unsubscribeAll subs (pubsub s)) /\
   (forall id, id ∈ subs ->
      clientId2GoogleSubNameAndClientCallback (engine (pubsub s1)) !! id = None) /\
   settled s1 ≡ₚ
     settled s ++ ((fun resolve => (resolve, Fulfilled doneResult)) <$> pullQueue (iterator s))
               ++ [(promises s, Fulfilled doneResult)]) /\
  (pubsub s2 = pubsub s1 /\ iterator s2 = iterator s1 /\
   settled s2 ≡ₚ settled s1 ++ [(promises s1, Fulfilled doneResult)]).
Proof.
  intros Hwf Hr Hl Hp HND HF s1 s2.
  destruct (unsubscribeAll_registered subs (pubsub s) Hwf HND HF)
    as (w' & Hu & Hwf' & Hcl & Hsub).
  assert (s1 = {| pubsub := w'; self := self s;
                  iterator := set_pushQueue [] (set_pullQueue [] (set_listening false (iterator s)));
                  reactions := []; promises := S (promises s);
                  settled := settled s ++
                    ((fun resolve => (resolve, Fulfilled doneResult)) <$> pullQueue (iterator s))
                    ++ [(promises s, Fulfilled doneResult)];
                  unobserved := unobserved s |}) as Hs1.
  { subst s1. unfold sessionRun. simpl. rewrite Hr. simpl. unfold react. simpl.
    rewrite Hp. unfold emptyQueue. rewrite Hl, Hu. done. }
  split.
  - rewrite Hs1. simpl. rewrite Hu. repeat split; try done.
    intros id Hid. rewrite Hcl. by rewrite bool_decide_eq_true_2.
  - subst s2. rewrite Hs1. unfold sessionRun. simpl. unfold react. simpl.
    rewrite Hsub, Hp. done.
Qed.

Lemma return_idempotent_witness :
  pullQueue (iterator waitingSession) = [0] /\
  (listening (iterator (sessionRun [SReturn; SReact] waitingSession)) = false /\
   pullQueue (iterator (sessionRun [SReturn; SReact] waitingSession)) = [] /\
   pushQueue (iterator (sessionRun [SReturn; SReact] waitingSession)) = [] /\
   pubsub (sessionRun [SReturn; SReact] waitingSession) =
     fst (unsubscribeAll [0] (pubsub waitingSession)) /\
   (forall id, id ∈ [0] ->
      clientId2GoogleSubNameAndClientCallback
        (engine (pubsub (sessionRun [SReturn; SReact] waitingSession))) !! id = None) /\
   settled (sessionRun [SReturn; SReact] waitingSession) ≡ₚ
     settled waitingSession ++
     ((fun resolve => (resolve, Fulfilled doneResult)) <$> pullQueue (iterator waitingSession))
     ++ [(promises waitingSession, Fulfilled doneResult)]) /\
  (pubsub (sessionRun [SReturn; SReact] (sessionRun [SReturn; SReact] waitingSession)) =
     pubsub (sessionRun [SReturn; SReact] waitingSession) /\
   iterator (sessionRun [SReturn; SReact] (sessionRun [SReturn; SReact] waitingSession)) =
     iterator (sessionRun [SReturn; SReact] waitingSession) /\
   settled (sessionRun [SReturn; SReact] (sessionRun [SReturn; SReact] waitingSession)) ≡ₚ
     settled (sessionRun [SReturn; SReact] waitingSession) ++
     [(promises (sessionRun [SReturn; SReact] waitingSession), Fulfilled doneResult)]).
Proof.
  split; [reflexivity|].
  apply (return_idempotent waitingSession [0]).
  - unfold waitingSession, openSession.
    apply sessionRun_wellFormed, sessionRun_wellFormed, newAsyncIterator_wellFormed.
    by apply wellFormed_new.
  - reflexivity.
  - reflexivity.
  - reflexivity.
  - apply NoDup_singleton.
  - apply Forall_cons. split; [|constructor].
    exists posts, (PushValueOf 9). split; [reflexivity|done].
Defined.

(** C7, as stated, fails.  A session with a pending [next()] whose id was
    unsubscribed by another caller, and a session with a pending [next()]
    on an engine whose naming function answers the empty name: in both,
    [unsubscribe] throws inside the first [return()], which then has stopped
    listening but resolves no pending pull, and its promise rejects; in the
    second the id is still registered afterwards. *)
Lemma return_leaves_pull_pending :
  (pullQueue (iterator orphanedSession) = [0] /\
   listening (iterator (sessionRun [SReturn; SReact] orphanedSession)) = false /\
   pullQueue (iterator (sessionRun [SReturn; SReact] orphanedSession)) = [0] /\
   settled (sessionRun [SReturn; SReact] orphanedSession) =
     [(1, Rejected (NoSubscriptionOfIdError 0))] /\
   ~ returnCloses [0] orphanedSession (sessionRun [SReturn; SReact] orphanedSession)) /\
  (pullQueue (iterator emptyNameSession) = [0] /\
   listening (iterator (sessionRun [SReturn; SReact] emptyNameSession)) = false /\
   pullQueue (iterator (sessionRun [SReturn; SReact] emptyNameSession)) = [0] /\
   settled (sessionRun [SReturn; SReact] emptyNameSession) =
     [(1, Rejected (NoSubscriptionOfIdError 0))] /\
   clientId2GoogleSubNameAndClientCallback
     (engine (pubsub (sessionRun [SReturn; SReact] emptyNameSession))) !! 0 =
     Some (""%string, PushValueOf 9) /\
   ~ returnCloses [0] emptyNameSession (sessionRun [SReturn; SReact] emptyNameSession)).
Proof.
  split.
  - do 4 (split; [reflexivity|]). intros (_ & _ & _ & H & _).
    vm_compute in H. discriminate H.
  - do 5 (split; [reflexivity|]). intros (_ & _ & _ & H & _).
    vm_compute in H. discriminate H.
Qed.

(** ** A rejected registration *)

Lemma find_app_Some {A} (f : A -> bool) (l l' : list A) (x : A) :
  List.find f l = Some x -> List.find f (l ++ l') = Some x.
Proof.
  induction l as [|y l IH]; simpl; [done|]. by destruct (f y).
Qed.

Lemma find_isRejectionOf (ps : list nat) (log : list (nat * Result nat)) (x : nat * Result nat) :
  List.find (isRejectionOf ps) log = Some x ->
  exists q e, x = (q, Rejected e) /\ q ∈ ps /\ (q, Rejected e) ∈ log.
Proof.
  induction log as [|[q r] log IH]; simpl; [done|].
  destruct r as [v|e]; simpl.
  - intros H. destruct (IH H) as (q' & e' & -> & Hq & Hin). exists q', e'.
    repeat split; try done. by right.
  - destruct (bool_decide (q ∈ ps)) eqn:E.
    + intros [= <-]. apply bool_decide_eq_true_1 in E. exists q, e.
      repeat split; try done. by left.
    + intros H. destruct (IH H) as (q' & e' & -> & Hq & Hin). exists q', e'.
      repeat split; try done. by right.
Qed.

Lemma find_isRejectionOf_Some (ps : list nat) (log : list (nat * Result nat))
    (p : nat) (e0 : Error) :
  p ∈ ps -> (p, Rejected e0) ∈ log -> is_Some (List.find (isRejectionOf ps) log).
Proof.
  intros Hp. induction log as [|[q r] log IH]; intros Hin; [by apply elem_of_nil in Hin|].
  apply elem_of_cons in Hin as [[= <- <-]|Hin]; simpl.
  - by rewrite bool_decide_eq_true_2.
  - destruct r as [v|e]; simpl; [by apply IH|].
    destruct (bool_decide (q ∈ ps)); [done|by apply IH].
Qed.

Lemma promiseAll_Rejected (log : list (nat * Result nat)) (ps : list nat) (e : Error) :
  promiseAll log ps = Some (Rejected e) <->
  exists q, List.find (isRejectionOf ps) log = Some (q, Rejected e).
Proof.
  unfold promiseAll. split.
  - destruct (List.find (isRejectionOf ps) log) as [[q [v|e']]|] eqn:E.
    + apply find_isRejectionOf in E as (? & ? & [=] & _).
    + intros [= ->]. eauto.
    + destruct (mapM _ ps); simpl; done.
  - intros (q & ->). done.
Qed.

Lemma promiseAll_Rejected_app (log new : list (nat * Result nat)) (ps : list nat) (e : Error) :
  promiseAll log ps = Some (Rejected e) -> promiseAll (log ++ new) ps = Some (Rejected e).
Proof.
  rewrite !promiseAll_Rejected. intros (q & H). exists q. by apply find_app_Some.
Qed.

Lemma step_subscribed (e : Event) (w : World) :
  exists new, subscribed (step e w) = subscribed w ++ new.
Proof.
  destruct e as [t c o|subId|id reply|m msg|k]; simpl.
  - destruct (subscribe_spec t c o w) as (_ & _ & _ & _ & _ & _ & _ & _ & _ & _ & H).
    rewrite H. destruct (0 <? _); [eauto|]. exists []. by rewrite app_nil_r.
  - destruct (unsubscribe_spec subId w) as [|m c l w' _ _ _ _ _ _ _ _ _ _ _ H _]; simpl;
      [|rewrite H]; exists []; by rewrite app_nil_r.
  - destruct (takeFrame id (awaiting w)) as [[f r]|]; [|exists []; by rewrite app_nil_r].
    destruct (subscribeResume_spec f reply (with_awaiting r w))
      as (_ & _ & _ & _ & _ & _ & _ & _ & _ & r' & H).
    rewrite H. eauto.
  - exists []. by rewrite app_nil_r.
  - destruct (handling w !! k) as [f|]; [|exists []; by rewrite app_nil_r].
    destruct (handleMessageResume_frame f (with_handling (delete k (handling w)) w))
      as (_ & _ & _ & H & _).
    rewrite H. exists []. by rewrite app_nil_r.
Qed.

Lemma sessionStep_rejected (ev : SessionEvent) (s : Session) (e : Error) :
  registrationRejected s e ->
  registrationRejected (sessionStep ev s) e /\
  iterator (sessionStep ev s) = iterator s /\
  pubsub (sessionStep ev s) = run (engineEvents [ev]) (pubsub s) /\
  exists new, settled (sessionStep ev s) = settled s ++ new /\
              Forall (fun x => snd x = Rejected e) new.
Proof.
  unfold registrationRejected. intros H.
  destruct ev as [ee| | |err|event|]; simpl;
    try (repeat split; try done; exists []; by rewrite app_nil_r).
  - destruct (step_subscribed ee (pubsub s)) as (new & Hnew).
    repeat split; try done; [|exists []; by rewrite app_nil_r].
    rewrite Hnew. by apply promiseAll_Rejected_app.
  - destruct (reactions s) as [|r rest];
      [repeat split; try done; exists []; by rewrite app_nil_r|].
    unfold react. rewrite H.
    destruct r as [p|p|p err|event]; simpl;
      (repeat split; try done);
      try (exists []; by rewrite app_nil_r);
      (eexists; split; [done|]; by repeat constructor).
Qed.

Lemma sessionRun_rejected (evs : list SessionEvent) (s : Session) (e : Error) :
  registrationRejected s e ->
  registrationRejected (sessionRun evs s) e /\
  iterator (sessionRun evs s) = iterator s /\
  pubsub (sessionRun evs s) = run (engineEvents evs) (pubsub s) /\
  exists new, settled (sessionRun evs s) = settled s ++ new /\
              Forall (fun x => snd x = Rejected e) new.
Proof.
  revert s. induction evs as [|ev evs IH]; intros s H.
  - repeat split; try done. exists []. by rewrite app_nil_r.
  - destruct (sessionStep_rejected ev s e H) as (Hr & Hi & Hw & new & Hs & HF).
    destruct (IH _ Hr) as (Hr' & Hi' & Hw' & new' & Hs' & HF').
    rewrite sessionRun_cons, engineEvents_cons_run. repeat split; try done.
    + by rewrite Hi', Hi.
    + by rewrite Hw', Hw.
    + exists (new ++ new'). rewrite Hs', Hs, <- app_assoc. split; [done|].
      by apply Forall_app.
Qed.

Lemma drain_rejected (n : nat) (s : Session) (e : Error) :
  registrationRejected s e -> length (reactions s) = n ->
  settled (sessionRun (replicate n SReact) s) = settled s ++ rejections e (reactions s).
Proof.
  revert s. induction n as [|n IH]; intros s H Hn.
  - destruct (reactions s); [|done]. simpl. by rewrite app_nil_r.
  - destruct (reactions s) as [|r rest] eqn:Er; [done|]. simpl in Hn.
    change (replicate (S n) SReact) with (SReact :: replicate n SReact).
    rewrite sessionRun_cons.
    destruct (sessionStep_rejected SReact s e H) as (Hr & _).
    rewrite (IH _ Hr).
    + simpl. rewrite Er. unfold react. unfold registrationRejected in H. rewrite H.
      destruct r as [p|p|p err|event]; simpl; by rewrite <- ?app_assoc.
    + simpl. rewrite Er. unfold react. unfold registrationRejected in H. rewrite H.
      destruct r as [p|p|p err|event]; simpl; lia.
Qed.

Lemma rejections_app (e : Error) (rs rs' : list Reaction) :
  rejections e (rs ++ rs') = rejections e rs ++ rejections e rs'.
Proof. unfold rejections. by rewrite omap_app. Qed.

(** C10.  When one of the [subscribe] promises the session waits for is
    rejected, [allSubscribed] is rejected with the error [e] of the first
    rejection among them, and from then on, whatever happens: it stays
    rejected with [e]; the iterator (queues, [listening]) never changes and
    the engine changes only by its own events, so nothing is unsubscribed and
    no queue is emptied; every promise that settles is rejected with [e], so
    nothing is yielded; and the promise of a [next()], [return()] or
    [throw(err)] is rejected with [e] once the chained callbacks had their
    turn. *)
Theorem rejected_registration_rejects_all (s : Session) (p : nat) (e0 : Error) :
  p ∈ allSubscribed (iterator s) ->
  (p, Rejected e0) ∈ subscribed (pubsub s) ->
  exists q e,
    q ∈ allSubscribed (iterator s) /\ (q, Rejected e) ∈ subscribed (pubsub s) /\
    registrationRejected s e /\
    forall evs,
      registrationRejected (sessionRun evs s) e /\
      iterator (sessionRun evs s) = iterator s /\
      pubsub (sessionRun evs s) = run (engineEvents evs) (pubsub s) /\
      (exists new, settled (sessionRun evs s) = settled s ++ new /\
                   Forall (fun x => snd x = Rejected e) new) /\
      (forall call,
         call = SNext \/ call = SReturn \/ (exists err, call = SThrow err) ->
         (promises (sessionRun evs s), Rejected e)
           ∈ settled (drain (sessionStep call (sessionRun evs s)))).
Proof.
  intros Hp Hin.
  destruct (find_isRejectionOf_Some _ _ p e0 Hp Hin) as [x Hx].
  destruct (find_isRejectionOf _ _ _ Hx) as (q & e & -> & Hq & Hqin).
  assert (registrationRejected s e) as Hrej.
  { apply promiseAll_Rejected. eauto. }
  exists q, e. split; [done|]. split; [done|]. split; [done|]. intros evs.
  destruct (sessionRun_rejected evs s e Hrej) as (Hr & Hi & Hw & Hs).
  split; [done|]. split; [done|]. split; [done|]. split; [done|].
  intros call Hcall. clear Hi Hw Hs.
  set (s' := sessionRun evs s) in *. clearbody s'.
  destruct (sessionStep_rejected call s' e Hr) as (Hr' & _).
  unfold drain. rewrite (drain_rejected _ _ e Hr' eq_refl).
  apply elem_of_app. right.
  destruct Hcall as [->|[->|(err & ->)]]; simpl; rewrite rejections_app;
    apply elem_of_app; right; by left.
Qed.

Lemma rejected_registration_rejects_all_witness :
  exists q e,
    q ∈ allSubscribed (iterator rejectedSession) /\
    (q, Rejected e) ∈ subscribed (pubsub rejectedSession) /\
    registrationRejected rejectedSession e /\
    forall evs,
      registrationRejected (sessionRun evs rejectedSession) e /\
      iterator (sessionRun evs rejectedSession) = iterator rejectedSession /\
      pubsub (sessionRun evs rejectedSession) =
        run (engineEvents evs) (pubsub rejectedSession) /\
      (exists new, settled (sessionRun evs rejectedSession) =
                     settled rejectedSession ++ new /\
                   Forall (fun x => snd x = Rejected e) new) /\
      (forall call,
         call = SNext \/ call = SReturn \/ (exists err, call = SThrow err) ->
         (promises (sessionRun evs rejectedSession), Rejected e)
           ∈ settled (drain (sessionStep call (sessionRun evs rejectedSession)))).
Proof.
  apply (rejected_registration_rejects_all rejectedSession 0 (BrokerError 3)).
  - vm_compute. by left.
  - vm_compute. by left.
Defined.

(** * Further properties of the engine *)

(** ** The registry in every reachable state *)

Lemma step_config (e : Event) (w : World) :
  topic2SubName (engine (step e w)) = topic2SubName (engine w) /\
  commonMessageHandler (engine (step e w)) = commonMessageHandler (engine w).
Proof.
  destruct e as [t c o|subId|id reply|m msg|k]; simpl.
  - by destruct (subscribe_spec t c o w) as (_ & _ & _ & _ & -> & -> & _).
  - destruct (unsubscribe_spec subId w) as [|m c l w' _ _ _ _ _ _ _ Ht Hc _ _ _ _];
      simpl; [done|by rewrite Ht, Hc].
  - destruct (takeFrame id (awaiting w)) as [[f r]|]; [|done].
    by destruct (subscribeResume_spec f reply (with_awaiting r w))
      as (_ & _ & _ & _ & -> & -> & _).
  - done.
  - destruct (handling w !! k) as [f|]; [|done].
    by destruct (handleMessageResume_frame f (with_handling (delete k (handling w)) w))
      as (-> & _).
Qed.

Lemma run_config (evs : list Event) (w : World) :
  topic2SubName (engine (run evs w)) = topic2SubName (engine w) /\
  commonMessageHandler (engine (run evs w)) = commonMessageHandler (engine w).
Proof.
  revert w. induction evs as [|e evs IH]; intros w; [done|].
  rewrite run_cons. destruct (IH (step e w)) as [-> ->]. apply step_config.
Qed.

Lemma wellFormed_listenerIds (w : World) (id : nat) (m : string) :
  wellFormed w ->
  (id ∈ listenerIds m w <->
   exists c, clientId2GoogleSubNameAndClientCallback (engine w) !! id = Some (m, c)).
Proof.
  intros Hwf. unfold listenerIds, entryOrEmpty. split.
  - destruct (googleSubName2GoogleSubAndClientIds (engine w) !! m) as [e|] eqn:E;
      simpl; [|by intros ?%elem_of_nil].
    destruct (wf_entry _ Hwf m e E) as (l & -> & _ & _ & Hmem). simpl. apply Hmem.
  - intros (c & Hc). destruct (wf_client _ Hwf id m c Hc) as (e & l & E & Hl & Hin).
    rewrite E. simpl. by rewrite Hl.
Qed.

(** X1.  In every state an engine reaches from its construction, the two
    registries agree: an id is in the listener list of a name exactly when
    its record exists and carries that name; no list holds an id twice; and a
    name has an entry exactly when some record carries it. *)
Theorem registry_consistent (t2s : string -> option Options -> string)
    (cmh : Message -> Result Value) (evs : list Event) :
  let w := run evs (newWorld (newGooglePubSub t2s cmh)) in
  (forall id m,
     id ∈ listenerIds m w <->
     exists c, clientId2GoogleSubNameAndClientCallback (engine w) !! id = Some (m, c)) /\
  (forall m, NoDup (listenerIds m w)) /\
  (forall m,
     is_Some (googleSubName2GoogleSubAndClientIds (engine w) !! m) <->
     exists id c, clientId2GoogleSubNameAndClientCallback (engine w) !! id = Some (m, c)).
Proof.
  intros w.
  assert (wellFormed w) as Hwf by (apply run_wellFormed; by apply wellFormed_new).
  split; [|split].
  - intros id m. by apply wellFormed_listenerIds.
  - intros m. unfold listenerIds, entryOrEmpty.
    destruct (googleSubName2GoogleSubAndClientIds (engine w) !! m) as [e|] eqn:E;
      simpl; [|constructor].
    by destruct (wf_entry _ Hwf m e E) as (l & -> & _ & HND & _).
  - intros m. split.
    + intros [e E]. destruct (wf_entry _ Hwf m e E) as (l & _ & Hnil & _ & Hmem).
      destruct l as [|x l]; [done|]. exists x. apply Hmem. by left.
    + intros (id & c & Hc). destruct (wf_client _ Hwf id m c Hc) as (e & l & -> & _).
      eauto.
Qed.

(** ** Listener ids *)

Lemma run_counter (evs : list Event) (w : World) :
  currentClientId (engine (run evs w)) =
  currentClientId (engine w) + countIf isSubscribeEvent evs.
Proof.
  revert w. induction evs as [|e evs IH]; intros w.
  - unfold run. simpl. rewrite countIf_nil. lia.
  - rewrite run_cons, IH, countIf_cons.
    destruct e as [t c o|subId|id reply|m msg|k]; simpl.
    + destruct (subscribe_spec t c o w) as (_ & _ & _ & -> & _). lia.
    + destruct (unsubscribe_spec subId w) as [|m c l w' _ _ _ _ _ _ Hn _ _ _ _ _ _];
        simpl; rewrite ?Hn; lia.
    + destruct (takeFrame id (awaiting w)) as [[f r]|]; [|lia].
      destruct (subscribeResume_spec f reply (with_awaiting r w)) as (_ & _ & _ & -> & _).
      simpl. lia.
    + lia.
    + destruct (handling w !! k) as [f|]; [|lia].
      destruct (handleMessageResume_frame f (with_handling (delete k (handling w)) w))
        as (-> & _). simpl. lia.
Qed.

(** X2.  Listener ids are issued in call order and never reused: after any
    events on a new engine, [subscribe] answers the number of [subscribe]
    calls made before it; that id has no record yet and is in no listener
    list; afterwards it is recorded with the derived name and the callback,
    at the end of the list of that name. *)
Theorem subscribe_issues_next_id (t2s : string -> option Options -> string)
    (cmh : Message -> Result Value) (evs : list Event)
    (t : string) (c : Callback) (o : option Options) :
  let w := run evs (newWorld (newGooglePubSub t2s cmh)) in
  let id := snd (subscribe t c o w) in
  let w' := fst (subscribe t c o w) in
  id = countIf isSubscribeEvent evs /\
  clientId2GoogleSubNameAndClientCallback (engine w) !! id = None /\
  (forall m, id ∉ listenerIds m w) /\
  clientId2GoogleSubNameAndClientCallback (engine w') !! id = Some (t2s t o, c) /\
  listenerIds (t2s t o) w' = listenerIds (t2s t o) w ++ [id].
Proof.
  intros w id w'.
  assert (wellFormed w) as Hwf by (apply run_wellFormed; by apply wellFormed_new).
  destruct (subscribe_spec t c o w) as (Hid & _ & Hcl & _).
  assert (topic2SubName (engine w) = t2s) as Ht by apply (run_config evs).
  fold id in Hid. fold w' in Hcl. rewrite Ht in Hcl.
  assert (clientId2GoogleSubNameAndClientCallback (engine w) !! id = None) as Hnone.
  { apply (wf_fresh _ Hwf). lia. }
  split; [|split; [done|split; [|split]]].
  - rewrite Hid. unfold w. by rewrite run_counter.
  - intros m Hin. apply (wellFormed_listenerIds w id m Hwf) in Hin as (c' & Hc').
    congruence.
  - rewrite Hcl, Hid. apply lookup_insert_eq.
  - rewrite Hid. rewrite <- Ht. apply subscribe_appends.
Qed.

(** ** [subscribe] then [unsubscribe] *)

Lemma withoutId_snoc (id : nat) (l : list nat) :
  id ∉ l -> withoutId id (l ++ [id]) = l.
Proof.
  induction l as [|x l IH]; intros Hid; simpl.
  - rewrite withoutId_cons, Nat.eqb_refl. done.
  - rewrite withoutId_cons. apply not_elem_of_cons in Hid as [Hne Hid].
    replace (x =? id) with false by (symmetry; apply Nat.eqb_neq; congruence).
    by rewrite IH.
Qed.

Lemma length_withoutId_elem (id : nat) (l : list nat) :
  id ∈ l -> S (length (withoutId id l)) = length l.
Proof.
  induction l as [|x l IH]; intros Hid; [by apply elem_of_nil in Hid|].
  rewrite withoutId_cons. destruct (x =? id) eqn:E; [done|].
  apply Nat.eqb_neq in E. apply elem_of_cons in Hid as [->|Hid]; [done|].
  simpl. by rewrite IH.
Qed.

(** X3.  On a well-formed engine and under a non-empty derived name, a
    listener that subscribes and is unsubscribed right away leaves both
    registries as they were: the [unsubscribe] returns, the records and the
    entries are those from before the [subscribe], and no handler was
    attached or detached.  What remains of the [subscribe] depends on the
    name: when it had a listener, the promise was fulfilled at once and the
    broker was not asked; when it had none, [getSubscription] was called
    and the activation of [subscribe] stays suspended on the broker's
    answer, with its promise unsettled. *)
Theorem subscribe_unsubscribe_restores (t : string) (c : Callback) (o : option Options)
    (w : World) :
  wellFormed w ->
  topic2SubName (engine w) t o <> ""%string ->
  exists w2,
    unsubscribe (snd (subscribe t c o w)) (fst (subscribe t c o w)) = (w2, None) /\
    clientId2GoogleSubNameAndClientCallback (engine w2) =
      clientId2GoogleSubNameAndClientCallback (engine w) /\
    googleSubName2GoogleSubAndClientIds (engine w2) =
      googleSubName2GoogleSubAndClientIds (engine w) /\
    effects w2 = effects w /\
    (1 <= listeners (topic2SubName (engine w) t o) w ->
     awaiting w2 = awaiting w /\
     subscribed w2 = subscribed w ++ [(currentClientId (engine w),
                                       Fulfilled (currentClientId (engine w)))]) /\
    (listeners (topic2SubName (engine w) t o) w = 0 ->
     awaiting w2 = awaiting w ++ [{| sfTopicName := t;
                                     sfSubName := topic2SubName (engine w) t o;
                                     sfId := currentClientId (engine w) |}] /\
     subscribed w2 = subscribed w).
Proof.
  intros Hwf Hname.
  destruct (subscribe_spec t c o w)
    as (Hid & Hs & Hcl & _ & _ & _ & He & _ & _ & Haw & Hsb).
  set (m := topic2SubName (engine w) t o) in *.
  set (id := currentClientId (engine w)) in *.
  set (w1 := fst (subscribe t c o w)) in *. clearbody w1. rewrite Hid. clear Hid.
  assert (clientId2GoogleSubNameAndClientCallback (engine w) !! id = None) as Hnone.
  { apply (wf_fresh _ Hwf). unfold id. lia. }
  assert (id ∉ listenerIds m w) as Hnotin.
  { intros Hin. apply (wellFormed_listenerIds w id m Hwf) in Hin as (c' & Hc').
    congruence. }
  assert (entryOrEmpty (engine w1) m = subscribedEntry m id w) as Hentry.
  { unfold entryOrEmpty. by rewrite Hs, lookup_insert_eq. }
  destruct (unsubscribe_spec id w1)
    as [Hthrow|m' c' l w2 Hl1 _ Hl Hcl2 Hs2 He2 _ _ _ Haw2 _ Hsb2 _].
  { destruct (Hthrow m c) as [?|Hn]; [by rewrite Hcl, lookup_insert_eq|done|].
    by rewrite Hentry in Hn. }
  rewrite Hcl, lookup_insert_eq in Hl1. injection Hl1 as <- <-.
  rewrite Hentry in Hl, He2. simpl in Hl. injection Hl as <-.
  exists w2. split; [done|]. split; [|split; [|split; [|split]]].
  4:{ intros Hge. rewrite Haw2, Hsb2, Haw, Hsb.
      assert ((0 <? listeners m w) = true) as ->; [by apply Nat.ltb_lt|done]. }
  4:{ intros H0. rewrite Haw2, Hsb2, Haw, Hsb. by rewrite H0. }
  - rewrite Hcl2, Hcl. by apply delete_insert_id.
  - rewrite Hs2, Hs. unfold listenerIds, entryOrEmpty in *.
    destruct (googleSubName2GoogleSubAndClientIds (engine w) !! m) as [e|] eqn:E; simpl in *.
    + destruct (wf_entry _ Hwf m e E) as (l & Hl & Hnil & _ & _).
      rewrite Hl in *. simpl in *.
      replace (length (l ++ [id]) =? 1) with false.
      2:{ symmetry. apply Nat.eqb_neq. rewrite length_app. simpl.
          destruct l; [done|simpl; lia]. }
      rewrite insert_insert_eq. apply insert_id. rewrite E. f_equal.
      unfold shrunkEntry, entryOrEmpty. rewrite Hs, lookup_insert_eq. simpl.
      unfold entryOrEmpty. rewrite E. simpl. rewrite withoutId_snoc by done. destruct e. simpl in *.
      by rewrite Hl.
    + simpl. by apply delete_insert_id.
  - rewrite He2, He. unfold listenerIds, entryOrEmpty in *.
    destruct (googleSubName2GoogleSubAndClientIds (engine w) !! m) as [e|] eqn:E; simpl in *.
    + destruct (wf_entry _ Hwf m e E) as (l & Hl & Hnil & _ & _).
      rewrite Hl. simpl.
      replace (length (l ++ [id]) =? 1) with false; [done|].
      symmetry. apply Nat.eqb_neq. rewrite length_app. simpl.
      destruct l; [done|simpl; lia].
    + simpl. unfold detachEffects, subscribedEntry, entryOrEmpty. rewrite E. simpl.
      by rewrite app_nil_r.
Qed.

Lemma subscribe_unsubscribe_restores_witness :
  listeners posts world0 = 0 /\
  exists w2,
    unsubscribe (snd (subscribe "Posts" (cb 1) None world0))
      (fst (subscribe "Posts" (cb 1) None world0)) = (w2, None) /\
    clientId2GoogleSubNameAndClientCallback (engine w2) =
      clientId2GoogleSubNameAndClientCallback (engine world0) /\
    googleSubName2GoogleSubAndClientIds (engine w2) =
      googleSubName2GoogleSubAndClientIds (engine world0) /\
    effects w2 = effects world0 /\
    (1 <= listeners (topic2SubName (engine world0) "Posts" None) world0 ->
     awaiting w2 = awaiting world0 /\
     subscribed w2 = subscribed world0 ++ [(currentClientId (engine world0),
                                            Fulfilled (currentClientId (engine world0)))]) /\
    (listeners (topic2SubName (engine world0) "Posts" None) world0 = 0 ->
     awaiting w2 = awaiting world0 ++
                   [{| sfTopicName := "Posts";
                       sfSubName := topic2SubName (engine world0) "Posts" None;
                       sfId := currentClientId (engine world0) |}] /\
     subscribed w2 = subscribed world0).
Proof.
  split; [reflexivity|].
  apply (subscribe_unsubscribe_restores "Posts" (cb 1) None world0).
  - by apply wellFormed_new.
  - done.
Defined.

(** ** [unsubscribe] of one listener among several, and of the last one *)

(** X4.  On a well-formed engine, [unsubscribe] of an id recorded under a
    non-empty name that has at least two listeners returns, removes exactly
    that id from the list, keeping the others in their order, leaves the
    [sub] and the handlers of the entry in place, and calls nothing on the
    subscription. *)
Theorem unsubscribe_keeps_other_listeners (id : nat) (m : string) (c : Callback)
    (w : World) :
  wellFormed w ->
  clientId2GoogleSubNameAndClientCallback (engine w) !! id = Some (m, c) ->
  m <> ""%string ->
  2 <= listeners m w ->
  exists w',
    unsubscribe id w = (w', None) /\
    listenerIds m w' = withoutId id (listenerIds m w) /\
    sublist (listenerIds m w') (listenerIds m w) /\
    (forall x, x ∈ listenerIds m w' <-> x ∈ listenerIds m w /\ x <> id) /\
    S (listeners m w') = listeners m w /\
    sub (entryOrEmpty (engine w') m) = sub (entryOrEmpty (engine w) m) /\
    messageHandler (entryOrEmpty (engine w') m) = messageHandler (entryOrEmpty (engine w) m) /\
    effects w' = effects w.
Proof.
  intros Hwf Hid Hm H2.
  destruct (wf_client _ Hwf id m c Hid) as (e & l & E & Hl & Hin).
  destruct (wf_entry _ Hwf m e E) as (l' & Hl' & _ & HND & _).
  rewrite Hl in Hl'. injection Hl' as <-.
  assert (listenerIds m w = l) as HL.
  { unfold listenerIds, entryOrEmpty. rewrite E. simpl. by rewrite Hl. }
  unfold listeners in *. rewrite HL in *.
  destruct (unsubscribe_spec id w)
    as [Hthrow|m' c' l0 w' Hl1 _ Hl2 _ Hs He _ _ _ _ _ _ _].
  { destruct (Hthrow m c Hid) as [?|Hn]; [done|].
    unfold entryOrEmpty in Hn. rewrite E in Hn. simpl in Hn. congruence. }
  rewrite Hid in Hl1. injection Hl1 as <- <-.
  unfold entryOrEmpty in Hl2. rewrite E in Hl2. simpl in Hl2. rewrite Hl in Hl2.
  injection Hl2 as <-.
  replace (length l =? 1) with false in * by (symmetry; apply Nat.eqb_neq; lia).
  assert (entryOrEmpty (engine w') m = shrunkEntry m id l w) as Hentry.
  { unfold entryOrEmpty. by rewrite Hs, lookup_insert_eq. }
  assert (listenerIds m w' = withoutId id l) as HL'.
  { unfold listenerIds. by rewrite Hentry. }
  exists w'. rewrite HL', Hentry. repeat split; try done.
  - apply withoutId_sublist.
  - by apply (elem_of_withoutId id).
  - intros ->. by apply (NoDup_withoutId id l HND).
  - intros [? ?]. by apply elem_of_withoutId_ne.
  - by apply length_withoutId_elem.
Qed.

Lemma unsubscribe_keeps_other_listeners_witness :
  exists w',
    unsubscribe 0 twoAttached = (w', None) /\
    listenerIds posts w' = withoutId 0 (listenerIds posts twoAttached) /\
    sublist (listenerIds posts w') (listenerIds posts twoAttached) /\
    (forall x, x ∈ listenerIds posts w' <-> x ∈ listenerIds posts twoAttached /\ x <> 0) /\
    S (listeners posts w') = listeners posts twoAttached /\
    sub (entryOrEmpty (engine w') posts) = sub (entryOrEmpty (engine twoAttached) posts) /\
    messageHandler (entryOrEmpty (engine w') posts) =
      messageHandler (entryOrEmpty (engine twoAttached) posts) /\
    effects w' = effects twoAttached.
Proof.
  apply (unsubscribe_keeps_other_listeners 0 posts (cb 0) twoAttached).
  - apply run_wellFormed. by apply wellFormed_new.
  - reflexivity.
  - done.
  - vm_compute. lia.
Defined.

Lemma step_effects (e : Event) (w : World) :
  exists es, effects (step e w) = effects w ++ es.
Proof.
  destruct e as [t c o|subId|id reply|m msg|k]; simpl.
  - destruct (subscribe_spec t c o w) as (_ & _ & _ & _ & _ & _ & -> & _).
    exists []. by rewrite app_nil_r.
  - destruct (unsubscribe_spec subId w) as [|m c l w' _ _ _ _ _ He _ _ _ _ _ _ _]; simpl.
    + exists []. by rewrite app_nil_r.
    + rewrite He. destruct (length l =? 1); [eauto|]. exists []. by rewrite app_nil_r.
  - destruct (takeFrame id (awaiting w)) as [[f r]|]; [|exists []; by rewrite app_nil_r].
    destruct (subscribeResume_spec f reply (with_awaiting r w)) as (_ & -> & _).
    destruct (attaches _ _ _); [eauto|]. exists []. by rewrite app_nil_r.
  - exists [Ack msg; Transform msg]. by rewrite <- app_assoc.
  - destruct (handling w !! k) as [f|]; [|exists []; by rewrite app_nil_r].
    destruct (handleMessageResume_frame f (with_handling (delete k (handling w)) w))
      as (_ & _ & _ & _ & es & -> & _). eauto.
Qed.

Lemma handlersAttached_grow (w w' : World) (es : list Effect) :
  googleSubName2GoogleSubAndClientIds (engine w') =
    googleSubName2GoogleSubAndClientIds (engine w) ->
  effects w' = effects w ++ es ->
  handlersAttached w -> handlersAttached w'.
Proof.
  intros Hs He H m e s E Es. rewrite Hs in E.
  destruct (H m e s E Es) as (a & Hm & Herr & H1 & H2).
  exists a. rewrite He, !elem_of_app. auto.
Qed.

Lemma step_handlersAttached (e : Event) (w : World) :
  handlersAttached w -> handlersAttached (step e w).
Proof.
  intros H. destruct e as [t c o|subId|id reply|n msg|k]; simpl.
  - destruct (subscribe_spec t c o w) as (_ & Hs & _ & _ & _ & _ & He & _).
    intros m e s. rewrite Hs, He. unfold subscribedEntry, entryOrEmpty.
    destruct (decide (topic2SubName (engine w) t o = m)) as [<-|Hne].
    + rewrite lookup_insert_eq. intros [= <-]. simpl.
      destruct (googleSubName2GoogleSubAndClientIds (engine w) !! _) eqn:E; [|done].
      simpl. by apply H.
    + rewrite lookup_insert_ne by done. apply H.
  - destruct (unsubscribe_spec subId w) as [|m0 c l w' _ _ _ _ Hs He _ _ _ _ _ _ _];
      [done|]. simpl.
    assert (exists es, effects w' = effects w ++ es) as (es & Hes).
    { rewrite He. destruct (length l =? 1); [eauto|]. exists []. by rewrite app_nil_r. }
    intros m e s. rewrite Hs, Hes. unfold shrunkEntry, entryOrEmpty.
    assert (forall e0, googleSubName2GoogleSubAndClientIds (engine w) !! m = Some e0 ->
              sub e0 = Some s ->
              exists a, messageHandler e0 = Some (HandleMessage m a) /\
                        errorHandler e0 = Some (ErrorHandler a) /\
                        On s MessageEvent (HandleMessage m a) ∈ effects w ++ es /\
                        On s ErrorEvent (ErrorHandler a) ∈ effects w ++ es) as H'.
    { intros e0 E0 Es0. destruct (H m e0 s E0 Es0) as (a & ? & ? & ? & ?).
      exists a. rewrite !elem_of_app. auto. }
    destruct (length l =? 1).
    + destruct (decide (m0 = m)) as [<-|Hne];
        [by rewrite lookup_delete_eq|rewrite lookup_delete_ne by done; apply H'].
    + destruct (decide (m0 = m)) as [<-|Hne].
      * rewrite lookup_insert_eq. intros [= <-]. simpl.
        destruct (googleSubName2GoogleSubAndClientIds (engine w) !! _) eqn:E; [|done].
        simpl. by apply H'.
      * rewrite lookup_insert_ne by done. apply H'.
  - destruct (takeFrame id (awaiting w)) as [[f r]|]; [|done].
    destruct (subscribeResume_spec f reply (with_awaiting r w)) as (Hs & He & _).
    simpl in Hs, He.
    destruct (attaches f reply (with_awaiting r w)) as [s0|];
      [|by apply (handlersAttached_grow w _ []); rewrite ?app_nil_r].
    intros m e s. rewrite Hs, He.
    destruct (decide (sfSubName f = m)) as [<-|Hne].
    + rewrite lookup_insert_eq. intros [= <-]. simpl. intros [= <-].
      exists (sfId f). rewrite !elem_of_app, !elem_of_cons. auto 10.
    + rewrite lookup_insert_ne by done. intros E Es.
      destruct (H m e s E Es) as (a & ? & ? & ? & ?).
      exists a. rewrite !elem_of_app. auto.
  - destruct (handleMessage_spec n msg w) as (Hg & _ & He & _).
    eapply handlersAttached_grow; [by rewrite Hg|exact He|done].
  - destruct (handling w !! k) as [f|]; [|done].
    destruct (handleMessageResume_frame f (with_handling (delete k (handling w)) w))
      as (Hg & _ & _ & _ & es & He & _).
    eapply handlersAttached_grow; [by rewrite Hg|exact He|done].
Qed.

Lemma run_handlersAttached (evs : list Event) (w : World) :
  handlersAttached w -> handlersAttached (run evs w).
Proof.
  revert w. induction evs as [|e evs IH]; intros w H; [done|].
  rewrite run_cons. by apply IH, step_handlersAttached.
Qed.

(** X5.  In every state an engine reaches from its construction,
    [unsubscribe] of the only listener of a non-empty name returns and
    deletes both the entry and the record.  When the entry holds a [sub], it
    calls [removeListener] on that [sub] for ['message'] and then for
    ['error'], with the very two handlers an earlier [subscribe] passed to
    [sub.on] on that same [sub]; when handlers were never attached, it calls
    nothing. *)
Theorem unsubscribe_last_detaches_what_was_attached
    (t2s : string -> option Options -> string) (cmh : Message -> Result Value)
    (evs : list Event) (id : nat) (m : string) (c : Callback) :
  let w := run evs (newWorld (newGooglePubSub t2s cmh)) in
  clientId2GoogleSubNameAndClientCallback (engine w) !! id = Some (m, c) ->
  m <> ""%string ->
  listeners m w = 1 ->
  exists w',
    unsubscribe id w = (w', None) /\
    googleSubName2GoogleSubAndClientIds (engine w') !! m = None /\
    clientId2GoogleSubNameAndClientCallback (engine w') !! id = None /\
    match sub (entryOrEmpty (engine w) m) with
    | Some s =>
        exists a,
          effects w' = effects w ++
            [RemoveListener s MessageEvent (Some (HandleMessage m a));
             RemoveListener s ErrorEvent (Some (ErrorHandler a))] /\
          On s MessageEvent (HandleMessage m a) ∈ effects w /\
          On s ErrorEvent (ErrorHandler a) ∈ effects w
    | None => effects w' = effects w
    end.
Proof.
  intros w Hid Hm H1.
  assert (wellFormed w) as Hwf by (apply run_wellFormed; by apply wellFormed_new).
  assert (handlersAttached w) as HA.
  { apply run_handlersAttached. intros ? ? ?. simpl. by rewrite lookup_empty. }
  clearbody w.
  destruct (wf_client _ Hwf id m c Hid) as (e & l & E & Hl & Hin).
  unfold listeners, listenerIds in H1. unfold entryOrEmpty in *.
  rewrite E in *. simpl in *. rewrite Hl in H1. simpl in H1.
  destruct (unsubscribe_spec id w)
    as [Hthrow|m' c' l0 w' Hl1 _ Hl2 Hcl Hs He _ _ _ _ _ _ _].
  { destruct (Hthrow m c Hid) as [?|Hn]; [done|].
    unfold entryOrEmpty in Hn. rewrite E in Hn. simpl in Hn. congruence. }
  rewrite Hid in Hl1. injection Hl1 as <- <-.
  unfold entryOrEmpty in Hl2, He. rewrite E in Hl2, He. simpl in Hl2, He.
  rewrite Hl in Hl2. injection Hl2 as <-.
  rewrite H1 in Hs, He. simpl in Hs, He.
  exists w'. split; [done|]. split; [by rewrite Hs, lookup_delete_eq|].
  split; [by rewrite Hcl, lookup_delete_eq|].
  unfold detachEffects in He.
  destruct (sub e) as [s|] eqn:Es; [|by rewrite app_nil_r in He].
  destruct (HA m e s E Es) as (a & Hmh & Heh & Hon1 & Hon2).
  exists a. rewrite He, Hmh, Heh. done.
Qed.

Lemma unsubscribe_last_detaches_what_was_attached_witness :
  exists w',
    unsubscribe 0 (run [ESubscribe "Posts" (cb 0) None; ERoundTrip 0 ExistsYes] world0)
      = (w', None) /\
    effects w' =
      effects (run [ESubscribe "Posts" (cb 0) None; ERoundTrip 0 ExistsYes] world0) ++
      [RemoveListener (ClientSub posts) MessageEvent (Some (HandleMessage posts 0));
       RemoveListener (ClientSub posts) ErrorEvent (Some (ErrorHandler 0))].
Proof.
  destruct (unsubscribe_last_detaches_what_was_attached
              defaultTopic2SubName defaultCommonMessageHandler
              [ESubscribe "Posts" (cb 0) None; ERoundTrip 0 ExistsYes] 0 posts (cb 0))
    as (w' & Hu & _ & _ & H); [reflexivity|done|reflexivity|].
  exists w'. split; [exact Hu|].
  change (sub (entryOrEmpty (engine (run [ESubscribe "Posts" (cb 0) None;
            ERoundTrip 0 ExistsYes] (newWorld (newGooglePubSub defaultTopic2SubName
            defaultCommonMessageHandler)))) posts)) with (Some (ClientSub posts)) in H.
  destruct H as (a & He & Hon & _).
  assert (a = 0) as ->.
  { vm_compute in Hon. apply elem_of_cons in Hon as [[= <-]|Hon]; [done|].
    apply elem_of_cons in Hon as [[=]|Hon]. by apply elem_of_nil in Hon. }
  exact He.
Defined.

(** ** After a rejected round trip *)

Lemma step_unattachedAndIdle (m : string) (e : Event) (w : World) :
  unattachedAndIdle m w = true -> keepsListener m e w = true ->
  unattachedAndIdle m (step e w) = true /\ attachCalls m (step e w) = attachCalls m w.
Proof.
  unfold unattachedAndIdle, keepsListener.
  intros [[HL HA%negb_true_iff]%andb_true_iff HP%Nat.eqb_eq]%andb_true_iff HK.
  rewrite HK. simpl.
  enough (attached m (step e w) = false /\ pendingRoundTrips m (step e w) = 0 /\
          attachCalls m (step e w) = attachCalls m w) as (-> & -> & ->) by done.
  apply Nat.ltb_lt in HL. clear HK.
  destruct e as [t c o|subId|id reply|n msg|k]; simpl.
  - destruct (subscribe_spec t c o w) as (_ & Hs & _ & _ & _ & _ & He & _ & _ & Ha & _).
    set (m' := topic2SubName (engine w) t o) in *.
    set (w' := fst (subscribe t c o w)) in *. clearbody w'.
    unfold subscribedEntry in Hs. unfold_obs. rewrite Hs, He, Ha.
    destruct (decide (m' = m)) as [->|Hne].
    + rewrite lookup_insert_eq. simpl.
      replace (0 <? _) with true by (symmetry; by apply Nat.ltb_lt). done.
    + rewrite lookup_insert_ne by done. split; [done|]. split; [|done].
      destruct (0 <? _); [done|]. rewrite countIf_app, countIf_cons, countIf_nil. simpl.
      apply String.eqb_neq in Hne. rewrite Hne. lia.
  - destruct (unsubscribe_spec subId w) as [|m' c l w' _ _ Hl _ Hs He _ _ _ Ha _ _ _];
      [done|]. simpl.
    assert (countIf (isAttach m) (effects w') = countIf (isAttach m) (effects w)) as HE.
    { rewrite He. destruct (length l =? 1); [|done]. unfold detachEffects.
      destruct (sub _); [|by rewrite app_nil_r].
      rewrite countIf_app, !countIf_cons, countIf_nil. simpl. lia. }
    unfold_obs. rewrite HE, Ha. split; [|done]. rewrite Hs.
    destruct (length l =? 1).
    + destruct (decide (m' = m)) as [->|Hne];
        [by rewrite lookup_delete_eq|by rewrite lookup_delete_ne].
    + destruct (decide (m' = m)) as [->|Hne];
        [by rewrite lookup_insert_eq|by rewrite lookup_insert_ne].
  - destruct (takeFrame id (awaiting w)) as [[f r]|] eqn:Ef; [|done].
    pose proof (takeFrame_count m _ _ _ _ Ef) as Hcnt.
    destruct (subscribeResume_spec f reply (with_awaiting r w))
      as (Hs & He & _ & _ & _ & _ & Ha & _).
    set (w' := subscribeResume f reply (with_awaiting r w)) in *. clearbody w'.
    simpl in *. unfold_obs. rewrite Hs, He, Ha.
    destruct (String.eqb (sfSubName f) m) eqn:Hne; [lia|].
    apply String.eqb_neq in Hne as Hne'.
    split; [|split; [lia|]].
    + destruct (attaches _ _ _); [by rewrite lookup_insert_ne|done].
    + destruct (attaches _ _ _); [|done].
      rewrite countIf_app, !countIf_cons, countIf_nil. simpl. rewrite Hne. lia.
  - unfold_obs. simpl. split; [done|]. split; [done|].
    rewrite !countIf_app, !countIf_cons, countIf_nil. simpl. lia.
  - destruct (handling w !! k) as [f|]; [|done].
    destruct (handleMessageResume_frame f (with_handling (delete k (handling w)) w))
      as (Hg & Ha & _ & _ & es & He & HF). simpl in *.
    unfold_obs. rewrite Hg, Ha, He, countIf_app, (countIf_delivers _ es) by done.
    split; [done|]. split; [done|lia].
Qed.

(** X6.  Once a name has listeners but its entry holds no [sub] and no round
    trip is pending for it, which is what a rejected [getSubscription]
    leaves, it stays so for as long as at least one listener remains: no
    message handler is ever attached for the name, and a [subscribe] for it
    is resolved at once without asking the broker. *)
Theorem rejected_registration_is_never_retried (m : string) (evs : list Event) (w : World) :
  unattachedAndIdle m w = true ->
  always (keepsListener m) evs w = true ->
  unattachedAndIdle m (run evs w) = true /\
  attachCalls m (run evs w) = attachCalls m w /\
  forall t c o,
    topic2SubName (engine (run evs w)) t o = m ->
    awaiting (fst (subscribe t c o (run evs w))) = awaiting (run evs w) /\
    subscribed (fst (subscribe t c o (run evs w))) =
      subscribed (run evs w) ++
      [(snd (subscribe t c o (run evs w)), Fulfilled (snd (subscribe t c o (run evs w))))].
Proof.
  revert w. induction evs as [|e evs IH]; intros w H HK.
  - split; [done|]. split; [done|]. intros t c o Hm.
    destruct (subscribe_spec t c o (run [] w)) as (-> & _ & _ & _ & _ & _ & _ & _ & _ & -> & ->).
    rewrite Hm. unfold unattachedAndIdle in H.
    apply andb_true_iff in H as [[HL _]%andb_true_iff _].
    change (run [] w) with w. by rewrite HL.
  - simpl in HK. apply andb_true_iff in HK as [HK1 HK].
    destruct (step_unattachedAndIdle m e w H HK1) as [H' HA].
    rewrite run_cons. destruct (IH _ H' HK) as (IH1 & IH2 & IH3).
    split; [done|]. split; [by rewrite IH2|done].
Qed.

Lemma rejected_registration_is_never_retried_witness :
  unattachedAndIdle posts rejectedFirstListener = true /\
  (unattachedAndIdle posts
     (run [ESubscribe "Posts" (cb 1) None; EUnsubscribe 0] rejectedFirstListener) = true /\
   attachCalls posts
     (run [ESubscribe "Posts" (cb 1) None; EUnsubscribe 0] rejectedFirstListener) =
     attachCalls posts rejectedFirstListener /\
   forall t c o,
     topic2SubName
       (engine (run [ESubscribe "Posts" (cb 1) None; EUnsubscribe 0] rejectedFirstListener))
       t o = posts ->
     awaiting (fst (subscribe t c o
       (run [ESubscribe "Posts" (cb 1) None; EUnsubscribe 0] rejectedFirstListener))) =
     awaiting (run [ESubscribe "Posts" (cb 1) None; EUnsubscribe 0] rejectedFirstListener) /\
     subscribed (fst (subscribe t c o
       (run [ESubscribe "Posts" (cb 1) None; EUnsubscribe 0] rejectedFirstListener))) =
     subscribed (run [ESubscribe "Posts" (cb 1) None; EUnsubscribe 0] rejectedFirstListener) ++
     [(snd (subscribe t c o
         (run [ESubscribe "Posts" (cb 1) None; EUnsubscribe 0] rejectedFirstListener)),
       Fulfilled (snd (subscribe t c o
         (run [ESubscribe "Posts" (cb 1) None; EUnsubscribe 0] rejectedFirstListener))))]).
Proof.
  split; [reflexivity|].
  apply (rejected_registration_is_never_retried posts
           [ESubscribe "Posts" (cb 1) None; EUnsubscribe 0] rejectedFirstListener);
    reflexivity.
Defined.

(** ** Who receives a message *)

Lemma forEachId_prefix (res : Value) (l : list nat) (w : World) :
  exists l1 cbs,
    l1 `prefix_of` l /\
    Forall2 (fun id c => exists k, clientId2GoogleSubNameAndClientCallback (engine w) !! id
                                   = Some (k, c)) l1 cbs /\
    effects (fst (forEachId res l w)) =
      effects w ++ zip_with (fun id c => Deliver id c res) l1 cbs.
Proof.
  revert w. induction l as [|id l IH]; intros w; simpl.
  - exists [], []. repeat split; [done|constructor|by rewrite app_nil_r].
  - destruct (clientId2GoogleSubNameAndClientCallback (engine w) !! id) as [[k c]|] eqn:E.
    + destruct (cbRun c res).
      * exists [id], [c]. simpl. split; [by apply prefix_cons, prefix_nil|].
        split; [|done]. constructor; [eauto|constructor].
      * destruct (IH (emit [Deliver id c res] w)) as (l1 & cbs & Hp & HF & He).
        exists (id :: l1), (c :: cbs). split; [by apply prefix_cons|].
        split; [constructor; eauto|]. rewrite He. simpl. by rewrite <- app_assoc.
    + exists [], []. simpl. repeat split; [apply prefix_nil|constructor|by rewrite app_nil_r].
Qed.

(** X7.  When a suspended message handler of name [n] resumes with the
    transformed value [res] on a well-formed engine, every callback it calls
    is the one recorded for an id of the listener list of [n], is called with
    [res], and the ids called form a beginning of that list, in its order:
    no listener of another name, and no id twice, ever gets the message.
    With no listener under [n] the handler changes nothing at all. *)
Theorem dispatch_stays_within_name (n : string) (res : Value) (w : World) :
  wellFormed w ->
  let w' := handleMessageResume {| hfSubName := n; hfAwaited := Fulfilled res |} w in
  (exists l1 cbs,
     l1 `prefix_of` listenerIds n w /\
     Forall2 (fun id c => clientId2GoogleSubNameAndClientCallback (engine w) !! id
                          = Some (n, c)) l1 cbs /\
     effects w' = effects w ++ zip_with (fun id c => Deliver id c res) l1 cbs) /\
  engine w' = engine w /\
  (listeners n w = 0 -> w' = w).
Proof.
  intros Hwf w'. split; [|split].
  - destruct (forEachId_prefix res (listenerIds n w) w) as (l1 & cbs & Hp & HF & He).
    exists l1, cbs. split; [done|]. split.
    + clear He. assert (forall id, id ∈ l1 -> id ∈ listenerIds n w) as Hin.
      { intros id Hid. destruct Hp as [l2 ->]. apply elem_of_app. by left. }
      clear Hp. induction HF as [|id c l1 cbs (k & Hk) HF IH]; [constructor|].
      constructor; [|apply IH; intros; apply Hin; by right].
      destruct (proj1 (wellFormed_listenerIds w id n Hwf) (Hin id ltac:(by left)))
        as (c' & Hc').
      congruence.
    + subst w'. unfold handleMessageResume. simpl. fold (listenerIds n w).
      destruct (forEachId res (listenerIds n w) w) as [w1 [e|]]; simpl in *; done.
  - apply (handleMessageResume_frame {| hfSubName := n; hfAwaited := Fulfilled res |} w).
  - intros H0. subst w'. unfold handleMessageResume. simpl. fold (listenerIds n w).
    unfold listeners in H0. destruct (listenerIds n w); [done|done].
Qed.

Lemma dispatch_stays_within_name_witness :
  (exists l1 cbs,
     l1 `prefix_of` listenerIds posts twoAttached /\
     Forall2 (fun id c => clientId2GoogleSubNameAndClientCallback (engine twoAttached) !! id
                          = Some (posts, c)) l1 cbs /\
     effects (handleMessageResume
                {| hfSubName := posts; hfAwaited := Fulfilled (VOther "x") |} twoAttached) =
       effects twoAttached ++ zip_with (fun id c => Deliver id c (VOther "x")) l1 cbs) /\
  engine (handleMessageResume
            {| hfSubName := posts; hfAwaited := Fulfilled (VOther "x") |} twoAttached) =
    engine twoAttached /\
  (listeners posts twoAttached = 0 ->
   handleMessageResume {| hfSubName := posts; hfAwaited := Fulfilled (VOther "x") |}
     twoAttached = twoAttached).
Proof.
  apply (dispatch_stays_within_name posts (VOther "x") twoAttached).
  apply run_wellFormed. by apply wellFormed_new.
Defined.

(** X8.  A delivery callback that throws ends the fan-out: on a well-formed
    engine whose listener list of [n] is [l1 ++ id :: l2], where the
    callbacks of [l1] return and the callback of [id] throws [e] on [res],
    the resumed handler calls the callbacks of [l1] and of [id] and no other,
    so the listeners of [l2] never get the message, and the promise of the
    handler rejects with [e], unobserved. *)
Theorem throwing_callback_ends_fan_out (n : string) (res : Value) (w : World)
    (l1 l2 : list nat) (id : nat) (c : Callback) (e : Error) :
  wellFormed w ->
  listenerIds n w = l1 ++ id :: l2 ->
  (forall x k c', x ∈ l1 ->
     clientId2GoogleSubNameAndClientCallback (engine w) !! x = Some (k, c') ->
     cbRun c' res = None) ->
  clientId2GoogleSubNameAndClientCallback (engine w) !! id = Some (n, c) ->
  cbRun c res = Some e ->
  exists cbs,
    Forall2 (fun x c' => clientId2GoogleSubNameAndClientCallback (engine w) !! x
                         = Some (n, c')) l1 cbs /\
    handleMessageResume {| hfSubName := n; hfAwaited := Fulfilled res |} w =
    unhandledRejection e
      (emit (zip_with (fun x c' => Deliver x c' res) l1 cbs ++ [Deliver id c res]) w).
Proof.
  intros Hwf HL Hret Hid Hthrow.
  assert (forall x, x ∈ l1 ->
            exists c', clientId2GoogleSubNameAndClientCallback (engine w) !! x = Some (n, c') /\
                       cbRun c' res = None) as Hl1.
  { intros x Hx.
    destruct (proj1 (wellFormed_listenerIds w x n Hwf)) as (c' & Hc').
    { rewrite HL. apply elem_of_app. by left. }
    exists c'. split; [done|]. by eapply Hret. }
  clear Hret Hwf.
  unfold handleMessageResume. simpl. fold (listenerIds n w). rewrite HL. clear HL.
  enough (forall w0,
            engine w0 = engine w ->
            exists cbs,
              Forall2 (fun x c' => clientId2GoogleSubNameAndClientCallback (engine w) !! x
                                   = Some (n, c')) l1 cbs /\
              forEachId res (l1 ++ id :: l2) w0 =
              (emit (zip_with (fun x c' => Deliver x c' res) l1 cbs ++ [Deliver id c res]) w0,
               Some e)) as H.
  { destruct (H w eq_refl) as (cbs & HF & ->). eauto. }
  induction l1 as [|x l1 IH]; intros w0 Hw0.
  - exists []. split; [constructor|]. simpl. by rewrite Hw0, Hid, Hthrow.
  - destruct (Hl1 x) as (c' & Hc' & Hrun); [by left|].
    destruct (IH (fun y Hy => Hl1 y (list_elem_of_further _ _ _ Hy))
                (emit [Deliver x c' res] w0) Hw0) as (cbs & HF & Heq).
    exists (c' :: cbs). split; [by constructor|].
    simpl. rewrite Hw0, Hc', Hrun, Heq. unfold emit. simpl. by rewrite <- !app_assoc.
Qed.

Lemma throwing_callback_ends_fan_out_witness :
  exists cbs,
    Forall2 (fun x c' => clientId2GoogleSubNameAndClientCallback (engine secondThrows) !! x
                         = Some (posts, c')) [0] cbs /\
    handleMessageResume {| hfSubName := posts; hfAwaited := Fulfilled (VOther "x") |}
      secondThrows =
    unhandledRejection (UserError 2)
      (emit (zip_with (fun x c' => Deliver x c' (VOther "x")) [0] cbs ++
             [Deliver 1 (throwingCallback 1 (UserError 2)) (VOther "x")]) secondThrows).
Proof.
  apply (throwing_callback_ends_fan_out posts (VOther "x") secondThrows [0] [2] 1
           (throwingCallback 1 (UserError 2)) (UserError 2)).
  - apply run_wellFormed. by apply wellFormed_new.
  - reflexivity.
  - intros x k c' Hx Hc. apply list_elem_of_singleton in Hx as ->.
    vm_compute in Hc. by inversion Hc.
  - reflexivity.
  - reflexivity.
Defined.

(** ** Names do not interfere *)

Lemma run_handlersNamed (evs : list Event) (w : World) :
  handlersNamed w -> handlersNamed (run evs w).
Proof.
  revert w. induction evs as [|e evs IH]; intros w H; [done|].
  rewrite run_cons. by apply IH, step_handlersNamed.
Qed.

Lemma step_other_name (n : string) (e : Event) (w : World) :
  handlersNamed w ->
  nameOf e w <> Some n ->
  googleSubName2GoogleSubAndClientIds (engine (step e w)) !! n =
    googleSubName2GoogleSubAndClientIds (engine w) !! n /\
  attachCalls n (step e w) = attachCalls n w /\
  detachCalls n (step e w) = detachCalls n w /\
  pendingRoundTrips n (step e w) = pendingRoundTrips n w.
Proof.
  intros HN Hname. destruct e as [t c o|subId|id reply|m msg|k]; simpl in *.
  - destruct (subscribe_spec t c o w) as (_ & Hs & _ & _ & _ & _ & He & _ & _ & Ha & _).
    assert (topic2SubName (engine w) t o <> n) as Hne by congruence.
    unfold_obs. rewrite Hs, He, Ha, lookup_insert_ne by done.
    repeat split; try done.
    destruct (0 <? _); [done|]. rewrite countIf_app, countIf_cons, countIf_nil. simpl.
    apply String.eqb_neq in Hne. rewrite Hne. lia.
  - destruct (unsubscribe_spec subId w) as [|m c l w' Hid _ _ _ Hs He _ _ _ Ha _ _ _];
      [done|]. simpl.
    rewrite Hid in Hname. simpl in Hname.
    assert (m <> n) as Hne by congruence.
    unfold_obs. rewrite Hs, He, Ha. split; [|split; [|split; [|done]]].
    + destruct (length l =? 1);
        [by rewrite lookup_delete_ne|by rewrite lookup_insert_ne].
    + destruct (length l =? 1); [|done]. unfold detachEffects.
      destruct (sub _); [|by rewrite app_nil_r].
      rewrite countIf_app, !countIf_cons, countIf_nil. simpl. lia.
    + destruct (length l =? 1); [|done]. unfold detachEffects, entryOrEmpty.
      destruct (googleSubName2GoogleSubAndClientIds (engine w) !! m) as [e|] eqn:E;
        simpl; [|by rewrite app_nil_r].
      destruct (sub e) as [s|] eqn:Es; [|by rewrite app_nil_r].
      destruct (HN m e s E Es) as (a & ->).
      rewrite countIf_app, !countIf_cons, countIf_nil. simpl.
      apply String.eqb_neq in Hne. rewrite Hne. lia.
  - destruct (takeFrame id (awaiting w)) as [[f r]|] eqn:Ef; [|done].
    simpl in Hname. assert (sfSubName f <> n) as Hne by congruence.
    pose proof (takeFrame_count n _ _ _ _ Ef) as Hcnt.
    apply String.eqb_neq in Hne as Hne'. rewrite Hne' in Hcnt.
    destruct (subscribeResume_spec f reply (with_awaiting r w))
      as (Hs & He & _ & _ & _ & _ & Ha & _).
    simpl in *. unfold_obs. rewrite Hs, He, Ha.
    destruct (attaches _ _ _).
    + rewrite lookup_insert_ne by done.
      rewrite !countIf_app, !countIf_cons, !countIf_nil. simpl. rewrite Hne'.
      repeat split; lia.
    + repeat split; lia.
  - unfold_obs. simpl. rewrite !countIf_app, !countIf_cons, !countIf_nil. simpl.
    repeat split; lia.
  - destruct (handling w !! k) as [f|]; [|done].
    destruct (handleMessageResume_frame f (with_handling (delete k (handling w)) w))
      as (Hg & Ha & _ & _ & es & He & HF). simpl in *.
    unfold_obs. rewrite Hg, Ha, He, !countIf_app, !(countIf_delivers _ es) by done.
    repeat split; lia.
Qed.

(** X9.  In every state an engine reaches from its construction, a
    [subscribe], an [unsubscribe] or a broker answer that is about one
    subscription name leaves every other name as it is: its entry (listener
    list, [sub], handlers), the attach and detach calls made with its message
    handler, and its pending round trips. *)
Theorem names_do_not_interfere (t2s : string -> option Options -> string)
    (cmh : Message -> Result Value) (evs : list Event) (e : Event) (n : string) :
  let w := run evs (newWorld (newGooglePubSub t2s cmh)) in
  nameOf e w <> Some n ->
  googleSubName2GoogleSubAndClientIds (engine (step e w)) !! n =
    googleSubName2GoogleSubAndClientIds (engine w) !! n /\
  attachCalls n (step e w) = attachCalls n w /\
  detachCalls n (step e w) = detachCalls n w /\
  pendingRoundTrips n (step e w) = pendingRoundTrips n w.
Proof.
  intros w. apply step_other_name. apply run_handlersNamed. by apply handlersNamed_new.
Qed.

Lemma names_do_not_interfere_witness :
  googleSubName2GoogleSubAndClientIds
    (engine (step (ESubscribe "Comments" (cb 5) None) twoAttached)) !! posts =
    googleSubName2GoogleSubAndClientIds (engine twoAttached) !! posts /\
  attachCalls posts (step (ESubscribe "Comments" (cb 5) None) twoAttached) =
    attachCalls posts twoAttached /\
  detachCalls posts (step (ESubscribe "Comments" (cb 5) None) twoAttached) =
    detachCalls posts twoAttached /\
  pendingRoundTrips posts (step (ESubscribe "Comments" (cb 5) None) twoAttached) =
    pendingRoundTrips posts twoAttached.
Proof.
  apply (names_do_not_interfere defaultTopic2SubName defaultCommonMessageHandler
           [ESubscribe "Posts" (cb 0) None; ESubscribe "Posts" (cb 1) None;
            ERoundTrip 0 ExistsYes] (ESubscribe "Comments" (cb 5) None) posts).
  vm_compute. intros [=].
Defined.

(** ** The first listener of a name *)

Lemma takeFrame_Forall (P : SubscribeFrame -> Prop) (id : nat)
    (l r : list SubscribeFrame) (f : SubscribeFrame) :
  takeFrame id l = Some (f, r) -> Forall P l -> Forall P r.
Proof.
  revert r. induction l as [|x l IH]; intros r H HF; simpl in H; [done|].
  apply Forall_cons in HF as [Hx HF].
  destruct (sfId x =? id).
  - by inversion H; subst.
  - destruct (takeFrame id l) as [[f' r']|]; [|done]. inversion H; subst.
    constructor; [done|]. by apply IH.
Qed.

Lemma takeFrame_snoc (id : nat) (l : list SubscribeFrame) (f : SubscribeFrame) :
  Forall (fun x => sfId x < id) l -> sfId f = id -> takeFrame id (l ++ [f]) = Some (f, l).
Proof.
  intros HF Hid. induction HF as [|x l Hx HF IH]; simpl.
  - by rewrite Hid, Nat.eqb_refl.
  - replace (sfId x =? id) with false by (symmetry; apply Nat.eqb_neq; lia).
    by rewrite IH.
Qed.

Lemma step_framesIssued (e : Event) (w : World) : framesIssued w -> framesIssued (step e w).
Proof.
  unfold framesIssued. intros H. destruct e as [t c o|subId|id reply|m msg|k]; simpl.
  - destruct (subscribe_spec t c o w) as (_ & _ & _ & Hn & _ & _ & _ & _ & _ & Ha & _).
    rewrite Hn, Ha.
    assert (Forall (fun f => sfId f < S (currentClientId (engine w))) (awaiting w)) as H'.
    { eapply Forall_impl; [exact H|]. simpl. intros. lia. }
    destruct (0 <? _); [done|]. apply Forall_app. split; [done|].
    constructor; [simpl; lia|constructor].
  - destruct (unsubscribe_spec subId w) as [|m c l w' _ _ _ _ _ _ Hn _ _ Ha _ _ _];
      [done|]. simpl. by rewrite Hn, Ha.
  - destruct (takeFrame id (awaiting w)) as [[f r]|] eqn:Ef; [|done].
    destruct (subscribeResume_spec f reply (with_awaiting r w))
      as (_ & _ & _ & Hn & _ & _ & Ha & _).
    rewrite Hn, Ha. simpl. by eapply takeFrame_Forall.
  - done.
  - destruct (handling w !! k) as [f|]; [|done].
    destruct (handleMessageResume_frame f (with_handling (delete k (handling w)) w))
      as (Hg & Ha & _). by rewrite Hg, Ha.
Qed.

Lemma run_framesIssued (evs : list Event) (w : World) :
  framesIssued w -> framesIssued (run evs w).
Proof.
  revert w. induction evs as [|e evs IH]; intros w H; [done|].
  rewrite run_cons. by apply IH, step_framesIssued.
Qed.

(** X10.  The first listener of a name, in any state an engine reaches from
    its construction: when [subscribe] finds no listener under the derived
    name and the broker then answers with a subscription [s] (the existing
    one or the one it created), the handler for ['message'] and then the one
    for ['error'] are attached to [s], once each; the entry holds [s] and the
    new id alone; and only then is the promise fulfilled, with that id. *)
Theorem first_listener_attaches_then_resolves
    (t2s : string -> option Options -> string) (cmh : Message -> Result Value)
    (evs : list Event) (t : string) (c : Callback) (o : option Options)
    (reply : BrokerReply) (s : Subscription) :
  let w := run evs (newWorld (newGooglePubSub t2s cmh)) in
  let id := snd (subscribe t c o w) in
  listeners (t2s t o) w = 0 ->
  getSubscription t (t2s t o) reply = Fulfilled s ->
  subscribed (step (ESubscribe t c o) w) = subscribed w /\
  let w' := run [ESubscribe t c o; ERoundTrip id reply] w in
  effects w' = effects w ++ [On s MessageEvent (HandleMessage (t2s t o) id);
                             On s ErrorEvent (ErrorHandler id)] /\
  subscribed w' = subscribed w ++ [(id, Fulfilled id)] /\
  listenerIds (t2s t o) w' = [id] /\
  sub (entryOrEmpty (engine w') (t2s t o)) = Some s /\
  awaiting w' = awaiting w.
Proof.
  intros w id H0 Hreply.
  assert (framesIssued w) as HF by (apply run_framesIssued; constructor).
  assert (topic2SubName (engine w) = t2s) as Ht by apply (run_config evs).
  clearbody w.
  destruct (subscribe_spec t c o w) as (Hid & Hs & _ & _ & _ & _ & He & _ & _ & Ha & Hsub).
  fold id in Hid. rewrite Ht in *. rewrite H0 in Ha, Hsub. simpl in Ha, Hsub.
  split; [done|].
  assert (listenerIds (t2s t o) w = []) as HL.
  { unfold listeners in H0. by destruct (listenerIds (t2s t o) w). }
  unfold subscribedEntry in Hs. rewrite HL in Hs. simpl in Hs.
  change (run [ESubscribe t c o; ERoundTrip id reply] w)
    with (step (ERoundTrip id reply) (fst (subscribe t c o w))).
  set (w1 := fst (subscribe t c o w)) in *. clearbody w1.
  cbn [step]. rewrite Ha.
  rewrite (takeFrame_snoc id (awaiting w)
             {| sfTopicName := t; sfSubName := t2s t o; sfId := currentClientId (engine w) |});
    [|by rewrite Hid|by rewrite Hid].
  set (f := {| sfTopicName := t; sfSubName := t2s t o; sfId := currentClientId (engine w) |}).
  destruct (subscribeResume_spec f reply (with_awaiting (awaiting w) w1))
    as (Hs' & He' & _ & _ & _ & _ & Ha' & _ & _ & r & Hsub').
  assert (entryOrEmpty (engine w1) (t2s t o) =
          {| sub := sub (entryOrEmpty (engine w) (t2s t o));
             messageHandler := messageHandler (entryOrEmpty (engine w) (t2s t o));
             errorHandler := errorHandler (entryOrEmpty (engine w) (t2s t o));
             ids := Some [currentClientId (engine w)] |}) as Hentry.
  { unfold entryOrEmpty at 1. by rewrite Hs, lookup_insert_eq. }
  assert (attaches f reply (with_awaiting (awaiting w) w1) = Some s) as Hatt.
  { unfold attaches, listeners, listenerIds. simpl. rewrite Hreply, Hentry. done. }
  rewrite Hatt in Hs', He'. simpl in *.
  assert (subscribeResume f reply (with_awaiting (awaiting w) w1) =
          subscribeResume f reply (with_awaiting (awaiting w) w1)) as _ by done.
  rewrite He', He, Ha', <- Hid. split; [done|]. split; [|split; [|split; [|done]]].
  - unfold subscribeResume. simpl. rewrite Hreply, Hentry. simpl. by rewrite Hsub, Hid.
  - unfold listenerIds, entryOrEmpty. rewrite Hs', lookup_insert_eq. simpl.
    unfold attachedEntry. simpl. rewrite Hentry. simpl. by rewrite Hid.
  - unfold entryOrEmpty. by rewrite Hs', lookup_insert_eq.
Qed.

Lemma first_listener_attaches_then_resolves_witness :
  subscribed (step (ESubscribe "Posts" (cb 0) None) world0) = subscribed world0 /\
  effects (run [ESubscribe "Posts" (cb 0) None;
                ERoundTrip (snd (subscribe "Posts" (cb 0) None world0))
                  (ExistsNoCreated (NewSub 4))] world0) =
    effects world0 ++
    [On (NewSub 4) MessageEvent
       (HandleMessage posts (snd (subscribe "Posts" (cb 0) None world0)));
     On (NewSub 4) ErrorEvent (ErrorHandler (snd (subscribe "Posts" (cb 0) None world0)))].
Proof.
  destruct (first_listener_attaches_then_resolves defaultTopic2SubName
              defaultCommonMessageHandler [] "Posts" (cb 0) None
              (ExistsNoCreated (NewSub 4)) (NewSub 4) eq_refl eq_refl)
    as (H1 & H2 & _).
  split; [exact H1|exact H2].
Defined.

(** * Further properties of the iterator *)

(** ** Construction *)

Lemma subscribeAll_spec (i : nat) (l : list string) (w : World) :
  snd (subscribeAll i l w) = seq (currentClientId (engine w)) (length l) /\
  currentClientId (engine (fst (subscribeAll i l w))) = currentClientId (engine w) + length l /\
  effects (fst (subscribeAll i l w)) = effects w /\
  (forall k t, l !! k = Some t ->
     clientId2GoogleSubNameAndClientCallback (engine (fst (subscribeAll i l w)))
       !! (currentClientId (engine w) + k)
     = Some (topic2SubName (engine w) t None, PushValueOf i)) /\
  (forall x, x < currentClientId (engine w) ->
     clientId2GoogleSubNameAndClientCallback (engine (fst (subscribeAll i l w))) !! x =
     clientId2GoogleSubNameAndClientCallback (engine w) !! x).
Proof.
  revert w. induction l as [|t l IH]; intros w; simpl.
  - repeat split; try done; try lia.
  - destruct (subscribe_spec t (PushValueOf i) None w)
      as (Hid & _ & Hcl & Hn & Ht & _ & He & _).
    destruct (subscribe t (PushValueOf i) None w) as [w1 p] eqn:E1. simpl in *.
    destruct (IH w1) as (IH1 & IH2 & IH3 & IH4 & IH5).
    destruct (subscribeAll i l w1) as [w2 ps] eqn:E2. simpl in *.
    rewrite Hn in *. split; [by rewrite Hid, IH1|]. split; [lia|].
    split; [by rewrite IH3|]. split.
    + intros [|k] t' Hk; simpl in Hk.
      * injection Hk as <-. rewrite Nat.add_0_r, IH5 by lia.
        rewrite Hcl. apply lookup_insert_eq.
      * replace (currentClientId (engine w) + S k)
          with (S (currentClientId (engine w)) + k) by lia.
        rewrite (IH4 k t' Hk). by rewrite Ht.
    + intros x Hx. rewrite IH5 by lia. rewrite Hcl. apply lookup_insert_ne. lia.
Qed.

Lemma subscribe_listeners (t : string) (c : Callback) (o : option Options) (w : World)
    (m : string) :
  listeners m (fst (subscribe t c o w)) =
  listeners m w + (if bool_decide (topic2SubName (engine w) t o = m) then 1 else 0).
Proof.
  destruct (subscribe_spec t c o w) as (_ & Hs & _).
  unfold listeners. unfold listenerIds at 1. unfold entryOrEmpty. rewrite Hs.
  case_bool_decide as E.
  - subst m. rewrite lookup_insert_eq. simpl. by rewrite length_app.
  - rewrite lookup_insert_ne by done. unfold listenerIds, entryOrEmpty. lia.
Qed.

Lemma subscribe_pending (t : string) (c : Callback) (o : option Options) (w : World)
    (m : string) :
  pendingRoundTrips m (fst (subscribe t c o w)) =
  pendingRoundTrips m w +
  (if bool_decide (listeners m w = 0 /\ topic2SubName (engine w) t o = m) then 1 else 0).
Proof.
  destruct (subscribe_spec t c o w) as (_ & _ & _ & _ & _ & _ & _ & _ & _ & Ha & _).
  unfold pendingRoundTrips. rewrite Ha.
  destruct (0 <? listeners (topic2SubName (engine w) t o) w) eqn:E.
  - apply Nat.ltb_lt in E. rewrite bool_decide_eq_false_2; [lia|]. intros [H1 <-]. lia.
  - apply Nat.ltb_ge in E. rewrite countIf_app, countIf_cons, countIf_nil. simpl.
    destruct (String.eqb_spec (topic2SubName (engine w) t o) m) as [<-|Hne].
    + rewrite bool_decide_eq_true_2; [lia|]. split; [lia|done].
    + rewrite bool_decide_eq_false_2; [lia|]. by intros [_ ?].
Qed.

Lemma subscribeAll_pending (i : nat) (l : list string) (w : World) (m : string) :
  pendingRoundTrips m (fst (subscribeAll i l w)) =
  pendingRoundTrips m w +
  (if bool_decide (listeners m w = 0 /\
                   m ∈ (fun t => topic2SubName (engine w) t None) <$> l)
   then 1 else 0).
Proof.
  revert w. induction l as [|t l IH]; intros w; simpl.
  - rewrite bool_decide_eq_false_2; [lia|]. intros [_ H]. by apply elem_of_nil in H.
  - pose proof (subscribe_pending t (PushValueOf i) None w m) as Hp.
    pose proof (subscribe_listeners t (PushValueOf i) None w m) as Hl.
    destruct (subscribe_spec t (PushValueOf i) None w) as (_ & _ & _ & _ & Ht & _).
    destruct (subscribe t (PushValueOf i) None w) as [w1 p] eqn:E1. simpl in *.
    specialize (IH w1). destruct (subscribeAll i l w1) as [w2 ps] eqn:E2. simpl in *.
    rewrite IH, Hp, Hl, Ht.
    destruct (decide (topic2SubName (engine w) t None = m)) as [Heq|Hne].
    + rewrite (bool_decide_eq_true_2 (topic2SubName (engine w) t None = m)) by done.
      rewrite (bool_decide_eq_false_2 (listeners m w + 1 = 0 /\ _)) by lia.
      destruct (decide (listeners m w = 0)) as [H0|H0].
      * rewrite !bool_decide_eq_true_2; [lia| |done]. split; [done|].
        apply elem_of_cons. left. by symmetry.
      * rewrite !bool_decide_eq_false_2; [lia| |]; by intros [? _].
    + rewrite (bool_decide_eq_false_2 (topic2SubName (engine w) t None = m)) by done.
      rewrite Nat.add_0_r.
      rewrite (bool_decide_eq_false_2 (listeners m w = 0 /\ _ = m)) by (by intros [_ ?]).
      rewrite Nat.add_0_r. f_equal.
      assert (forall (P Q : Prop) `{Decision P, Decision Q}, (P <-> Q) ->
                (if bool_decide P then 1 else 0) = (if bool_decide Q then 1 else 0)) as Hext.
      { intros P Q ? ? HPQ. by rewrite (bool_decide_ext P Q HPQ). }
      apply Hext. split; intros [H0 Hin]; (split; [done|]).
      * by right.
      * apply elem_of_cons in Hin as [->|Hin]; [done|done].
Qed.

(** X11.  [new AsyncIterator(engine, subNames, options)] makes one
    [subscribe] call per event name, in order: the promises it waits for are
    those of the next ids of the engine, one per name; each id is recorded
    with the iterator's own [pushValue] as callback, under the name derived
    with [undefined] options, since [this.options] is assigned only after
    [subscribeAll()] ran (the [options] argument has no effect on the
    registration).  For every derived name that had no listener, one
    [getSubscription] call is made to the broker and one activation of
    [subscribe] stays suspended on its answer; for a name that had a
    listener, and for a name not among the derived ones, none is.  No
    handler is attached yet; the iterator starts listening, with both queues
    empty. *)
Theorem newAsyncIterator_registers (i : nat) (w : World) (subNames : SubNames)
    (o : option Options) :
  let s := newAsyncIterator i w subNames o in
  allSubscribed (iterator s) = seq (currentClientId (engine w)) (length (namesOf subNames)) /\
  (forall k t, namesOf subNames !! k = Some t ->
     clientId2GoogleSubNameAndClientCallback (engine (pubsub s))
       !! (currentClientId (engine w) + k)
     = Some (topic2SubName (engine w) t None, PushValueOf i)) /\
  pubsub s = pubsub (newAsyncIterator i w subNames None) /\
  (forall m, pendingRoundTrips m (pubsub s) =
             pendingRoundTrips m w +
             (if bool_decide (listeners m w = 0 /\ m ∈ derivedNames w subNames)
              then 1 else 0)) /\
  effects (pubsub s) = effects w /\
  listening (iterator s) = true /\ pullQueue (iterator s) = [] /\ pushQueue (iterator s) = [].
Proof.
  intros s. subst s. unfold newAsyncIterator, derivedNames. fold (namesOf subNames).
  destruct (subscribeAll_spec i (namesOf subNames) w) as (H1 & _ & H3 & H4 & _).
  pose proof (fun m => subscribeAll_pending i (namesOf subNames) w m) as H5.
  destruct (subscribeAll i (namesOf subNames) w) as [w' ps]. simpl in *.
  repeat split; done.
Qed.

(** ** Before the registration completes *)

Lemma sessionStep_pending (ev : SessionEvent) (s : Session) :
  promiseAll (subscribed (pubsub s)) (allSubscribed (iterator s)) = None ->
  engineEvents [ev] = [] ->
  pubsub (sessionStep ev s) = pubsub s /\ iterator (sessionStep ev s) = iterator s /\
  settled (sessionStep ev s) = settled s /\ unobserved (sessionStep ev s) = unobserved s /\
  forall evs,
    reactions (sessionStep ev s) ++ queuedBy (promises (sessionStep ev s)) evs =
    reactions s ++ queuedBy (promises s) (ev :: evs).
Proof.
  intros Hp He. destruct ev as [e| | |err|event|]; simpl in *; try done;
    try (do 4 (split; [done|]); intros evs; by rewrite <- app_assoc).
  destruct (reactions s) as [|r rest] eqn:Er.
  - do 4 (split; [done|]). intros evs. by rewrite Er.
  - unfold react. rewrite Hp. do 4 (split; [done|]). intros evs. by rewrite Er.
Qed.

(** X12.  While the registration of a session is pending, no method takes
    effect: whatever calls of [next], [return], [throw] and [pushValue] are
    made and however often their callbacks get a turn, with nothing happening
    on the engine side, the engine, the iterator's queues and flag and the
    settled promises stay as they are, and the callbacks waiting afterwards
    are those that waited before followed by one per call made, in call
    order, each of [next], [return] and [throw] with the next promise. *)
Theorem nothing_runs_before_registration (evs : list SessionEvent) (s : Session) :
  promiseAll (subscribed (pubsub s)) (allSubscribed (iterator s)) = None ->
  engineEvents evs = [] ->
  pubsub (sessionRun evs s) = pubsub s /\ iterator (sessionRun evs s) = iterator s /\
  settled (sessionRun evs s) = settled s /\ unobserved (sessionRun evs s) = unobserved s /\
  reactions (sessionRun evs s) = reactions s ++ queuedBy (promises s) evs.
Proof.
  revert s. induction evs as [|ev evs IH]; intros s Hp He.
  - do 4 (split; [done|]). simpl. by rewrite app_nil_r.
  - assert (engineEvents [ev] = [] /\ engineEvents evs = []) as [He1 He2].
    { destruct ev; simpl in *; done. }
    destruct (sessionStep_pending ev s Hp He1) as (Hw & Hi & Hs & Hu & Hr).
    rewrite sessionRun_cons.
    destruct (IH (sessionStep ev s)) as (Hw' & Hi' & Hs' & Hu' & Hr');
      [by rewrite Hw, Hi|done|].
    rewrite Hw', Hi', Hs', Hu', Hr', Hr. done.
Qed.

Lemma nothing_runs_before_registration_witness :
  pubsub (sessionRun [SNext; SReact; SPushValue (VOther "x"); SReact; SReturn; SReact]
            (newAsyncIterator 9 world0 (OneName "Posts") None)) =
    pubsub (newAsyncIterator 9 world0 (OneName "Posts") None) /\
  iterator (sessionRun [SNext; SReact; SPushValue (VOther "x"); SReact; SReturn; SReact]
              (newAsyncIterator 9 world0 (OneName "Posts") None)) =
    iterator (newAsyncIterator 9 world0 (OneName "Posts") None) /\
  settled (sessionRun [SNext; SReact; SPushValue (VOther "x"); SReact; SReturn; SReact]
             (newAsyncIterator 9 world0 (OneName "Posts") None)) =
    settled (newAsyncIterator 9 world0 (OneName "Posts") None) /\
  unobserved (sessionRun [SNext; SReact; SPushValue (VOther "x"); SReact; SReturn; SReact]
                (newAsyncIterator 9 world0 (OneName "Posts") None)) =
    unobserved (newAsyncIterator 9 world0 (OneName "Posts") None) /\
  reactions (sessionRun [SNext; SReact; SPushValue (VOther "x"); SReact; SReturn; SReact]
               (newAsyncIterator 9 world0 (OneName "Posts") None)) =
    reactions (newAsyncIterator 9 world0 (OneName "Posts") None) ++
    [ThenNext 0; ThenPushValue (VOther "x"); ThenReturn 1].
Proof.
  apply (nothing_runs_before_registration
           [SNext; SReact; SPushValue (VOther "x"); SReact; SReturn; SReact]
           (newAsyncIterator 9 world0 (OneName "Posts") None)); reflexivity.
Defined.

(** ** [throw(error)] *)

(** X13.  [throw(error)] tears down like [return()] and rejects with the
    error given.  On a listening session whose registration completed with
    [subs], none of whose callbacks waits for its turn, and whose ids are
    registered in a well-formed engine: it stops listening, unsubscribes
    every id of [subs], resolves every pending pull with
    [{ value: undefined, done: true }], empties both queues, and its promise
    rejects with [error]; a later [throw(error')] changes neither the engine
    nor the iterator and rejects with [error']. *)
Theorem throw_tears_down_and_rejects (s : Session) (subs : list nat) (err err' : Error) :
  wellFormed (pubsub s) ->
  reactions s = [] ->
  listening (iterator s) = true ->
  promiseAll (subscribed (pubsub s)) (allSubscribed (iterator s)) = Some (Fulfilled subs) ->
  NoDup subs ->
  Forall (registered (pubsub s)) subs ->
  let s1 := sessionRun [SThrow err; SReact] s in
  let s2 := sessionRun [SThrow err'; SReact] s1 in
  (listening (iterator s1) = false /\
   pullQueue (iterator s1) = [] /\ pushQueue (iterator s1) = [] /\
   pubsub s1 = fst (unsubscribeAll subs (pubsub s)) /\
   (forall id, id ∈ subs ->
      clientId2GoogleSubNameAndClientCallback (engine (pubsub s1)) !! id = None) /\
   settled s1 =
     settled s ++ ((fun resolve => (resolve, Fulfilled doneResult)) <$> pullQueue (iterator s))
               ++ [(promises s, Rejected err)]) /\
  (pubsub s2 = pubsub s1 /\ iterator s2 = iterator s1 /\
   settled s2 = settled s1 ++ [(promises s1, Rejected err')]).
Proof.
  intros Hwf Hr Hl Hp HND HF s1 s2.
  destruct (unsubscribeAll_registered subs (pubsub s) Hwf HND HF)
    as (w' & Hu & Hwf' & Hcl & Hsub).
  assert (s1 = {| pubsub := w'; self := self s;
                  iterator := set_pushQueue [] (set_pullQueue [] (set_listening false (iterator s)));
                  reactions := []; promises := S (promises s);
                  settled := settled s ++
                    ((fun resolve => (resolve, Fulfilled doneResult)) <$> pullQueue (iterator s))
                    ++ [(promises s, Rejected err)];
                  unobserved := unobserved s |}) as Hs1.
  { subst s1. unfold sessionRun. simpl. rewrite Hr. simpl. unfold react. simpl.
    rewrite Hp. unfold emptyQueue. rewrite Hl, Hu. done. }
  split.
  - rewrite Hs1. simpl. rewrite Hu. repeat split; try done.
    intros id Hid. rewrite Hcl. by rewrite bool_decide_eq_true_2.
  - subst s2. rewrite Hs1. unfold sessionRun. simpl. unfold react. simpl.
    rewrite Hsub, Hp. done.
Qed.

Lemma throw_tears_down_and_rejects_witness :
  settled (sessionRun [SThrow (UserError 5); SReact] openSession) =
    settled openSession ++
    ((fun resolve => (resolve, Fulfilled doneResult)) <$> pullQueue (iterator openSession))
    ++ [(promises openSession, Rejected (UserError 5))].
Proof.
  destruct (throw_tears_down_and_rejects openSession [0] (UserError 5) (UserError 6))
    as ((_ & _ & _ & _ & _ & H) & _); [| | | | | |exact H].
  - apply sessionRun_wellFormed, newAsyncIterator_wellFormed. by apply wellFormed_new.
  - reflexivity.
  - reflexivity.
  - reflexivity.
  - apply NoDup_singleton.
  - apply Forall_cons. split; [|constructor].
    exists posts, (PushValueOf 9). split; [reflexivity|done].
Defined.

(** ** [return()] when an [unsubscribe] throws *)

Lemma unsubscribeAll_app (l1 l2 : list nat) (w : World) :
  unsubscribeAll (l1 ++ l2) w =
  match unsubscribeAll l1 w with
  | (w', None) => unsubscribeAll l2 w'
  | (w', Some e) => (w', Some e)
  end.
Proof.
  revert w. induction l1 as [|x l1 IH]; intros w; simpl; [done|].
  destruct (unsubscribe x w) as [w1 [e|]]; [done|]. apply IH.
Qed.

(** X14.  When one of the ids of a session is unknown to the engine (it was
    unsubscribed behind the session's back), [return()] unsubscribes the ids
    before it, then [unsubscribe] throws and the rest of [emptyQueue] is
    skipped: the session has stopped listening, but the ids after the unknown
    one stay registered, the pending pulls are not resolved, the queues are
    not emptied, and the promise of [return()] rejects with
    [NoSubscriptionOfIdError].  A value pushed afterwards is still handed to
    the oldest pending pull. *)
Theorem return_stops_at_unknown_id (s : Session) (l1 l2 : list nat) (id : nat) :
  wellFormed (pubsub s) ->
  reactions s = [] ->
  listening (iterator s) = true ->
  promiseAll (subscribed (pubsub s)) (allSubscribed (iterator s))
    = Some (Fulfilled (l1 ++ id :: l2)) ->
  NoDup l1 ->
  Forall (registered (pubsub s)) l1 ->
  clientId2GoogleSubNameAndClientCallback (engine (pubsub s)) !! id = None ->
  let s1 := sessionRun [SReturn; SReact] s in
  listening (iterator s1) = false /\
  pullQueue (iterator s1) = pullQueue (iterator s) /\
  pushQueue (iterator s1) = pushQueue (iterator s) /\
  settled s1 = settled s ++ [(promises s, Rejected (NoSubscriptionOfIdError id))] /\
  pubsub s1 = fst (unsubscribeAll l1 (pubsub s)) /\
  (forall x, x ∈ l2 -> x ∉ l1 ->
     clientId2GoogleSubNameAndClientCallback (engine (pubsub s1)) !! x =
     clientId2GoogleSubNameAndClientCallback (engine (pubsub s)) !! x) /\
  (forall q qs v,
     pullQueue (iterator s) = q :: qs ->
     settled (sessionRun [SPushValue v; SReact] s1) =
       settled s1 ++ [(q, Fulfilled {| value := Some v; done := false |})]).
Proof.
  intros Hwf Hr Hl Hp HND HF Hid s1.
  destruct (unsubscribeAll_registered l1 (pubsub s) Hwf HND HF)
    as (w' & Hu & Hwf' & Hcl & Hsub).
  assert (unsubscribeAll (l1 ++ id :: l2) (pubsub s) =
          (w', Some (NoSubscriptionOfIdError id))) as Hfail.
  { rewrite unsubscribeAll_app, Hu. simpl. rewrite unsubscribe_absent; [done|].
    rewrite Hcl, Hid. by destruct (bool_decide _). }
  assert (s1 = {| pubsub := w'; self := self s;
                  iterator := set_listening false (iterator s);
                  reactions := []; promises := S (promises s);
                  settled := settled s ++
                             [(promises s, Rejected (NoSubscriptionOfIdError id))];
                  unobserved := unobserved s |}) as Hs1.
  { subst s1. unfold sessionRun. simpl. rewrite Hr. simpl. unfold react. simpl.
    rewrite Hp. unfold emptyQueue. rewrite Hl, Hfail. done. }
  rewrite Hs1. simpl. rewrite Hu. simpl. repeat split; try done.
  - intros x _ Hx. rewrite Hcl. by rewrite bool_decide_eq_false_2.
  - intros q qs v Hq. unfold sessionRun. simpl. unfold react. simpl.
    rewrite Hsub, Hp. unfold pushValueThen. simpl. rewrite Hq. done.
Qed.

Lemma return_stops_at_unknown_id_witness :
  listening (iterator (sessionRun [SReturn; SReact] orphanedSession)) = false /\
  pullQueue (iterator (sessionRun [SReturn; SReact] orphanedSession)) =
    pullQueue (iterator orphanedSession) /\
  settled (sessionRun [SReturn; SReact] orphanedSession) =
    settled orphanedSession ++
    [(promises orphanedSession, Rejected (NoSubscriptionOfIdError 0))].
Proof.
  destruct (return_stops_at_unknown_id orphanedSession [] [] 0)
    as (H1 & H2 & _ & H4 & _); [| | | | | | |by repeat split].
  - apply sessionRun_wellFormed, sessionRun_wellFormed, newAsyncIterator_wellFormed.
    by apply wellFormed_new.
  - reflexivity.
  - reflexivity.
  - reflexivity.
  - constructor.
  - constructor.
  - reflexivity.
Defined.

(** ** The order of pulls and pushes *)

Lemma zip_with_snoc_l {A B C} (f : A -> B -> C) (l : list A) (x : A) (k : list B) :
  zip_with f (l ++ [x]) k =
  zip_with f l k ++ match k !! length l with Some y => [f x y] | None => [] end.
Proof.
  revert k. induction l as [|a l IH]; intros [|b k]; simpl; try done.
  all: try (by rewrite IH). all: by destruct l.
Qed.

Lemma zip_with_snoc_r {A B C} (f : A -> B -> C) (l : list A) (k : list B) (y : B) :
  zip_with f l (k ++ [y]) =
  zip_with f l k ++ match l !! length k with Some x => [f x y] | None => [] end.
Proof.
  revert l. induction k as [|b k IH]; intros [|a l]; simpl; try done.
  all: try (by rewrite IH). all: by destruct l.
Qed.

Lemma drop_cons_inv {A} (n : nat) (l rest : list A) (x : A) :
  drop n l = x :: rest -> l !! n = Some x /\ drop (S n) l = rest /\ n < length l.
Proof.
  intros H. split; [|split].
  - pose proof (lookup_drop l n 0) as H0. rewrite H in H0. simpl in H0.
    by rewrite Nat.add_0_r in H0.
  - change (S n) with (1 + n). rewrite Nat.add_comm, <- drop_drop, H. done.
  - pose proof (length_drop l n) as HL. rewrite H in HL. simpl in HL. lia.
Qed.

Lemma drop_nil_inv {A} (n : nat) (l : list A) : drop n l = [] -> length l <= n.
Proof. intros H. pose proof (length_drop l n) as HL. rewrite H in HL. simpl in HL. lia. Qed.

Lemma opEvents_snoc (ops : list Op) (op : Op) :
  opEvents (ops ++ [op]) =
  opEvents ops ++ [match op with Pull => SNext | Push v => SPushValue v end; SReact].
Proof. unfold opEvents. rewrite flat_map_app. done. Qed.

Lemma fifo_run (ops : list Op) (s : Session) (subs : list nat) :
  reactions s = [] ->
  listening (iterator s) = true ->
  promiseAll (subscribed (pubsub s)) (allSubscribed (iterator s)) = Some (Fulfilled subs) ->
  pullQueue (iterator s) = [] ->
  pushQueue (iterator s) = [] ->
  sessionRun (opEvents ops) s =
  {| pubsub := pubsub s; self := self s;
     iterator := set_pushQueue (drop (pulls ops) (pushed ops))
                   (set_pullQueue (drop (length (pushed ops)) (seq (promises s) (pulls ops)))
                      (iterator s));
     reactions := []; promises := promises s + pulls ops;
     settled := settled s ++ yields (promises s) ops;
     unobserved := unobserved s |}.
Proof.
  intros Hr Hl Hp Hq1 Hq2. induction ops as [|op ops IH] using rev_ind.
  - unfold yields, pulls, pushed. simpl. rewrite countIf_nil. simpl.
    rewrite app_nil_r, Nat.add_0_r. destruct s as [w i it rs p st u]. simpl in *.
    destruct it. simpl in *. by subst.
  - rewrite opEvents_snoc, sessionRun_app, IH. clear IH.
    unfold yields, pulls, pushed. rewrite countIf_app, omap_app, countIf_cons, countIf_nil.
    fold (pulls ops) (pushed ops).
    set (n := pulls ops). set (P := pushed ops). set (p0 := promises s).
    destruct op as [|v]; simpl.
    + (* next() *)
      rewrite !app_nil_r.
      replace (n + 1) with (S n) by lia. rewrite seq_S, zip_with_snoc_l, length_seq.
      unfold react, chainNew. simpl. rewrite Hp, Hl.
      unfold pullValue. simpl.
      destruct (drop n P) as [|v rest] eqn:ED.
      * apply drop_nil_inv in ED as HLen.
        rewrite (lookup_ge_None_2 P n) by lia. rewrite app_nil_r.
        rewrite drop_app_le by (rewrite length_seq; lia).
        rewrite (drop_ge P (S n)) by lia.
        f_equal; rewrite ?app_nil_r, <- ?app_assoc; try done; try lia.
      * apply drop_cons_inv in ED as (Hv & HD & HLen). rewrite Hv, HD.
        rewrite (drop_ge (seq p0 n ++ [p0 + n])) by (rewrite length_app, length_seq; simpl; lia).
        rewrite (drop_ge (seq p0 n)) by (rewrite length_seq; lia).
        f_equal; rewrite ?app_nil_r, <- ?app_assoc; try done; try lia.
    + (* pushValue(v) *)
      rewrite !Nat.add_0_r, zip_with_snoc_r.
      unfold react, chain. simpl. rewrite Hp.
      unfold pushValueThen. simpl. rewrite length_app. simpl.
      destruct (drop (length P) (seq p0 n)) as [|q rest] eqn:ED.
      * apply drop_nil_inv in ED as HLen. rewrite length_seq in HLen.
        rewrite (lookup_ge_None_2 (seq p0 n) (length P)) by (rewrite length_seq; lia).
        rewrite app_nil_r.
        rewrite drop_app_le by lia.
        rewrite (drop_ge (seq p0 n) (length P + 1)) by (rewrite length_seq; lia).
        f_equal; rewrite ?app_nil_r, <- ?app_assoc; try done; try lia.
      * apply drop_cons_inv in ED as (Hq & HD & HLen). rewrite length_seq in HLen.
        rewrite Hq. replace (length P + 1) with (S (length P)) by lia. rewrite HD.
        rewrite (drop_ge (P ++ [v])) by (rewrite length_app; simpl; lia).
        rewrite (drop_ge P) by lia.
        f_equal; rewrite ?app_nil_r, <- ?app_assoc; try done; try lia.
Qed.

(** X15.  On a listening session whose registration completed, with both
    queues empty and no callback waiting for its turn, any sequence of
    [next()] calls and [pushValue] calls, each getting its turn at once,
    resolves the k-th [next()] with the k-th pushed value, [done: false], in
    that order, for as many as both exist; the pulls without a value yet wait
    in [pullQueue] in call order, the values without a pull yet wait in
    [pushQueue] in push order, and the engine is not touched. *)
Theorem pulls_get_pushes_in_order (ops : list Op) (s : Session) (subs : list nat) :
  reactions s = [] ->
  listening (iterator s) = true ->
  promiseAll (subscribed (pubsub s)) (allSubscribed (iterator s)) = Some (Fulfilled subs) ->
  pullQueue (iterator s) = [] ->
  pushQueue (iterator s) = [] ->
  let s' := sessionRun (opEvents ops) s in
  settled s' = settled s ++ yields (promises s) ops /\
  pullQueue (iterator s') = drop (length (pushed ops)) (seq (promises s) (pulls ops)) /\
  pushQueue (iterator s') = drop (pulls ops) (pushed ops) /\
  listening (iterator s') = true /\
  pubsub s' = pubsub s.
Proof.
  intros Hr Hl Hp Hq1 Hq2 s'. subst s'.
  rewrite (fifo_run ops s subs Hr Hl Hp Hq1 Hq2). simpl. done.
Qed.

Lemma pulls_get_pushes_in_order_witness :
  settled (sessionRun
             (opEvents [Push (VOther "a"); Pull; Pull; Push (VOther "b"); Push (VOther "c")])
             openSession) =
    settled openSession ++
    yields (promises openSession)
      [Push (VOther "a"); Pull; Pull; Push (VOther "b"); Push (VOther "c")] /\
  yields (promises openSession)
    [Push (VOther "a"); Pull; Pull; Push (VOther "b"); Push (VOther "c")] =
  [(0, Fulfilled {| value := Some (VOther "a"); done := false |});
   (1, Fulfilled {| value := Some (VOther "b"); done := false |})].
Proof.
  split; [|reflexivity].
  destruct (pulls_get_pushes_in_order
              [Push (VOther "a"); Pull; Pull; Push (VOther "b"); Push (VOther "c")]
              openSession [0]) as (H & _); [reflexivity..|exact H].
Defined.

(** ** From the broker to the consumer *)

Lemma promiseAll_single (id : nat) :
  promiseAll [(id, Fulfilled id)] [id] = Some (Fulfilled [id]).
Proof. unfold promiseAll. simpl. by rewrite Nat.eqb_refl. Qed.

(** X16.  End to end on a new engine: an iterator is built over one topic,
    the broker answers its registration with a subscription, the consumer
    calls [next()], and then a message arrives on that subscription whose
    transform completes with [res].  The pending [next()] resolves with
    [{ value: res, done: false }], the message having been acknowledged and
    delivered once, to the iterator's [pushValue]. *)
Theorem published_message_reaches_next (t2s : string -> option Options -> string)
    (cmh : Message -> Result Value) (i : nat) (t : string) (o : option Options)
    (reply : BrokerReply) (s : Subscription) (m : Message) (res : Value) :
  getSubscription t (t2s t None) reply = Fulfilled s ->
  cmh m = Fulfilled res ->
  let s' := sessionRun (deliveryScenario (t2s t None) reply m)
              (newAsyncIterator i (newWorld (newGooglePubSub t2s cmh)) (OneName t) o) in
  settled s' = [(0, Fulfilled {| value := Some res; done := false |})] /\
  effects (pubsub s') =
    [On s MessageEvent (HandleMessage (t2s t None) 0); On s ErrorEvent (ErrorHandler 0);
     Ack m; Transform m; Deliver 0 (PushValueOf i) res] /\
  pullQueue (iterator s') = [] /\ pushQueue (iterator s') = [] /\ reactions s' = [].
Proof.
  intros Hreply Hres.
  set (n := t2s t None) in *.
  set (w0 := newWorld (newGooglePubSub t2s cmh)).
  (* the constructor *)
  destruct (subscribe_spec t (PushValueOf i) None w0)
    as (Hid & Hs1 & Hc1 & _ & _ & Hcmh1 & He1 & Hh1 & _ & Ha1 & Hsub1).
  change (topic2SubName (engine w0) t None) with n in *.
  change (currentClientId (engine w0)) with 0 in *.
  unfold listeners, listenerIds, subscribedEntry, entryOrEmpty in *.
  change (googleSubName2GoogleSubAndClientIds (engine w0)) with
    (∅ : gmap string GoogleSubAndClientIds) in *.
  rewrite lookup_empty in *. simpl in Hs1, Ha1, Hsub1, He1, Hh1.
  unfold namesOf, deliveryScenario, newAsyncIterator. cbn [subscribeAll].
  destruct (subscribe t (PushValueOf i) None w0) as [w1 p] eqn:E1.
  cbn [fst snd] in *. subst p.
  (* the broker answers *)
  set (f := {| sfTopicName := t; sfSubName := n; sfId := 0 |}) in *.
  assert (entryOrEmpty (engine w1) n =
          {| sub := None; messageHandler := None; errorHandler := None; ids := Some [0] |})
    as Hentry1.
  { unfold entryOrEmpty. by rewrite Hs1, lookup_insert_eq. }
  destruct (subscribeResume_spec f reply (with_awaiting [] w1))
    as (Hs2 & He2 & Hc2 & _ & _ & Hcmh2 & _ & Hh2 & _ & _).
  assert (attaches f reply (with_awaiting [] w1) = Some s) as Hatt.
  { unfold attaches, listeners, listenerIds. simpl. fold n. by rewrite Hreply, Hentry1. }
  rewrite Hatt in Hs2, He2. simpl in Hs2, He2, Hc2, Hh2, Hcmh2.
  assert (subscribed (subscribeResume f reply (with_awaiting [] w1)) = [(0, Fulfilled 0)])
    as Hsub2.
  { unfold subscribeResume. simpl. fold n. rewrite Hreply, Hentry1. simpl. by rewrite Hsub1. }
  set (it0 := {| pullQueue := []; pushQueue := []; listening := true;
                 eventsArray := [t]; allSubscribed := [0]; options := o |}).
  rewrite sessionRun_cons.
  assert (sessionStep (SEngine (ERoundTrip 0 reply))
            {| pubsub := w1; self := i; iterator := it0; reactions := [];
               promises := 0; settled := []; unobserved := [] |} =
          {| pubsub := subscribeResume f reply (with_awaiting [] w1); self := i;
             iterator := it0; reactions := []; promises := 0; settled := [];
             unobserved := [] |}) as ->.
  { cbn [sessionStep step pubsub self iterator reactions promises settled unobserved].
    rewrite Ha1. cbn [takeFrame sfId f Nat.eqb]. rewrite He2, He1. simpl.
    by rewrite ?drop_app_length. }
  set (w2 := subscribeResume f reply (with_awaiting [] w1)) in *. clearbody w2.
  (* next() *)
  rewrite !sessionRun_cons.
  assert (sessionStep SReact (sessionStep SNext
            {| pubsub := w2; self := i; iterator := it0; reactions := [];
               promises := 0; settled := []; unobserved := [] |}) =
          {| pubsub := w2; self := i; iterator := set_pullQueue [0] it0; reactions := [];
             promises := 1; settled := []; unobserved := [] |}) as ->.
  { simpl. unfold react. simpl. by rewrite Hsub2, promiseAll_single. }
  (* the message arrives *)
  assert (sessionStep (SEngine (EMessage n m))
            {| pubsub := w2; self := i; iterator := set_pullQueue [0] it0; reactions := [];
               promises := 1; settled := []; unobserved := [] |} =
          {| pubsub := handleMessage n m w2; self := i; iterator := set_pullQueue [0] it0;
             reactions := []; promises := 1; settled := []; unobserved := [] |}) as ->.
  { cbn [sessionStep step pubsub self iterator reactions promises settled unobserved].
    destruct (handleMessage_spec n m w2) as (_ & _ & He3 & _). rewrite He3.
    by rewrite ?drop_app_length. }
  (* the transform completes *)
  destruct (handleMessage_spec n m w2) as (Hg3 & _ & He3 & Hh3 & Hsub3 & _).
  set (w3 := handleMessage n m w2) in *. clearbody w3.
  rewrite Hh2, Hh1 in Hh3. simpl in Hh3. rewrite Hcmh2, Hcmh1 in Hh3.
  change (commonMessageHandler (engine w0) m) with (cmh m) in Hh3. rewrite Hres in Hh3.
  assert (handleMessageResume {| hfSubName := n; hfAwaited := Fulfilled res |}
            (with_handling [] w3) =
          emit [Deliver 0 (PushValueOf i) res] (with_handling [] w3)) as Hresume.
  { unfold handleMessageResume. simpl. rewrite Hg3. unfold entryOrEmpty.
    rewrite Hs2, lookup_insert_eq. simpl. rewrite Hentry1. simpl.
    rewrite Hg3, Hc2, Hc1, lookup_insert_eq. done. }
  assert (sessionStep (SEngine (ETransformSettles 0))
            {| pubsub := w3; self := i; iterator := set_pullQueue [0] it0;
               reactions := []; promises := 1; settled := []; unobserved := [] |} =
          {| pubsub := emit [Deliver 0 (PushValueOf i) res] (with_handling [] w3);
             self := i; iterator := set_pullQueue [0] it0;
             reactions := [ThenPushValue res]; promises := 1; settled := [];
             unobserved := [] |}) as ->.
  { cbn [sessionStep step pubsub self iterator reactions promises settled unobserved].
    rewrite Hh3. simpl. rewrite Hresume. simpl.
    rewrite ?drop_app_length. simpl. by rewrite Nat.eqb_refl. }
  (* the turn of the push *)
  unfold sessionRun. simpl. unfold react. simpl.
  rewrite Hsub3, Hsub2, promiseAll_single. simpl.
  rewrite He3, He2, He1. done.
Qed.

Lemma published_message_reaches_next_witness :
  settled (sessionRun (deliveryScenario posts ExistsYes testMessage)
             (newAsyncIterator 9 world0 (OneName "Posts") None)) =
  [(0, Fulfilled {| value := Some (VMessage testMessage); done := false |})].
Proof.
  destruct (published_message_reaches_next defaultTopic2SubName defaultCommonMessageHandler
              9 "Posts" None ExistsYes (ClientSub posts) testMessage (VMessage testMessage)
              eq_refl eq_refl) as (H & _).
  exact H.
Defined.

(** ** A listener under the empty name *)

Lemma step_empty_name (id : nat) (c : Callback) (e : Event) (w : World) :
  wellFormed w ->
  clientId2GoogleSubNameAndClientCallback (engine w) !! id = Some (""%string, c) ->
  clientId2GoogleSubNameAndClientCallback (engine (step e w)) !! id = Some (""%string, c).
Proof.
  intros Hwf Hid. destruct e as [t c' o|subId|id' reply|m msg|k]; simpl.
  - destruct (subscribe_spec t c' o w) as (_ & _ & Hcl & _). rewrite Hcl.
    rewrite lookup_insert_ne; [done|]. intros <-.
    rewrite (wf_fresh _ Hwf) in Hid; [done|lia].
  - destruct (unsubscribe_spec subId w) as [|m c' l w' Hsub Hm _ Hcl _ _ _ _ _ _ _ _ _];
      [done|]. simpl. rewrite Hcl, lookup_delete_ne; [done|]. intros ->.
    rewrite Hid in Hsub. by injection Hsub as <- <-.
  - destruct (takeFrame id' (awaiting w)) as [[f r]|]; [|done].
    destruct (subscribeResume_spec f reply (with_awaiting r w)) as (_ & _ & Hcl & _).
    by rewrite Hcl.
  - done.
  - destruct (handling w !! k) as [f|]; [|done].
    destruct (handleMessageResume_frame f (with_handling (delete k (handling w)) w))
      as (Hg & _). by rewrite Hg.
Qed.

(** X17.  A listener recorded under the empty subscription name (a naming
    function may answer [""]) can never be removed: [unsubscribe] takes the
    empty name for a missing record and throws [NoSubscriptionOfIdError]
    without changing anything, so on a well-formed engine the record and the
    id in the listener list of that name stay through every later event. *)
Theorem empty_name_listener_is_permanent (id : nat) (c : Callback) (evs : list Event)
    (w : World) :
  wellFormed w ->
  clientId2GoogleSubNameAndClientCallback (engine w) !! id = Some (""%string, c) ->
  unsubscribe id (run evs w) = (run evs w, Some (NoSubscriptionOfIdError id)) /\
  clientId2GoogleSubNameAndClientCallback (engine (run evs w)) !! id = Some (""%string, c) /\
  id ∈ listenerIds "" (run evs w).
Proof.
  intros Hwf Hid.
  assert (wellFormed (run evs w) /\
          clientId2GoogleSubNameAndClientCallback (engine (run evs w)) !! id
          = Some (""%string, c)) as [Hwf' Hid'].
  { revert w Hwf Hid. induction evs as [|e evs IH]; intros w Hwf Hid; [done|].
    rewrite run_cons. apply IH; [by apply step_wellFormed|by apply step_empty_name]. }
  split; [|split; [done|]].
  - unfold unsubscribe. by rewrite Hid'.
  - apply (wellFormed_listenerIds _ id "" Hwf'). eauto.
Qed.

Lemma empty_name_listener_is_permanent_witness :
  unsubscribe 0
    (run [EUnsubscribe 0; ESubscribe "b" (cb 1) None]
       (run [ESubscribe "a" (cb 0) None]
          (newWorld (newGooglePubSub (fun _ _ => ""%string) defaultCommonMessageHandler)))) =
  (run [EUnsubscribe 0; ESubscribe "b" (cb 1) None]
     (run [ESubscribe "a" (cb 0) None]
        (newWorld (newGooglePubSub (fun _ _ => ""%string) defaultCommonMessageHandler))),
   Some (NoSubscriptionOfIdError 0)).
Proof.
  apply (empty_name_listener_is_permanent 0 (cb 0)
           [EUnsubscribe 0; ESubscribe "b" (cb 1) None]
           (run [ESubscribe "a" (cb 0) None]
              (newWorld (newGooglePubSub (fun _ _ => ""%string)
                           defaultCommonMessageHandler)))).
  - apply run_wellFormed. by apply wellFormed_new.
  - reflexivity.
Defined.

(** ** An iterator over no topic *)

Lemma promiseAll_nil (log : list (nat * Result nat)) :
  promiseAll log [] = Some (Fulfilled []).
Proof.
  unfold promiseAll.
  assert (List.find (isRejectionOf []) log = None) as ->; [|done].
  induction log as [|[p [v|e]] log IH]; simpl; try done;
    try (by rewrite bool_decide_eq_false_2 by apply not_elem_of_nil).
Qed.

(** X18.  An iterator built over an empty array of topics subscribes to
    nothing and is registered at once: the engine is left as it was, a
    [next()] stays a pending pull, and a [return()] after it resolves that
    pull and itself with [{ value: undefined, done: true }] and leaves the
    engine as it was. *)
Theorem iterator_over_no_topic (i : nat) (w : World) (o : option Options) :
  let s := newAsyncIterator i w (ManyNames []) o in
  pubsub s = w /\
  promiseAll (subscribed (pubsub s)) (allSubscribed (iterator s)) = Some (Fulfilled []) /\
  pullQueue (iterator (sessionRun [SNext; SReact] s)) = [0] /\
  settled (sessionRun [SNext; SReact] s) = [] /\
  settled (sessionRun [SNext; SReact; SReturn; SReact] s) =
    [(0, Fulfilled doneResult); (1, Fulfilled doneResult)] /\
  pubsub (sessionRun [SNext; SReact; SReturn; SReact] s) = w.
Proof.
  intros s.
  assert (sessionRun [SNext; SReact] s =
          {| pubsub := w; self := i;
             iterator := {| pullQueue := [0]; pushQueue := []; listening := true;
                            eventsArray := []; allSubscribed := []; options := o |};
             reactions := []; promises := 1; settled := []; unobserved := [] |}) as E1.
  { subst s. unfold newAsyncIterator, sessionRun. cbn -[promiseAll react].
    unfold react. cbn -[promiseAll]. by rewrite promiseAll_nil. }
  change [SNext; SReact; SReturn; SReact] with ([SNext; SReact] ++ [SReturn; SReact]).
  rewrite sessionRun_app, E1. subst s. unfold newAsyncIterator, sessionRun.
  cbn -[promiseAll react]. rewrite promiseAll_nil.
  unfold react. cbn -[promiseAll]. rewrite promiseAll_nil. cbn. done.
Qed.
